(** * ADF stationarity-test MCP server: model and verified properties

    A shallow embedding of [adf_mcp/adf_core.py] and [adf_mcp_server.py].

    - Python values are a small JSON-like type [val]; a Python [dict] with
      string keys is an insertion-ordered association list.
    - A Python function that may raise and that talks to the task registry,
      the semaphore or the external test routine is a computation in the
      monad [Prog]: it produces the list of the visible actions it performs,
      in order, and either a value or the exception it raises.
    - The task registry lives in a store of dict objects, so that the record
      kept in [TASKS] and the copies handed out by [_get_task] are different
      objects.
    - Threads are interleaved by a step relation over [server] states. *)

From Stdlib Require Import ZArith Ascii String List PrimFloat.
From stdpp Require Import gmap strings list.

Set Warnings "-register-all,-inexact-float,-clear-no-such-hyp".
Open Scope string_scope.
Open Scope list_scope.
Open Scope Z_scope.

(** ** Python values *)

Inductive val :=
| VNone
| VBool (b : bool)
| VInt (z : Z)
| VFloat (f : float)
| VStr (s : string)
| VList (l : list val)
| VDict (d : list (string * val)).

Abbreviation dict := (list (string * val)).

(** ** Dictionaries with string keys, in insertion order *)

Section Dict.
Context {V : Type}.

(** [d.get(k)] *)
Fixpoint dict_get (k : string) (d : list (string * V)) : option V :=
  match d with
  | [] => None
  | (k', v) :: d' => if String.eqb k k' then Some v else dict_get k d'
  end.

(** [d[k] = v]: an existing key keeps its position, a new key goes last. *)
Fixpoint dict_set (k : string) (v : V) (d : list (string * V)) : list (string * V) :=
  match d with
  | [] => [(k, v)]
  | (k', v') :: d' =>
      if String.eqb k k' then (k, v) :: d' else (k', v') :: dict_set k v d'
  end.

(** [d.update] with keyword arguments *)
Definition dict_update (d updates : list (string * V)) : list (string * V) :=
  fold_left (fun acc kv => dict_set (fst kv) (snd kv) acc) updates d.

Definition dict_keys (d : list (string * V)) : list string := map fst d.

(** [k in d] *)
Definition dict_mem (k : string) (d : list (string * V)) : bool :=
  match dict_get k d with Some _ => true | None => false end.
End Dict.

(** [x in [..]] for a list of strings *)
Definition str_in (x : string) (l : list string) : bool := existsb (String.eqb x) l.

(** [repr] of a list of plain strings, as an f-string prints it. *)
Fixpoint repr_items (l : list string) : string :=
  match l with
  | [] => ""
  | [s] => "'" +:+ s +:+ "'"
  | s :: l' => "'" +:+ s +:+ "', " +:+ repr_items l'
  end.

Definition repr_str_list (l : list string) : string := "[" +:+ repr_items l +:+ "]".

(** Truth value of an optional string argument: [None] and the empty
    string are false. *)
Definition truthy (o : option string) : bool :=
  match o with
  | Some s => negb (String.eqb s "")
  | None => false
  end.

(** ** Exceptions *)

Inductive exn :=
| ValueError (msg : string)
| RuntimeError (msg : string)
| KeyError (key : string)
| TypeError (msg : string)
| ExternalError (cls msg : string).

(** [str(e)] *)
Definition str_exn (e : exn) : string :=
  match e with
  | ValueError m => m
  | RuntimeError m => m
  | KeyError k => "'" +:+ k +:+ "'"
  | TypeError m => m
  | ExternalError _ m => m
  end.

(** ** Visible actions of a computation *)

(** A keyword argument is a value, or the call [_now_iso()], whose result is
    read from the wall clock when the statement runs. *)
Inductive kwarg :=
| Val (v : val)
| Now.

Inductive action :=
| AAdfuller (x : list float) (regression : string) (maxlag : Z) (autolag : string)
| ACreate (task_id : string) (task : list (string * kwarg))
| ASet (task_id : string) (updates : list (string * kwarg))
| AAcquire
| ARelease
| AStart (target : list action).

(** ** The monad of computations *)

Inductive outcome (A : Type) :=
| Ok (a : A)
| Raised (e : exn).
Arguments Ok {A} a.
Arguments Raised {A} e.

Definition Prog (A : Type) : Type := list action * outcome A.

Definition trace {A} (p : Prog A) : list action := fst p.
Definition result {A} (p : Prog A) : outcome A := snd p.

#[global] Instance Prog_ret : MRet Prog := fun A a => ([], Ok a).

#[global] Instance Prog_bind : MBind Prog := fun A B f m =>
  match m with
  | (t, Ok a) => let r := f a in (t ++ fst r, snd r)
  | (t, Raised e) => (t, Raised e)
  end.

Definition raise {A} (e : exn) : Prog A := ([], Raised e).

Definition emit (a : action) : Prog unit := ([a], Ok tt).

(** [try: body  except Exception as e: handler(e)] *)
Definition try_except {A} (body : Prog A) (handler : exn -> Prog A) : Prog A :=
  match body with
  | (t, Ok a) => (t, Ok a)
  | (t, Raised e) => let r := handler e in (t ++ fst r, snd r)
  end.

(** A library call that either raises or returns. *)
Definition lift {A} (r : exn + A) : Prog A :=
  match r with
  | inl e => raise e
  | inr a => mret a
  end.

(** [d[k]] *)
Definition getitem {V} (d : list (string * V)) (k : string) : Prog V :=
  match dict_get k d with
  | Some v => mret v
  | None => raise (KeyError k)
  end.

(** The calls of the external test routine made by a computation. *)
Definition is_adfuller (a : action) : bool :=
  match a with AAdfuller _ _ _ _ => true | _ => false end.

Definition adfuller_calls (t : list action) : list action := List.filter is_adfuller t.

(** ** External collaborators *)

(** What [statsmodels.tsa.stattools.adfuller] returns with [autolag] set. *)
Record adf_tuple := {
  adfstat : float;
  pvalue : float;
  usedlag : Z;
  nobs : Z;
  crit_1 : float;
  crit_5 : float;
  crit_10 : float;
  icbest : float
}.

(** A numpy array: numeric, or of a dtype that [np.isnan] rejects. *)
Inductive ndarray :=
| NumArray (xs : list float)
| ObjArray (len : nat).

(** A pandas data frame, as far as the server looks at it. *)
Record DataFrame := {
  columns : list string;
  (* to_datetime, set_index and resample('1min').size().values on a column *)
  resample_1min_size : string -> exn + ndarray;
  (* df[col].values *)
  column_values : string -> exn + ndarray
}.

Record Env := {
  adfuller : list float -> string -> Z -> string -> exn + adf_tuple;
  (* format(v, '.6f') and str(v) *)
  format_6f : val -> exn + string;
  py_str : val -> string;
  py_strip : string -> string;
  os_path_exists : string -> bool;
  read_csv : string -> exn + DataFrame;
  (* open(path, 'r').readlines() *)
  open_readlines : string -> exn + list string;
  (* line.strip().split(delimiter) *)
  strip_split : string -> string -> exn + list string;
  (* float(s); None stands for ValueError *)
  py_float : string -> option float;
  np_min : list float -> float;
  np_max : list float -> float;
  np_mean : list float -> float;
  np_std : list float -> float;
  (* traceback.format_exc() *)
  format_exc : exn -> string
}.

(** ** adf_core.py: class ADFTester *)

Definition regression_types : list (string * string) :=
  [("n", "无常数项"); ("c", "有常数项"); ("ct", "有常数项和趋势项")].

Definition lags_methods : list (string * string) :=
  [("aic", "Akaike信息准则"); ("bic", "Bayesian信息准则"); ("t-stat", "t统计量")].

(** [data[~np.isnan(data)]] *)
Definition drop_nan (data : list float) : list float :=
  List.filter (fun x => negb (PrimFloat.is_nan x)) data.

Definition len {A} (l : list A) : Z := Z.of_nat (length l).

(** The dictionary [result_dict] that [test_stationarity] builds from the
    tuple [result] of the external routine. *)
Definition result_dict (r : adf_tuple) (regression regression_description : string)
    (lags_method lags_method_description : string) (data_length max_lags : Z) : dict :=
  let statistic := adfstat r in
  let p_value := pvalue r in
  let lags_used := usedlag r in
  let is_stationary := (p_value <? 0.05)%float in
  [("statistic", VFloat statistic);
   ("p_value", VFloat p_value);
   ("critical_values",
     VDict [("1%", VFloat (crit_1 r)); ("5%", VFloat (crit_5 r));
            ("10%", VFloat (crit_10 r))]);
   ("is_stationary", VBool is_stationary);
   ("lags_used", VInt lags_used);
   ("regression_type", VStr regression);
   ("regression_description", VStr regression_description);
   ("lags_method", VStr lags_method);
   ("lags_method_description", VStr lags_method_description);
   ("data_length", VInt data_length);
   ("max_lags", VInt max_lags)].

Section Core.
Variable E : Env.

Definition call_adfuller (x : list float) (regression : string) (maxlag : Z)
    (autolag : string) : Prog adf_tuple :=
  emit (AAdfuller x regression maxlag autolag) ;;
  lift (adfuller E x regression maxlag autolag).

Definition test_stationarity (data : list float) (regression : string)
    (max_lags : Z) (lags_method : string) : Prog dict :=
  let data := drop_nan data in
  if len data <? 10 then raise (ValueError "数据长度必须至少为10个观测值") else
  if negb (dict_mem regression regression_types) then
    raise (ValueError ("回归类型必须是 " +:+ repr_str_list (dict_keys regression_types) +:+ " 之一")) else
  if negb (dict_mem lags_method lags_methods) then
    raise (ValueError ("滞后选择方法必须是 " +:+ repr_str_list (dict_keys lags_methods) +:+ " 之一")) else
  if max_lags <? 0 then raise (ValueError "最大滞后阶数必须非负") else
  let max_lags := Z.min max_lags (len data / 2 - 1) in
  try_except
    (r ← call_adfuller data regression max_lags lags_method;
     regression_description ← getitem regression_types regression;
     lags_method_description ← getitem lags_methods lags_method;
     mret (result_dict r regression regression_description lags_method
             lags_method_description (len data) max_lags))
    (fun e => raise (RuntimeError ("ADF检验执行失败: " +:+ str_exn e))).
End Core.

Definition nl : string := String "010"%char EmptyString.

(** [v[k]] on a value *)
Definition subscript (v : val) (k : string) : Prog val :=
  match v with
  | VDict d => getitem d k
  | _ => raise (TypeError "object is not subscriptable")
  end.

(** [v < 0.05] *)
Definition lt_005 (v : val) : Prog bool :=
  match v with
  | VFloat f => mret (f <? 0.05)%float
  | VInt z => mret (z <=? 0)
  | VBool b => mret (negb b)
  | _ => raise (TypeError "'<' not supported between these instances")
  end.

(** Truth value of a Python value *)
Definition val_truthy (v : val) : bool :=
  match v with
  | VNone => false
  | VBool b => b
  | VInt z => negb (z =? 0)
  | VFloat f => negb (f =? 0)%float
  | VStr s => negb (String.eqb s "")
  | VList l => match l with [] => false | _ => true end
  | VDict d => match d with [] => false | _ => true end
  end.

Section Interpretation.
Variable E : Env.

Definition get_interpretation (result : dict) : Prog string :=
  statistic ← getitem result "statistic";
  p_value ← getitem result "p_value";
  is_stationary ← getitem result "is_stationary";
  critical_values ← getitem result "critical_values";
  s_statistic ← lift (format_6f E statistic);
  s_p_value ← lift (format_6f E p_value);
  c1 ← subscript critical_values "1%";
  s_c1 ← lift (format_6f E c1);
  c5 ← subscript critical_values "5%";
  s_c5 ← lift (format_6f E c5);
  c10 ← subscript critical_values "10%";
  s_c10 ← lift (format_6f E c10);
  let conclusion :=
    if val_truthy is_stationary then "时间序列是平稳的" else "时间序列是非平稳的" in
  let decision := if val_truthy is_stationary then "拒绝" else "不能拒绝" in
  s_p_value' ← lift (format_6f E p_value);
  below ← lt_005 p_value;
  let sign := if below : bool then "<" else ">" in
  regression_description ← getitem result "regression_description";
  lags_method_description ← getitem result "lags_method_description";
  lags_used ← getitem result "lags_used";
  data_length ← getitem result "data_length";
  let interpretation :=
    nl +:+ "ADF检验结果解释：" +:+ nl +:+ nl +:+
    "1. 检验统计量: " +:+ s_statistic +:+ nl +:+
    "2. p值: " +:+ s_p_value +:+ nl +:+
    "3. 临界值:" +:+ nl +:+
    "   - 1%显著性水平: " +:+ s_c1 +:+ nl +:+
    "   - 5%显著性水平: " +:+ s_c5 +:+ nl +:+
    "   - 10%显著性水平: " +:+ s_c10 +:+ nl +:+ nl +:+
    "4. 结论: " +:+ conclusion +:+ nl +:+
    "   - 在5%显著性水平下，" +:+ decision +:+ "原假设（序列存在单位根）" +:+ nl +:+
    "   - p值 " +:+ s_p_value' +:+ " " +:+ sign +:+ " 0.05" +:+ nl +:+ nl +:+
    "5. 技术细节:" +:+ nl +:+
    "   - 使用的回归类型: " +:+ py_str E regression_description +:+ nl +:+
    "   - 滞后选择方法: " +:+ py_str E lags_method_description +:+ nl +:+
    "   - 实际使用滞后阶数: " +:+ py_str E lags_used +:+ nl +:+
    "   - 数据长度: " +:+ py_str E data_length +:+ nl +:+
    "        " in
  mret (py_strip E interpretation).
End Interpretation.

(** ** adf_mcp_server.py: the synchronous tools *)

Definition is_empty {A} (l : list A) : bool :=
  match l with [] => true | _ => false end.

Definition failed (msg : string) : dict :=
  [("status", VStr "failed"); ("error", VStr msg)].

Section Tools.
Variable E : Env.

Definition adf_test (data : list float) (regression : string) (max_lags : Z)
    (lags_method : string) : Prog dict :=
  try_except
    (if is_empty data || (len data <? 10) then
       mret (failed "数据长度必须至少为10个观测值")
     else if negb (str_in regression ["n"; "c"; "ct"]) then
       mret (failed "回归类型必须是 'n', 'c', 'ct' 之一")
     else if negb (str_in lags_method ["aic"; "bic"; "t-stat"]) then
       mret (failed "滞后选择方法必须是 'aic', 'bic', 't-stat' 之一")
     else
       result ← test_stationarity E data regression max_lags lags_method;
       mret [("status", VStr "success"); ("result", VDict result)])
    (fun e => mret (failed (str_exn e))).

(** One round of the loop of [adf_batch_test]: the inner try statement,
    with [results] before and after. *)
Definition batch_item (regression : string) (max_lags : Z) (lags_method : string)
    (name : string) (data : list float) (results : dict) : Prog dict :=
  try_except
    (if len data <? 10 then
       mret (dict_set name (VDict (failed "数据长度必须至少为10个观测值")) results)
     else
       result ← test_stationarity E data regression max_lags lags_method;
       mret (dict_set name (VDict [("status", VStr "success"); ("result", VDict result)])
               results))
    (fun e => mret (dict_set name (VDict (failed (str_exn e))) results)).

Fixpoint batch_loop (regression : string) (max_lags : Z) (lags_method : string)
    (items : list (string * list float)) (results : dict) : Prog dict :=
  match items with
  | [] => mret results
  | (name, data) :: items' =>
      results' ← batch_item regression max_lags lags_method name data results;
      batch_loop regression max_lags lags_method items' results'
  end.

Definition adf_batch_test (data_dict : list (string * list float))
    (regression : string) (max_lags : Z) (lags_method : string) : Prog dict :=
  try_except
    (if is_empty data_dict then mret (failed "数据字典不能为空")
     else
       results ← batch_loop regression max_lags lags_method data_dict [];
       mret [("status", VStr "success"); ("results", VDict results)])
    (fun e => mret (failed (str_exn e))).

Definition adf_interpret (statistic p_value : float)
    (critical_values : list (string * float)) (regression : string) : Prog dict :=
  try_except
    (interpretation ←
       get_interpretation E
         [("statistic", VFloat statistic);
          ("p_value", VFloat p_value);
          ("critical_values", VDict (map (fun kv => (fst kv, VFloat (snd kv))) critical_values));
          ("regression_type", VStr regression)];
     mret [("status", VStr "success"); ("interpretation", VStr interpretation)])
    (fun e => mret (failed (str_exn e))).
End Tools.

(** ** The task registry *)

(** Task records are dict objects in a store; [TASKS] maps a task id to the
    object that holds its record.  The values inside a record ([params],
    [result]) are never changed in place by the server, [dict.update] only
    rebinds the keys of the record object, so they are kept by value. *)

Abbreviation loc := positive.

Record registry := {
  TASKS : list (string * loc);
  heap : gmap loc dict
}.

(** A new dict object *)
Definition alloc (d : dict) (r : registry) : loc * registry :=
  let l := fresh (dom (heap r)) in
  (l, {| TASKS := TASKS r; heap := <[l := d]> (heap r) |}).
Arguments alloc : simpl never.

(** The body of [_create_task] under [TASKS_LOCK]: [TASKS[task_id] = task],
    for the new dict object [task]. *)
Definition _create_task_locked (task_id : string) (task : dict) (r : registry) : registry :=
  let (l, r') := alloc task r in
  {| TASKS := dict_set task_id l (TASKS r'); heap := heap r' |}.

(** The body of [_set_task] under [TASKS_LOCK]. *)
Definition _set_task_locked (task_id : string) (updates : dict) (r : registry) : registry :=
  match dict_get task_id (TASKS r) with
  | Some l =>
      match heap r !! l with
      | Some d => {| TASKS := TASKS r; heap := <[l := dict_update d updates]> (heap r) |}
      | None => r
      end
  | None => r
  end.

(** [dict(TASKS.get(task_id, {}))]: the reference of the copy. *)
Definition _get_task (task_id : string) (r : registry) : loc * registry :=
  let d := match dict_get task_id (TASKS r) with
           | Some l => default [] (heap r !! l)
           | None => []
           end in
  alloc d r.

(** [[dict(t) for t in TASKS.values()]] *)
Fixpoint copy_each (ls : list loc) (r : registry) : list loc * registry :=
  match ls with
  | [] => ([], r)
  | l :: ls' =>
      let (c, r1) := alloc (default [] (heap r !! l)) r in
      let (cs, r2) := copy_each ls' r1 in
      (c :: cs, r2)
  end.

Definition _list_tasks (r : registry) : list loc * registry :=
  copy_each (map snd (TASKS r)) r.

(** The tools [get_task] and [list_tasks] *)
Definition get_task (task_id : string) (r : registry) : loc * registry :=
  _get_task task_id r.

Definition list_tasks (r : registry) : (Z * list loc) * registry :=
  let (tasks, r') := _list_tasks r in ((len tasks, tasks), r').

(** Reading a record through the registry *)
Definition record_of (r : registry) (task_id : string) : option dict :=
  match dict_get task_id (TASKS r) with
  | Some l => heap r !! l
  | None => None
  end.

Definition field_of (r : registry) (task_id key : string) : option val :=
  match record_of r task_id with
  | Some d => dict_get key d
  | None => None
  end.

Definition status_of (r : registry) (task_id : string) : option val :=
  field_of r task_id "status".

(** Keyword arguments, once the clock has been read *)
Definition eval_kwarg (now : string) (a : kwarg) : val :=
  match a with
  | Val v => v
  | Now => VStr now
  end.

Definition eval_kwargs (now : string) (kws : list (string * kwarg)) : dict :=
  map (fun kv => (fst kv, eval_kwarg now (snd kv))) kws.

(** ** adf_mcp_server.py: the background job *)

(** The arguments of [adf_analyze_file], which it packs into [params]. *)
Record params := {
  csv : option string;
  txt : option string;
  timestamp_col : string;
  value_col : string;
  delimiter : string;
  has_header : bool;
  regression : string;
  max_lags : Z;
  lags_method : string;
  analysis_type : string
}.

Definition opt_str (o : option string) : val :=
  match o with
  | Some s => VStr s
  | None => VNone
  end.

Definition params_dict (p : params) : dict :=
  [("csv", opt_str (csv p));
   ("txt", opt_str (txt p));
   ("timestamp_col", VStr (timestamp_col p));
   ("value_col", VStr (value_col p));
   ("delimiter", VStr (delimiter p));
   ("has_header", VBool (has_header p));
   ("regression", VStr (regression p));
   ("max_lags", VInt (max_lags p));
   ("lags_method", VStr (lags_method p));
   ("analysis_type", VStr (analysis_type p))].

(** [_create_task]; its first argument is the value of [str(uuid.uuid4())]. *)
Definition _create_task (task_id : string) (task_type : string) (p : dict) : Prog string :=
  emit (ACreate task_id
          [("id", Val (VStr task_id));
           ("type", Val (VStr task_type));
           ("params", Val (VDict p));
           ("status", Val (VStr "queued"));
           ("progress", Val (VFloat 0.0));
           ("created_at", Now);
           ("started_at", Val VNone);
           ("completed_at", Val VNone);
           ("result", Val VNone);
           ("error", Val VNone);
           ("traceback", Val VNone)]);;
  mret task_id.

Definition _set_task (task_id : string) (updates : list (string * kwarg)) : Prog unit :=
  emit (ASet task_id updates).

(** [with TASKS_SEM: body]: the semaphore is released however the body ends. *)
Definition with_TASKS_SEM {A} (body : Prog A) : Prog A :=
  (AAcquire :: fst body ++ [ARelease], snd body).

(** [_start_background(target, *args)], for the computation the thread runs *)
Definition _start_background {A} (target : Prog A) : Prog unit :=
  emit (AStart (trace target)).

(** [len] and the mask [~np.isnan] on an array *)
Definition array_len (a : ndarray) : Z :=
  match a with
  | NumArray xs => len xs
  | ObjArray n => Z.of_nat n
  end.

Definition array_drop_nan (a : ndarray) : Prog (list float) :=
  match a with
  | NumArray xs => mret (drop_nan xs)
  | ObjArray _ => raise (TypeError "ufunc 'isnan' not supported for the input types")
  end.

Definition _generate_recommendations (adf_result : dict) (data_length : Z)
    : Prog (list string) :=
  is_stationary ← getitem adf_result "is_stationary";
  let recommendations :=
    if val_truthy is_stationary then
      ["时间序列是平稳的，适合进行ARIMA建模"; "可以考虑进行短期预测"]
    else
      ["时间序列是非平稳的，建议进行差分处理"; "可以考虑使用ARIMA模型进行建模"] in
  let recommendations :=
    if data_length <? 100 then
      recommendations ++ ["数据量较少，建议收集更多数据以提高分析可靠性"]
    else recommendations in
  mret recommendations.

Section Worker.
Variable E : Env.

(** The two loops over the lines of a TXT file and their values *)
Definition read_values (values : list string) (data : list float) : list float :=
  fold_left
    (fun data value =>
       match py_float E value with
       | Some x => data ++ [x]
       | None => data
       end)
    values data.

Fixpoint read_lines (delimiter : string) (lines : list string) (data : list float)
    : Prog (list float) :=
  match lines with
  | [] => mret data
  | line :: lines' =>
      values ← lift (strip_split E line delimiter);
      read_lines delimiter lines' (read_values values data)
  end.

Definition open_path {A} (f : string -> exn + A) (file_path : option string) : Prog A :=
  match file_path with
  | Some path => lift (f path)
  | None => raise (TypeError "expected str, bytes or os.PathLike object, not NoneType")
  end.

(** Lines 319 to 365 of the worker: from the progress mark 0.5 on. *)
Definition analyze_series (task_id : string) (p : params) (file_path : option string)
    (file_type : string) (time_series : ndarray) : Prog unit :=
  _set_task task_id [("progress", Val (VFloat 0.5))];;
  if array_len time_series <? 10 then
    _set_task task_id
      [("status", Val (VStr "failed"));
       ("error", Val (VStr "数据长度必须至少为10个观测值"));
       ("completed_at", Now)]
  else
    time_series ← array_drop_nan time_series;
    if len time_series <? 10 then
      _set_task task_id
        [("status", Val (VStr "failed"));
         ("error", Val (VStr "有效数据长度必须至少为10个观测值"));
         ("completed_at", Now)]
    else
      _set_task task_id [("progress", Val (VFloat 0.7))];;
      adf_result ← test_stationarity E time_series (regression p) (max_lags p)
                     (lags_method p);
      _set_task task_id [("progress", Val (VFloat 0.9))];;
      let data_summary :=
        [("time_series_length", VInt (len time_series));
         ("value_range",
           VDict [("min", VFloat (np_min E time_series));
                  ("max", VFloat (np_max E time_series));
                  ("mean", VFloat (np_mean E time_series));
                  ("std", VFloat (np_std E time_series))])] in
      interpretation ← get_interpretation E adf_result;
      recommendations ← _generate_recommendations adf_result (len time_series);
      let result :=
        [("status", VStr "success");
         ("analysis_type", VStr (analysis_type p));
         ("file_path", opt_str file_path);
         ("file_type", VStr file_type);
         ("data_summary", VDict data_summary);
         ("adf_result", VDict adf_result);
         ("interpretation", VStr interpretation);
         ("recommendations", VList (map VStr recommendations))] in
      _set_task task_id
        [("status", Val (VStr "succeeded"));
         ("progress", Val (VFloat 1.0));
         ("completed_at", Now);
         ("result", Val (VDict result))].

Definition _analyze_file_worker (task_id : string) (p : params) : Prog unit :=
  try_except
    (with_TASKS_SEM
       (_set_task task_id
          [("status", Val (VStr "running")); ("started_at", Now);
           ("progress", Val (VFloat 0.1))];;
        let csv_path := csv p in
        let txt_path := txt p in
        let file_path := if truthy csv_path then csv_path else txt_path in
        let file_type := if truthy csv_path then "csv" else "txt" in
        _set_task task_id [("progress", Val (VFloat 0.2))];;
        if String.eqb file_type "csv" then
          df ← open_path (read_csv E) file_path;
          if negb (str_in (timestamp_col p) (columns df)) then
            _set_task task_id
              [("status", Val (VStr "failed"));
               ("error", Val (VStr ("时间戳列 '" +:+ timestamp_col p +:+ "' 不存在")));
               ("completed_at", Now)]
          else if negb (str_in (value_col p) (columns df)) then
            _set_task task_id
              [("status", Val (VStr "failed"));
               ("error", Val (VStr ("数值列 '" +:+ value_col p +:+ "' 不存在")));
               ("completed_at", Now)]
          else if String.eqb (analysis_type p) "log_analysis" then
            time_series ← lift (resample_1min_size df (timestamp_col p));
            analyze_series task_id p file_path file_type time_series
          else
            time_series ← lift (column_values df (value_col p));
            analyze_series task_id p file_path file_type time_series
        else
          lines ← open_path (open_readlines E) file_path;
          let lines := if has_header p then tl lines else lines in
          data ← read_lines (delimiter p) lines [];
          analyze_series task_id p file_path file_type (NumArray data)))
    (fun ex =>
       _set_task task_id
         [("status", Val (VStr "failed"));
          ("completed_at", Now);
          ("error", Val (VStr (str_exn ex)));
          ("traceback", Val (VStr (format_exc E ex)))]).

(** The tool [adf_analyze_file]; [task_id] is the identifier that
    [uuid.uuid4()] yields for this call. *)
Definition adf_analyze_file (task_id : string) (p : params) : Prog dict :=
  let params := params_dict p in
  if (truthy (csv p) && truthy (txt p)) || (negb (truthy (csv p)) && negb (truthy (txt p)))
  then
    let msg := "请指定csv或txt文件路径中的一个" in
    task_id ← _create_task task_id "adf_analyze_file" params;
    _set_task task_id
      [("status", Val (VStr "failed")); ("error", Val (VStr msg)); ("completed_at", Now)];;
    mret [("status", VStr "failed"); ("task_id", VStr task_id);
          ("type", VStr "adf_analyze_file"); ("error", VStr msg)]
  else
    match (if truthy (csv p) then csv p else txt p) with
    | None => raise (TypeError "stat: path should be string, bytes, os.PathLike or integer, not NoneType")
    | Some file_path =>
        if negb (os_path_exists E file_path) then
          let msg := "文件不存在: " +:+ file_path in
          task_id ← _create_task task_id "adf_analyze_file" params;
          _set_task task_id
            [("status", Val (VStr "failed")); ("error", Val (VStr msg));
             ("completed_at", Now)];;
          mret [("status", VStr "failed"); ("task_id", VStr task_id);
                ("type", VStr "adf_analyze_file"); ("error", VStr msg)]
        else
          task_id ← _create_task task_id "adf_analyze_file" params;
          _start_background (_analyze_file_worker task_id p);;
          mret [("status", VStr "queued"); ("task_id", VStr task_id);
                ("type", VStr "adf_analyze_file")]
    end.
End Worker.

(** ** The server: registry, semaphore and threads *)

(** A thread serves a client request or was started in the background; what
    is kept of it is the list of the actions it has still to perform. *)
Inductive origin :=
| Request
| Background.

Record server := {
  reg : registry;
  TASKS_SEM : Z;
  threads : list (origin * list action)
}.

(** [int(os.getenv(name, default 2))], for the parsed value of the variable *)
Definition MAX_CONCURRENT (ADF_MAX_CONCURRENT : option Z) : Z :=
  default 2 ADF_MAX_CONCURRENT.

Definition init (capacity : Z) : server :=
  {| reg := {| TASKS := []; heap := ∅ |}; TASKS_SEM := capacity; threads := [] |}.

Definition set_reg (r : registry) (s : server) : server :=
  {| reg := r; TASKS_SEM := TASKS_SEM s; threads := threads s |}.

(** One action of a thread, performed atomically.  [None]: the action cannot
    be performed in this state.  [acquire] blocks while the counter is zero;
    [uuid4] does not yield an identifier that is already a key of [TASKS]. *)
Definition exec_action (now : string) (a : action) (s : server) : option server :=
  match a with
  | AAdfuller _ _ _ _ => Some s
  | ACreate task_id task =>
      if dict_mem task_id (TASKS (reg s)) then None
      else Some (set_reg (_create_task_locked task_id (eval_kwargs now task) (reg s)) s)
  | ASet task_id updates =>
      Some (set_reg (_set_task_locked task_id (eval_kwargs now updates) (reg s)) s)
  | AAcquire =>
      if 0 <? TASKS_SEM s then
        Some {| reg := reg s; TASKS_SEM := TASKS_SEM s - 1; threads := threads s |}
      else None
  | ARelease =>
      Some {| reg := reg s; TASKS_SEM := TASKS_SEM s + 1; threads := threads s |}
  | AStart target =>
      Some {| reg := reg s; TASKS_SEM := TASKS_SEM s;
              threads := threads s ++ [(Background, target)] |}
  end.

Inductive label :=
(* a client calls adf_analyze_file *)
| LCall (E : Env) (task_id : string) (p : params)
(* a client calls get_task or list_tasks *)
| LGet (task_id : string)
| LList
(* thread i performs its next action, at time now *)
| LRun (i : nat) (now : string).

Definition step (lb : label) (s : server) : option server :=
  match lb with
  | LCall E task_id p =>
      Some {| reg := reg s; TASKS_SEM := TASKS_SEM s;
              threads := threads s ++ [(Request, trace (adf_analyze_file E task_id p))] |}
  | LGet task_id => Some (set_reg (snd (get_task task_id (reg s))) s)
  | LList => Some (set_reg (snd (list_tasks (reg s))) s)
  | LRun i now =>
      match threads s !! i with
      | Some (o, a :: rest) =>
          exec_action now a
            {| reg := reg s; TASKS_SEM := TASKS_SEM s;
               threads := <[i := (o, rest)]> (threads s) |}
      | _ => None
      end
  end.

Fixpoint run (lbs : list label) (s : server) : option server :=
  match lbs with
  | [] => Some s
  | lb :: lbs' =>
      match step lb s with
      | Some s' => run lbs' s'
      | None => None
      end
  end.

Definition reachable (capacity : Z) (s : server) : Prop :=
  exists lbs, run lbs (init capacity) = Some s.

(** The tasks whose record says [running] *)
Definition is_running (r : registry) (task_id : string) : bool :=
  match status_of r task_id with
  | Some (VStr st) => String.eqb st "running"
  | _ => false
  end.

Definition running_tasks (s : server) : list string :=
  List.filter (is_running (reg s)) (dict_keys (TASKS (reg s))).

(** ** Vocabulary of the statements *)

(** A response of a synchronous tool: a status tag with a payload under
    [payload], or with an error message. *)
Definition tagged (payload : string) (d : dict) : Prop :=
  (dict_get "status" d = Some (VStr "success") /\ is_Some (dict_get payload d)) \/
  (dict_get "status" d = Some (VStr "failed") /\
   exists msg, dict_get "error" d = Some (VStr msg)).

(** The entry that the loop of [adf_batch_test] stores for one series. *)
Definition item_outcome (E : Env) (regression : string) (max_lags : Z)
    (lags_method : string) (data : list float) : dict :=
  if len data <? 10 then failed "数据长度必须至少为10个观测值"
  else
    match result (test_stationarity E data regression max_lags lags_method) with
    | Ok r => [("status", VStr "success"); ("result", VDict r)]
    | Raised e => failed (str_exn e)
    end.

(** [results[name]] of a response of [adf_batch_test] *)
Definition batch_entry (name : string) (response : outcome dict) : option val :=
  match response with
  | Ok d =>
      match dict_get "results" d with
      | Some (VDict results) => dict_get name results
      | _ => None
      end
  | Raised _ => None
  end.

(** A stand-in for the collaborators.  [adfuller] follows the lag check of
    statsmodels (setup.py asks for statsmodels 0.13 or later): it raises
    when maxlag exceeds nobs // 2 - ntrend - 1, where ntrend is the number
    of deterministic terms of the regression. *)
Definition sample_tuple : adf_tuple :=
  {| adfstat := (-3.5)%float; pvalue := 0.01%float; usedlag := 1; nobs := 10;
     crit_1 := (-3.75)%float; crit_5 := (-3.0)%float; crit_10 := (-2.625)%float;
     icbest := 0%float |}.

Definition sample_env : Env :=
  {| adfuller := fun x regression maxlag autolag =>
       let ntrend := if String.eqb regression "n" then 0
                     else Z.of_nat (String.length regression) in
       if len x / 2 - ntrend - 1 <? maxlag then
         inl (ValueError "maxlag must be less than (nobs/2 - 1 - ntrend) where n trend is the number of included deterministic regressors")
       else inr sample_tuple;
     format_6f := fun _ => inr "0.000000";
     py_str := fun _ => "";
     py_strip := fun s => s;
     os_path_exists := fun _ => true;
     read_csv := fun _ =>
       inl (ExternalError "EmptyDataError" "No columns to parse from file");
     open_readlines := fun _ =>
       inr ["value"; "3"; "1"; "4"; "1"; "5"; "9"; "2"; "6"; "5"; "3"; "5"; "8"];
     strip_split := fun line _ => inr [line];
     py_float := fun s =>
       dict_get s [("1", 1%float); ("2", 2%float); ("3", 3%float); ("4", 4%float);
                   ("5", 5%float); ("6", 6%float); ("8", 8%float); ("9", 9%float)];
     np_min := fun _ => 0%float;
     np_max := fun _ => 0%float;
     np_mean := fun _ => 0%float;
     np_std := fun _ => 0%float;
     format_exc := fun _ => "Traceback (most recent call last): ..." |}.

Definition nine_points : list float := [3; 1; 4; 1; 5; 9; 2; 6; 5]%float.
Definition twelve_points : list float := [3; 1; 4; 1; 5; 9; 2; 6; 5; 3; 5; 8]%float.

(** Operations on the registry, in the order they are performed *)
Inductive regop :=
| OpCreate (task_id : string) (task : dict)
| OpSet (task_id : string) (updates : dict)
| OpGet (task_id : string)
| OpList.

Definition apply_op (r : registry) (op : regop) : registry :=
  match op with
  | OpCreate task_id task => _create_task_locked task_id task r
  | OpSet task_id updates => _set_task_locked task_id updates r
  | OpGet task_id => snd (_get_task task_id r)
  | OpList => snd (_list_tasks r)
  end.

Definition apply_ops (ops : list regop) (r : registry) : registry :=
  fold_left apply_op ops r.

Definition empty_registry : registry := {| TASKS := []; heap := ∅ |}.

(** Every record of the registry is an object of the store, and no two task
    ids share a record. *)
Definition allocated (r : registry) : Prop :=
  forall task_id l, In (task_id, l) (TASKS r) -> is_Some (heap r !! l).

Definition separate (r : registry) : Prop :=
  forall t1 t2 l,
    dict_get t1 (TASKS r) = Some l -> dict_get t2 (TASKS r) = Some l -> t1 = t2.

(** An object of the store that is not a record of the registry *)
Definition foreign (r : registry) (c : loc) : Prop :=
  is_Some (heap r !! c) /\
  forall task_id l, dict_get task_id (TASKS r) = Some l -> l <> c.

(** Sample requests *)
Definition csv_request (path : string) : params :=
  {| csv := Some path; txt := None; timestamp_col := "Date"; value_col := "EventId";
     delimiter := " "; has_header := true; regression := "c"; max_lags := 10;
     lags_method := "aic"; analysis_type := "log_analysis" |}.

Definition both_files : params :=
  {| csv := Some "a.csv"; txt := Some "a.txt"; timestamp_col := "Date";
     value_col := "EventId"; delimiter := " "; has_header := true; regression := "c";
     max_lags := 10; lags_method := "aic"; analysis_type := "log_analysis" |}.

(** ** Vocabulary for the background job *)

(** A computation that performs no action *)
Definition silent {A} (m : Prog A) : Prop := trace m = [].

(** The status an update leaves in a record, if it sets one *)
Definition status_kw (updates : list (string * kwarg)) : option kwarg :=
  dict_get "status" (dict_update [] updates).

(** An update of the task that leaves its status alone *)
Definition quiet (task_id : string) (a : action) : Prop :=
  match a with
  | ASet t updates => t = task_id /\ status_kw updates = None
  | _ => False
  end.

(** The same, or a call of the external routine *)
Definition tame (task_id : string) (a : action) : Prop :=
  match a with
  | AAdfuller _ _ _ _ => True
  | _ => quiet task_id a
  end.

(** [v[k1][k2]...] *)
Fixpoint val_path (v : val) (path : list string) : option val :=
  match path with
  | [] => Some v
  | k :: path' =>
      match v with
      | VDict d =>
          match dict_get k d with
          | Some v' => val_path v' path'
          | None => None
          end
      | _ => None
      end
  end.

(** The last update of a job that succeeds *)
Definition succeeded_update (res : dict) : list (string * kwarg) :=
  [("status", Val (VStr "succeeded"));
   ("progress", Val (VFloat 1.0));
   ("completed_at", Now);
   ("result", Val (VDict res))].

(** How the statements run under the semaphore can end: with an update that
    marks the task failed, with an exception, or with the update that marks
    it succeeded, after one call of the external routine on the cleaned
    series [x]. *)
Definition ends_failed (task_id : string) (b : Prog unit) : Prop :=
  exists t updates,
    b = (t ++ [ASet task_id updates], Ok tt) /\
    Forall (tame task_id) t /\
    status_kw updates = Some (Val (VStr "failed")).

Definition ends_raised (task_id : string) (b : Prog unit) : Prop :=
  exists t e, b = (t, Raised e) /\ Forall (tame task_id) t.

Definition ends_succeeded (task_id : string) (p : params) (b : Prog unit) : Prop :=
  exists t xs res,
    let x := drop_nan xs in
    b = (t ++ [AAdfuller x (regression p) (Z.min (max_lags p) (len x / 2 - 1))
                 (lags_method p);
               ASet task_id [("progress", Val (VFloat 0.9))];
               ASet task_id (succeeded_update res)], Ok tt) /\
    Forall (quiet task_id) t /\
    val_path (VDict res) ["data_summary"; "time_series_length"] = Some (VInt (len x)).

Definition body_shape (task_id : string) (p : params) (b : Prog unit) : Prop :=
  ends_failed task_id b \/ ends_raised task_id b \/ ends_succeeded task_id p b.

(** The first update of a job *)
Definition running_update : list (string * kwarg) :=
  [("status", Val (VStr "running")); ("started_at", Now); ("progress", Val (VFloat 0.1))].

(** The three forms of the actions of a job: it fails a check and says so
    before it releases the semaphore; it raises, releases the semaphore and
    then marks the task failed; it succeeds. *)
Definition script_failed (task_id : string) (W : list action) : Prop :=
  exists t updates,
    W = AAcquire :: ASet task_id running_update :: t ++ [ASet task_id updates; ARelease] /\
    Forall (tame task_id) t /\
    status_kw updates = Some (Val (VStr "failed")).

Definition script_raised (task_id : string) (W : list action) : Prop :=
  exists t updates,
    W = AAcquire :: ASet task_id running_update :: t ++ [ARelease; ASet task_id updates] /\
    Forall (tame task_id) t /\
    status_kw updates = Some (Val (VStr "failed")).

Definition script_succeeded (task_id : string) (p : params) (W : list action) : Prop :=
  exists t xs res,
    let x := drop_nan xs in
    W = AAcquire :: ASet task_id running_update :: t ++
          [AAdfuller x (regression p) (Z.min (max_lags p) (len x / 2 - 1)) (lags_method p);
           ASet task_id [("progress", Val (VFloat 0.9))];
           ASet task_id (succeeded_update res);
           ARelease] /\
    Forall (quiet task_id) t /\
    val_path (VDict res) ["data_summary"; "time_series_length"] = Some (VInt (len x)).

Definition txt_request (path : string) : params :=
  {| csv := None; txt := Some path; timestamp_col := "Date"; value_col := "EventId";
     delimiter := " "; has_header := true; regression := "c"; max_lags := 3;
     lags_method := "aic"; analysis_type := "log_analysis" |}.

(** The last update of the job for [txt_request], with the sample collaborators *)
Definition sample_last_update : list (string * kwarg) :=
  match nth 7 (trace (_analyze_file_worker sample_env "id-1" (txt_request "a.txt"))) AAcquire with
  | ASet _ updates => updates
  | _ => []
  end.

(** ** Vocabulary for the life of a task *)

(** The changes of status that the server makes: a request creates the
    record as [queued] and may at once reject it; a background job starts
    it and then ends it. *)
Inductive transition : origin -> option val -> option val -> Prop :=
| tr_create : transition Request None (Some (VStr "queued"))
| tr_reject : transition Request (Some (VStr "queued")) (Some (VStr "failed"))
| tr_start : transition Background (Some (VStr "queued")) (Some (VStr "running"))
| tr_succeed : transition Background (Some (VStr "running")) (Some (VStr "succeeded"))
| tr_fail : transition Background (Some (VStr "running")) (Some (VStr "failed")).

(** The status writes that a thread has still to perform on a task, with
    the origin of the thread that will perform each.  What follows the
    creation of a record is looked at when the record is created: [None]
    stands for a creation, which ends the list. *)
Fixpoint action_writes (task_id : string) (o : origin) (a : action)
    : option (list (origin * kwarg)) :=
  match a with
  | ASet t updates =>
      Some (if String.eqb t task_id then
              match status_kw updates with
              | Some k => [(o, k)]
              | None => []
              end
            else [])
  | ACreate _ _ => None
  | AStart target =>
      Some ((fix go (l : list action) : list (origin * kwarg) :=
               match l with
               | [] => []
               | b :: l' =>
                   match action_writes task_id Background b with
                   | Some ws => ws ++ go l'
                   | None => []
                   end
               end) target)
  | _ => Some []
  end.

Fixpoint writes (task_id : string) (o : origin) (script : list action)
    : list (origin * kwarg) :=
  match script with
  | [] => []
  | a :: rest =>
      match action_writes task_id o a with
      | Some ws => ws ++ writes task_id o rest
      | None => []
      end
  end.

Definition is_status (st : option val) (s : string) : bool :=
  match st with
  | Some (VStr s') => String.eqb s' s
  | _ => false
  end.

Definition allowed (st : option val) (w : origin * kwarg) : bool :=
  match w with
  | (Background, Val (VStr s)) =>
      (is_status st "queued" && String.eqb s "running") ||
      (is_status st "running" && (String.eqb s "succeeded" || String.eqb s "failed"))
  | (Request, Val (VStr s)) => is_status st "queued" && String.eqb s "failed"
  | _ => false
  end.

(** Status writes that are allowed one after the other, from a status on *)
Fixpoint chain (st : option val) (ws : list (origin * kwarg)) : bool :=
  match ws with
  | [] => true
  | w :: ws' => allowed st w && chain (Some (eval_kwarg "" (snd w))) ws'
  end.

(** Scripts that create records as [queued], only in requests, write to a
    record they created in an allowed order, and leave a task to the thread
    they start for it. *)
Inductive valid : origin -> list action -> Prop :=
| valid_nil o : valid o []
| valid_create o task_id task rest :
    o = Request ->
    dict_get "status" task = Some (Val (VStr "queued")) ->
    chain (Some (VStr "queued")) (writes task_id o rest) = true ->
    (forall t, t <> task_id -> writes t o rest = []) ->
    valid o rest ->
    valid o (ACreate task_id task :: rest)
| valid_start o target rest :
    valid Background target ->
    valid o rest ->
    (forall t, writes t Background target = [] \/ writes t o rest = []) ->
    valid o (AStart target :: rest)
| valid_set o t updates rest : valid o rest -> valid o (ASet t updates :: rest)
| valid_adfuller o x r m l rest : valid o rest -> valid o (AAdfuller x r m l :: rest)
| valid_acquire o rest : valid o rest -> valid o (AAcquire :: rest)
| valid_release o rest : valid o rest -> valid o (ARelease :: rest).

(** The invariant of the server: the registry is well formed, every thread
    has a valid script whose writes continue the present status of each
    task, and no two threads have writes left for the same task. *)
Definition threads_ok (r : registry) (ts : list (origin * list action)) : Prop :=
  (forall i o script,
     ts !! i = Some (o, script) ->
     valid o script /\
     forall t, chain (status_of r t) (writes t o script) = true) /\
  (forall i j o1 s1 o2 s2 t,
     i <> j ->
     ts !! i = Some (o1, s1) ->
     ts !! j = Some (o2, s2) ->
     writes t o1 s1 = [] \/ writes t o2 s2 = []).

Definition inv (s : server) : Prop :=
  allocated (reg s) /\ separate (reg s) /\ threads_ok (reg s) (threads s).

(** A step changes no status, or the thread that moves makes one of the
    changes of status of the server. *)
Definition lawful (lb : label) (s s' : server) : Prop :=
  forall t,
    status_of (reg s') t = status_of (reg s) t \/
    exists i now o script,
      lb = LRun i now /\
      threads s !! i = Some (o, script) /\
      transition o (status_of (reg s) t) (status_of (reg s') t).

(** ** Sample runs *)

(** The state a schedule leads to from the initial one *)
Definition state_after (capacity : Z) (lbs : list label) : server :=
  default (init capacity) (run lbs (init capacity)).

(** A request with both files is created and then rejected. *)
Definition reject_prefix : list label :=
  [LCall sample_env "id-1" both_files; LRun 0 "2026-01-01T08:00:00+08:00"].

(** Two jobs on files that exist and that [read_csv] cannot parse, with one
    slot: the first job raises and releases the slot; before its handler
    has marked the task failed, the second job takes the slot and marks its
    own task running. *)
Definition race_schedule : list label :=
  let now := "2026-01-01T08:00:00+08:00" in
  [LCall sample_env "a" (csv_request "a.csv");
   LCall sample_env "b" (csv_request "b.csv");
   LRun 0 now; LRun 0 now;            (* request a: create, start thread 2 *)
   LRun 1 now; LRun 1 now;            (* request b: create, start thread 3 *)
   LRun 2 now; LRun 2 now; LRun 2 now; LRun 2 now;
                                      (* job a: acquire, running, 0.2, release *)
   LRun 3 now; LRun 3 now].           (* job b: acquire, running *)

(** ** Vocabulary for the semaphore *)

(** The slots a script gives back less the slots it takes, the threads it
    starts included. *)
Fixpoint action_net (a : action) : Z :=
  match a with
  | AAcquire => -1
  | ARelease => 1
  | AStart target =>
      (fix go (l : list action) : Z :=
         match l with
         | [] => 0
         | b :: l' => action_net b + go l'
         end) target
  | _ => 0
  end.

Fixpoint net (script : list action) : Z :=
  match script with
  | [] => 0
  | a :: rest => action_net a + net rest
  end.

(** A thread that has acquired the semaphore and not yet released it has
    one more release than acquire left. *)
Definition inside (th : origin * list action) : bool := 0 <? net (snd th).

Definition jobs_inside (s : server) : list (origin * list action) :=
  List.filter inside (threads s).

Fixpoint held (ts : list (origin * list action)) : Z :=
  match ts with
  | [] => 0
  | th :: ts' => net (snd th) + held ts'
  end.

(** Scripts that never release more than they hold: whatever is left of
    them gives back at least as many slots as it takes, and the threads
    they start are of the same kind and give back what they take. *)
Inductive slots_ok : list action -> Prop :=
| slots_nil : slots_ok []
| slots_cons a rest :
    0 <= net (a :: rest) ->
    slots_ok rest ->
    (forall target, a = AStart target -> slots_ok target /\ net target = 0) ->
    slots_ok (a :: rest).

Definition sem_inv (capacity : Z) (s : server) : Prop :=
  0 <= TASKS_SEM s /\
  TASKS_SEM s + held (threads s) = capacity /\
  Forall (fun th => slots_ok (snd th)) (threads s).

(** ** The action sequences of a job *)

Definition progress_update (f : float) : list (string * kwarg) :=
  [("progress", Val (VFloat f))].

(** The update of a job that fails a check, and the update of the handler
    of [_analyze_file_worker] for the exception [ex] *)
Definition failed_update (msg : string) : list (string * kwarg) :=
  [("status", Val (VStr "failed")); ("error", Val (VStr msg)); ("completed_at", Now)].

Definition raised_update (E : Env) (ex : exn) : list (string * kwarg) :=
  [("status", Val (VStr "failed"));
   ("completed_at", Now);
   ("error", Val (VStr (str_exn ex)));
   ("traceback", Val (VStr (format_exc E ex)))].

(** The call of the external routine that a job makes for the cleaned
    series [x], and what holds of its arguments *)
Definition job_call (p : params) (x : list float) : action :=
  AAdfuller x (regression p) (Z.min (max_lags p) (len x / 2 - 1)) (lags_method p).

Definition call_ok (p : params) (x : list float) : Prop :=
  10 <= len x /\
  drop_nan x = x /\
  dict_mem (regression p) regression_types = true /\
  dict_mem (lags_method p) lags_methods = true /\
  0 <= max_lags p.

(** What a job does after the progress mark 0.2, the release of the
    semaphore and the handler included *)
Inductive job_tail (E : Env) (task_id : string) (p : params) : list action -> Prop :=
| jt_no_timestamp_col :
    job_tail E task_id p
      [ASet task_id (failed_update ("时间戳列 '" +:+ timestamp_col p +:+ "' 不存在"));
       ARelease]
| jt_no_value_col :
    job_tail E task_id p
      [ASet task_id (failed_update ("数值列 '" +:+ value_col p +:+ "' 不存在"));
       ARelease]
| jt_load_raised ex :
    job_tail E task_id p [ARelease; ASet task_id (raised_update E ex)]
| jt_short :
    job_tail E task_id p
      [ASet task_id (progress_update 0.5);
       ASet task_id (failed_update "数据长度必须至少为10个观测值");
       ARelease]
| jt_isnan_raised ex :
    job_tail E task_id p
      [ASet task_id (progress_update 0.5);
       ARelease; ASet task_id (raised_update E ex)]
| jt_short_cleaned :
    job_tail E task_id p
      [ASet task_id (progress_update 0.5);
       ASet task_id (failed_update "有效数据长度必须至少为10个观测值");
       ARelease]
| jt_arguments_raised msg :
    job_tail E task_id p
      [ASet task_id (progress_update 0.5);
       ASet task_id (progress_update 0.7);
       ARelease; ASet task_id (raised_update E (ValueError msg))]
| jt_adfuller_raised x e :
    call_ok p x ->
    adfuller E x (regression p) (Z.min (max_lags p) (len x / 2 - 1)) (lags_method p) = inl e ->
    job_tail E task_id p
      [ASet task_id (progress_update 0.5);
       ASet task_id (progress_update 0.7);
       job_call p x;
       ARelease;
       ASet task_id (raised_update E (RuntimeError ("ADF检验执行失败: " +:+ str_exn e)))]
| jt_report_raised x r ex :
    call_ok p x ->
    adfuller E x (regression p) (Z.min (max_lags p) (len x / 2 - 1)) (lags_method p) = inr r ->
    job_tail E task_id p
      [ASet task_id (progress_update 0.5);
       ASet task_id (progress_update 0.7);
       job_call p x;
       ASet task_id (progress_update 0.9);
       ARelease; ASet task_id (raised_update E ex)]
| jt_succeeded x r res :
    call_ok p x ->
    adfuller E x (regression p) (Z.min (max_lags p) (len x / 2 - 1)) (lags_method p) = inr r ->
    val_path (VDict res) ["data_summary"; "time_series_length"] = Some (VInt (len x)) ->
    val_path (VDict res) ["adf_result"; "is_stationary"] =
      Some (VBool (pvalue r <? 0.05)%float) ->
    job_tail E task_id p
      [ASet task_id (progress_update 0.5);
       ASet task_id (progress_update 0.7);
       job_call p x;
       ASet task_id (progress_update 0.9);
       ASet task_id (succeeded_update res);
       ARelease].

(** The actions of the statements under the semaphore, then the release
    and, after an exception, the update of the handler *)
Definition finish (E : Env) (task_id : string) (b : Prog unit) : list action :=
  match result b with
  | Ok _ => trace b ++ [ARelease]
  | Raised ex => trace b ++ [ARelease; ASet task_id (raised_update E ex)]
  end.

(** ** Reading a script *)

Definition is_sem (a : action) : bool :=
  match a with
  | AAcquire | ARelease => true
  | _ => false
  end.

(** The binding an update leaves for a key *)
Definition kw_get (key : string) (updates : list (string * kwarg)) : option kwarg :=
  dict_get key (dict_update [] updates).

(** The statuses a script writes, each with the task it is written to *)
Fixpoint status_marks (script : list action) : list (string * kwarg) :=
  match script with
  | [] => []
  | ASet t updates :: rest =>
      match kw_get "status" updates with
      | Some k => (t, k) :: status_marks rest
      | None => status_marks rest
      end
  | _ :: rest => status_marks rest
  end.

(** The progress values a script writes *)
Fixpoint progress_marks (script : list action) : list float :=
  match script with
  | [] => []
  | ASet _ updates :: rest =>
      match kw_get "progress" updates with
      | Some (Val (VFloat f)) => f :: progress_marks rest
      | _ => progress_marks rest
      end
  | _ :: rest => progress_marks rest
  end.

(** The updates of a script *)
Fixpoint updates_of (script : list action) : list (string * list (string * kwarg)) :=
  match script with
  | [] => []
  | ASet t updates :: rest => (t, updates) :: updates_of rest
  | _ :: rest => updates_of rest
  end.

Definition progress_scale : list float := [0.1; 0.2; 0.5; 0.7; 0.9; 1.0]%float.

(** An update is final when it sets [completed_at]; a final update of a
    failure carries an error message and no result, a final update of a
    success carries a result and no error. *)
Definition final_failure (updates : list (string * kwarg)) : Prop :=
  kw_get "status" updates = Some (Val (VStr "failed")) /\
  kw_get "completed_at" updates = Some Now /\
  (exists msg, kw_get "error" updates = Some (Val (VStr msg))) /\
  kw_get "result" updates = None.

Definition final_success (updates : list (string * kwarg)) : Prop :=
  kw_get "status" updates = Some (Val (VStr "succeeded")) /\
  kw_get "completed_at" updates = Some Now /\
  kw_get "progress" updates = Some (Val (VFloat 1.0)) /\
  (exists res, kw_get "result" updates = Some (Val (VDict res))) /\
  kw_get "error" updates = None.

Definition not_final (updates : list (string * kwarg)) : Prop :=
  kw_get "completed_at" updates = None /\
  kw_get "error" updates = None /\
  kw_get "result" updates = None /\
  (kw_get "status" updates = None \/
   kw_get "status" updates = Some (Val (VStr "running")) /\
   kw_get "started_at" updates = Some Now).

(** ** adf_core.py: ADFTester.batch_test *)

Section CoreBatch.
Variable E : Env.

(** One round of the loop of [batch_test] *)
Definition batch_test_item (regression : string) (max_lags : Z) (lags_method : string)
    (name : string) (data : list float) (results : dict) : Prog dict :=
  try_except
    (r ← test_stationarity E data regression max_lags lags_method;
     mret (dict_set name (VDict r) results))
    (fun e =>
       mret (dict_set name
               (VDict [("error", VStr (str_exn e)); ("success", VBool false)])
               results)).

Fixpoint batch_test_loop (regression : string) (max_lags : Z) (lags_method : string)
    (items : list (string * list float)) (results : dict) : Prog dict :=
  match items with
  | [] => mret results
  | (name, data) :: items' =>
      results' ← batch_test_item regression max_lags lags_method name data results;
      batch_test_loop regression max_lags lags_method items' results'
  end.

Definition batch_test (data_dict : list (string * list float)) (regression : string)
    (max_lags : Z) (lags_method : string) : Prog dict :=
  batch_test_loop regression max_lags lags_method data_dict [].
End CoreBatch.

(** The entries that the two batch functions store for the outcome of
    [test_stationarity] on a series *)
Definition tool_entry (o : outcome dict) : dict :=
  match o with
  | Ok r => [("status", VStr "success"); ("result", VDict r)]
  | Raised e => failed (str_exn e)
  end.

Definition core_entry (o : outcome dict) : dict :=
  match o with
  | Ok r => r
  | Raised e => [("error", VStr (str_exn e)); ("success", VBool false)]
  end.

(** A request for an existing file has been accepted and its job started:
    the state in which the job is about to run *)
Definition job_started : server :=
  let now := "2026-01-01T08:00:00+08:00" in
  state_after 1 [LCall sample_env "a" (csv_request "a.csv"); LRun 0 now; LRun 0 now].

(** A CSV file with the columns Date and Level, and the collaborators of
    [sample_env] with a [read_csv] that parses it *)
Definition sample_frame : DataFrame :=
  {| columns := ["Date"; "Level"];
     resample_1min_size := fun _ => inr (NumArray twelve_points);
     column_values := fun _ => inr (NumArray twelve_points) |}.

Definition frame_env : Env :=
  {| adfuller := adfuller sample_env;
     format_6f := format_6f sample_env;
     py_str := py_str sample_env;
     py_strip := py_strip sample_env;
     os_path_exists := os_path_exists sample_env;
     read_csv := fun _ => inr sample_frame;
     open_readlines := open_readlines sample_env;
     strip_split := strip_split sample_env;
     py_float := py_float sample_env;
     np_min := np_min sample_env;
     np_max := np_max sample_env;
     np_mean := np_mean sample_env;
     np_std := np_std sample_env;
     format_exc := format_exc sample_env |}.

(** * Properties *)

(** ** Dictionaries *)

Section DictFacts.
Context {V : Type}.
Implicit Types (d u : list (string * V)) (k : string) (v : V).

Lemma dict_get_set_eq k v d : dict_get k (dict_set k v d) = Some v.
Proof.
  induction d as [|[k' v'] d IH]; simpl.
  - by rewrite String.eqb_refl.
  - destruct (String.eqb k k') eqn:Hk; simpl.
    + by rewrite String.eqb_refl.
    + by rewrite Hk.
Qed.

Lemma dict_get_set_ne k k' v d :
  k <> k' -> dict_get k (dict_set k' v d) = dict_get k d.
Proof.
  intros Hne. apply String.eqb_neq in Hne.
  induction d as [|[k0 v0] d IH]; simpl.
  - by rewrite Hne.
  - destruct (String.eqb k' k0) eqn:Hk; simpl.
    + apply String.eqb_eq in Hk. subst k0. by rewrite Hne.
    + by rewrite IH.
Qed.

Lemma dict_get_set k k' v d :
  dict_get k (dict_set k' v d) = if String.eqb k k' then Some v else dict_get k d.
Proof.
  destruct (String.eqb k k') eqn:Hk.
  - apply String.eqb_eq in Hk. subst. apply dict_get_set_eq.
  - apply String.eqb_neq in Hk. by apply dict_get_set_ne.
Qed.

Lemma dict_get_In k d : is_Some (dict_get k d) <-> In k (dict_keys d).
Proof.
  induction d as [|[k' v'] d IH]; simpl.
  - split; [intros [? ?]; discriminate | tauto].
  - destruct (String.eqb k k') eqn:Hk.
    + apply String.eqb_eq in Hk. subst. split; eauto.
    + apply String.eqb_neq in Hk. rewrite IH. naive_solver.
Qed.

Lemma dict_get_None k d : dict_get k d = None <-> ~ In k (dict_keys d).
Proof.
  by rewrite <- dict_get_In, eq_None_not_Some.
Qed.

Lemma dict_mem_In k d : dict_mem k d = true <-> In k (dict_keys d).
Proof.
  rewrite <- dict_get_In. unfold dict_mem.
  destruct (dict_get k d) as [v|]; split; intros H; eauto.
  - discriminate.
  - by destruct H.
Qed.

(** A new key goes last. *)
Lemma dict_set_new k v d : ~ In k (dict_keys d) -> dict_set k v d = d ++ [(k, v)].
Proof.
  induction d as [|[k' v'] d IH]; simpl; [done|].
  intros Hn. destruct (String.eqb k k') eqn:Hk.
  - apply String.eqb_eq in Hk. naive_solver.
  - rewrite IH; [done | naive_solver].
Qed.

Lemma dict_keys_set_In k k' v d :
  In k (dict_keys (dict_set k' v d)) <-> k = k' \/ In k (dict_keys d).
Proof.
  rewrite <- !dict_get_In, dict_get_set.
  destruct (String.eqb k k') eqn:Hk.
  - apply String.eqb_eq in Hk. naive_solver.
  - apply String.eqb_neq in Hk. naive_solver.
Qed.

Lemma dict_keys_set_NoDup k v d :
  List.NoDup (dict_keys d) -> List.NoDup (dict_keys (dict_set k v d)).
Proof.
  induction d as [|[k' v'] d IH]; simpl.
  - intros _. constructor; [simpl; tauto | constructor].
  - intros Hnd. inversion Hnd as [|? ? Hni Hnd']; subst.
    destruct (String.eqb k k') eqn:Hk; simpl.
    + apply String.eqb_eq in Hk. subst. by constructor.
    + apply String.eqb_neq in Hk. constructor; [|by apply IH].
      change (~ In k' (dict_keys (dict_set k v d))).
      rewrite dict_keys_set_In. intros [?|?]; [congruence | done].
Qed.

Lemma dict_get_Some_In k v d : dict_get k d = Some v -> In (k, v) d.
Proof.
  induction d as [|[k' v'] d IH]; simpl; [done|].
  destruct (String.eqb k k') eqn:Hk.
  - apply String.eqb_eq in Hk. intros [= ->]. left. by subst.
  - intros H. right. by apply IH.
Qed.

Lemma dict_set_In k v k' v' d :
  In (k, v) (dict_set k' v' d) -> (k, v) = (k', v') \/ In (k, v) d.
Proof.
  induction d as [|[k0 v0] d IH]; simpl.
  - intros [?|[]]. by left.
  - destruct (String.eqb k' k0); simpl; naive_solver.
Qed.

(** The bindings an update leaves are those of the update, then the old ones. *)
Lemma dict_get_update k d u :
  dict_get k (dict_update d u) =
  match dict_get k (dict_update [] u) with
  | Some v => Some v
  | None => dict_get k d
  end.
Proof.
  unfold dict_update. revert d.
  induction u as [|[k' v'] u IH]; intros d; simpl; [done|].
  rewrite (IH (dict_set k' v' d)), (IH [(k', v')]).
  destruct (dict_get k (fold_left _ u [])); [done|].
  rewrite dict_get_set. simpl. by destruct (String.eqb k k').
Qed.
End DictFacts.

(** ** Computations *)

Lemma bind_ok {A B} (m : Prog A) (f : A -> Prog B) t a :
  m = (t, Ok a) -> m ≫= f = (t ++ trace (f a), result (f a)).
Proof. intros ->. reflexivity. Qed.

Lemma bind_raised {A B} (m : Prog A) (f : A -> Prog B) t e :
  m = (t, Raised e) -> m ≫= f = (t, Raised e).
Proof. intros ->. reflexivity. Qed.

Lemma result_bind_inv {A B} (m : Prog A) (f : A -> Prog B) b :
  result (m ≫= f) = Ok b -> exists a, result m = Ok a /\ result (f a) = Ok b.
Proof. destruct m as [t [a|e]]; simpl; [eauto | discriminate]. Qed.

(** A handler that returns makes the try statement return. *)
Lemma try_except_returns {A} (body : Prog A) (h : exn -> A) (P : A -> Prop) :
  (forall a, result body = Ok a -> P a) ->
  (forall e, P (h e)) ->
  exists a, result (try_except body (fun e => mret (h e))) = Ok a /\ P a.
Proof.
  intros Hb Hh. destruct body as [t [a|e]]; simpl; eauto.
Qed.

(** ** The stationarity test *)

Lemma drop_nan_idem data : drop_nan (drop_nan data) = drop_nan data.
Proof.
  unfold drop_nan. induction data as [|x data IH]; simpl; [done|].
  destruct (negb (is_nan x)) eqn:Hx; simpl; [|exact IH].
  by rewrite Hx, IH.
Qed.

Lemma drop_nan_length data : (length (drop_nan data) <= length data)%nat.
Proof. apply List.filter_length_le. Qed.

(** Too short a series after cleaning stops the test before the routine. *)
Lemma test_stationarity_short E data regression max_lags lags_method :
  len (drop_nan data) < 10 ->
  test_stationarity E data regression max_lags lags_method =
  ([], Raised (ValueError "数据长度必须至少为10个观测值")).
Proof.
  intros H. unfold test_stationarity.
  by destruct (Z.ltb_spec (len (drop_nan data)) 10); [|lia].
Qed.

(** Without a call of the routine the test raises. *)
Lemma test_stationarity_silent E data regression max_lags lags_method :
  (len (drop_nan data) <? 10) || negb (dict_mem regression regression_types) ||
  negb (dict_mem lags_method lags_methods) || (max_lags <? 0) = true ->
  exists msg,
    test_stationarity E data regression max_lags lags_method =
    ([], Raised (ValueError msg)).
Proof.
  unfold test_stationarity.
  destruct (len (drop_nan data) <? 10); [eauto|].
  destruct (dict_mem regression regression_types); cbn [negb orb]; [|eauto].
  destruct (dict_mem lags_method lags_methods); cbn [negb orb]; [|eauto].
  destruct (max_lags <? 0); [eauto | done].
Qed.

(** With valid arguments the routine is called once, with the clamped lag. *)
Lemma test_stationarity_valid E data regression max_lags lags_method :
  (len (drop_nan data) <? 10) || negb (dict_mem regression regression_types) ||
  negb (dict_mem lags_method lags_methods) || (max_lags <? 0) = false ->
  let x := drop_nan data in
  let maxlag := Z.min max_lags (len x / 2 - 1) in
  exists rd ld,
    dict_get regression regression_types = Some rd /\
    dict_get lags_method lags_methods = Some ld /\
    test_stationarity E data regression max_lags lags_method =
    ([AAdfuller x regression maxlag lags_method],
     match adfuller E x regression maxlag lags_method with
     | inl e => Raised (RuntimeError ("ADF检验执行失败: " +:+ str_exn e))
     | inr r => Ok (result_dict r regression rd lags_method ld (len x) maxlag)
     end).
Proof.
  unfold test_stationarity, dict_mem.
  destruct (len (drop_nan data) <? 10); [done|].
  destruct (dict_get regression regression_types) as [rd|] eqn:Hrd;
    cbn [negb orb]; [|done].
  destruct (dict_get lags_method lags_methods) as [ld|] eqn:Hld;
    cbn [negb orb]; [|done].
  destruct (max_lags <? 0); [done|]. intros _.
  exists rd, ld. split; [done|]. split; [done|].
  unfold call_adfuller, getitem. rewrite Hrd, Hld.
  by destruct (adfuller E _ _ _ _) as [e|r].
Qed.

(** The test calls nothing but the routine, at most once. *)
Lemma test_stationarity_trace E data regression max_lags lags_method :
  trace (test_stationarity E data regression max_lags lags_method) = [] \/
  trace (test_stationarity E data regression max_lags lags_method) =
  [AAdfuller (drop_nan data) regression
     (Z.min max_lags (len (drop_nan data) / 2 - 1)) lags_method].
Proof.
  destruct ((len (drop_nan data) <? 10) || negb (dict_mem regression regression_types) ||
            negb (dict_mem lags_method lags_methods) || (max_lags <? 0)) eqn:Hc.
  - destruct (test_stationarity_silent E _ _ _ _ Hc) as [msg ->]. by left.
  - destruct (test_stationarity_valid E _ _ _ _ Hc) as (rd & ld & _ & _ & ->). by right.
Qed.

(** *** C3 *)

(** C3. For every series shorter than 10, before or after its NaN entries
    are removed, [adf_test] returns a dictionary with status [failed] and an
    error message, and performs no action at all: the external routine
    [adfuller] is not called. *)
Theorem adf_test_short_series E data regression max_lags lags_method :
  len data < 10 \/ len (drop_nan data) < 10 ->
  exists msg,
    result (adf_test E data regression max_lags lags_method) =
      Ok [("status", VStr "failed"); ("error", VStr msg)] /\
    adfuller_calls (trace (adf_test E data regression max_lags lags_method)) = [] /\
    trace (adf_test E data regression max_lags lags_method) = [].
Proof.
  intros H.
  assert (Hs : len (drop_nan data) < 10).
  { destruct H as [H|H]; [|done]. pose proof (drop_nan_length data). unfold len in *. lia. }
  unfold adf_test.
  destruct (is_empty data || (len data <? 10)); [by eexists|].
  destruct (negb (str_in regression ["n"; "c"; "ct"])); [by eexists|].
  destruct (negb (str_in lags_method ["aic"; "bic"; "t-stat"])); [by eexists|].
  rewrite test_stationarity_short by done. by eexists.
Qed.

Lemma adf_test_short_series_witness :
  exists msg,
    result (adf_test sample_env (PrimFloat.nan :: nine_points) "c" 10 "aic") =
      Ok [("status", VStr "failed"); ("error", VStr msg)] /\
    adfuller_calls (trace (adf_test sample_env (PrimFloat.nan :: nine_points) "c" 10 "aic")) = [] /\
    trace (adf_test sample_env (PrimFloat.nan :: nine_points) "c" 10 "aic") = [].
Proof.
  apply (adf_test_short_series sample_env (PrimFloat.nan :: nine_points) "c" 10 "aic").
  right. vm_compute. reflexivity.
Defined.

(** *** C6 *)

(** C6. For every valid invocation of [test_stationarity] (a cleaned series
    of length n, at least 10, a known regression type and lag method, a
    non-negative [max_lags]) the external routine is called exactly once, on
    the cleaned series, and the maximum lag it receives is
    min(max_lags, n // 2 - 1). *)
Theorem test_stationarity_clamps_max_lags E data regression max_lags lags_method :
  10 <= len (drop_nan data) ->
  dict_mem regression regression_types = true ->
  dict_mem lags_method lags_methods = true ->
  0 <= max_lags ->
  adfuller_calls (trace (test_stationarity E data regression max_lags lags_method)) =
  [AAdfuller (drop_nan data) regression
     (Z.min max_lags (len (drop_nan data) / 2 - 1)) lags_method].
Proof.
  intros Hn Hr Hl Hm.
  destruct (test_stationarity_valid E data regression max_lags lags_method)
    as (rd & ld & _ & _ & ->); [|done].
  rewrite Hr, Hl. cbn [negb orb].
  destruct (Z.ltb_spec (len (drop_nan data)) 10); [lia|].
  destruct (Z.ltb_spec max_lags 0); [lia | done].
Qed.

Lemma test_stationarity_clamps_max_lags_witness :
  adfuller_calls (trace (test_stationarity sample_env twelve_points "c" 10 "aic")) =
  [AAdfuller (drop_nan twelve_points) "c"
     (Z.min 10 (len (drop_nan twelve_points) / 2 - 1)) "aic"].
Proof.
  apply (test_stationarity_clamps_max_lags sample_env twelve_points "c" 10 "aic").
  - vm_compute. discriminate.
  - reflexivity.
  - reflexivity.
  - lia.
Defined.

(** ** The synchronous tools *)

Lemma tagged_failed payload msg : tagged payload (failed msg).
Proof. right. split; [done | by exists msg]. Qed.

Lemma batch_item_result E regression max_lags lags_method name data results :
  result (batch_item E regression max_lags lags_method name data results) =
  Ok (dict_set name (VDict (item_outcome E regression max_lags lags_method data)) results).
Proof.
  unfold batch_item, item_outcome.
  destruct (len data <? 10); [done|].
  by destruct (test_stationarity E data regression max_lags lags_method) as [t [r|e]].
Qed.

(** The loop stores one entry per series, whatever the other series did. *)
Lemma batch_loop_result E regression max_lags lags_method items results :
  result (batch_loop E regression max_lags lags_method items results) =
  Ok (fold_left
        (fun acc nd =>
           dict_set (fst nd)
             (VDict (item_outcome E regression max_lags lags_method (snd nd))) acc)
        items results).
Proof.
  revert results. induction items as [|[name data] items IH]; intros results; [done|].
  simpl.
  pose proof (batch_item_result E regression max_lags lags_method name data results) as Hi.
  destruct (batch_item E regression max_lags lags_method name data results) as [t [r|e]];
    simpl in Hi; [|discriminate].
  injection Hi as ->. simpl. apply IH.
Qed.

Lemma adf_batch_test_result E data_dict regression max_lags lags_method :
  data_dict <> [] ->
  result (adf_batch_test E data_dict regression max_lags lags_method) =
  Ok [("status", VStr "success");
      ("results",
        VDict (fold_left
                 (fun acc nd =>
                    dict_set (fst nd)
                      (VDict (item_outcome E regression max_lags lags_method (snd nd))) acc)
                 data_dict []))].
Proof.
  intros Hne. unfold adf_batch_test.
  destruct data_dict as [|nd data_dict]; [done|]. cbn [is_empty].
  pose proof (batch_loop_result E regression max_lags lags_method (nd :: data_dict) []) as Hl.
  destruct (batch_loop E regression max_lags lags_method (nd :: data_dict) []) as [t [r|e]];
    simpl in Hl; [|discriminate].
  by injection Hl as ->.
Qed.

Section FoldSet.
Context {A : Type} (g : A -> val).

#[local] Abbreviation store := (fun (acc : dict) (nd : string * A) => dict_set (fst nd) (g (snd nd)) acc).

Lemma fold_set_keys_In items acc name :
  In name (dict_keys (fold_left store items acc)) <->
  In name (dict_keys acc) \/ In name (dict_keys items).
Proof.
  revert acc. induction items as [|[n a] items IH]; intros acc; simpl; [tauto|].
  rewrite IH. rewrite dict_keys_set_In. naive_solver.
Qed.

Lemma fold_set_keys_NoDup items acc :
  List.NoDup (dict_keys acc) -> List.NoDup (dict_keys (fold_left store items acc)).
Proof.
  revert acc. induction items as [|[n a] items IH]; intros acc Hnd; simpl; [done|].
  apply IH. by apply dict_keys_set_NoDup.
Qed.

Lemma fold_set_fresh items acc :
  List.NoDup (dict_keys items) ->
  (forall k, In k (dict_keys items) -> ~ In k (dict_keys acc)) ->
  fold_left store items acc = acc ++ map (fun nd => (fst nd, g (snd nd))) items.
Proof.
  revert acc. induction items as [|[n a] items IH]; intros acc Hnd Hfr; simpl.
  - by rewrite app_nil_r.
  - inversion Hnd as [|? ? Hni Hnd']; subst.
    rewrite dict_set_new by (apply Hfr; simpl; by left).
    rewrite IH; [by rewrite <- app_assoc | done |].
    intros k Hk. unfold dict_keys. rewrite map_app, in_app_iff. simpl.
    intros [Hin|[->|[]]]; [|done]. apply (Hfr k); [simpl; by right | done].
Qed.

Lemma dict_get_map_NoDup (items : list (string * A)) name a :
  List.NoDup (dict_keys items) -> In (name, a) items ->
  dict_get name (map (fun nd => (fst nd, g (snd nd))) items) = Some (g a).
Proof.
  induction items as [|[n a'] items IH]; simpl; [done|].
  intros Hnd Hin. inversion Hnd as [|? ? Hni Hnd']; subst.
  destruct Hin as [Heq|Hin].
  - injection Heq as -> ->. by rewrite String.eqb_refl.
  - destruct (String.eqb name n) eqn:Hn; [|by apply IH].
    apply String.eqb_eq in Hn. subst n. destruct Hni.
    change (In name (map fst items)). apply in_map_iff. by exists (name, a).
Qed.
End FoldSet.

(** *** C9 *)

(** C9. [adf_test], [adf_batch_test] and [adf_interpret] are total: for every
    input (negative [max_lags], unknown regression or lag method, NaN in the
    data, critical values without the expected keys) and whatever the
    collaborators do, the call returns a dictionary with status [success] and
    a payload, or status [failed] and an error message; it raises nothing. *)
Theorem synchronous_tools_total E :
  (forall data regression max_lags lags_method,
     exists d, result (adf_test E data regression max_lags lags_method) = Ok d /\
               tagged "result" d) /\
  (forall data_dict regression max_lags lags_method,
     exists d, result (adf_batch_test E data_dict regression max_lags lags_method) = Ok d /\
               tagged "results" d) /\
  (forall statistic p_value critical_values regression,
     exists d, result (adf_interpret E statistic p_value critical_values regression) = Ok d /\
               tagged "interpretation" d).
Proof.
  split; [|split].
  - intros data regression max_lags lags_method. unfold adf_test.
    apply (try_except_returns _ (fun e => failed (str_exn e))); [|intros; apply tagged_failed].
    intros d.
    destruct (is_empty data || (len data <? 10));
      [intros [= <-]; apply tagged_failed|].
    destruct (negb (str_in regression ["n"; "c"; "ct"]));
      [intros [= <-]; apply tagged_failed|].
    destruct (negb (str_in lags_method ["aic"; "bic"; "t-stat"]));
      [intros [= <-]; apply tagged_failed|].
    intros (r & _ & [= <-])%result_bind_inv. left. split; [done | by eexists].
  - intros data_dict regression max_lags lags_method. unfold adf_batch_test.
    apply (try_except_returns _ (fun e => failed (str_exn e))); [|intros; apply tagged_failed].
    intros d. destruct (is_empty data_dict); [intros [= <-]; apply tagged_failed|].
    intros (r & _ & [= <-])%result_bind_inv. left. split; [done | by eexists].
  - intros statistic p_value critical_values regression. unfold adf_interpret.
    apply (try_except_returns _ (fun e => failed (str_exn e))); [|intros; apply tagged_failed].
    intros d (r & _ & [= <-])%result_bind_inv. left. split; [done | by eexists].
Qed.

(** [adf_interpret] hands [get_interpretation] a dictionary without the key
    [is_stationary], which that function reads: the answer is always the
    failure that reports the missing key. *)
Lemma adf_interpret_always_fails E statistic p_value critical_values regression :
  adf_interpret E statistic p_value critical_values regression =
  ([], Ok (failed "'is_stationary'")).
Proof. reflexivity. Qed.

(** *** C10 *)

(** C10. For every non-empty input mapping, [adf_batch_test] returns status
    [success] with a results map that has exactly one entry for each name of
    the input and no other entry; for an input without repeated names the
    names even come in the same order. *)
Theorem adf_batch_test_entries E data_dict regression max_lags lags_method :
  data_dict <> [] ->
  exists results,
    result (adf_batch_test E data_dict regression max_lags lags_method) =
      Ok [("status", VStr "success"); ("results", VDict results)] /\
    List.NoDup (dict_keys results) /\
    (forall name, In name (dict_keys results) <-> In name (dict_keys data_dict)) /\
    (List.NoDup (dict_keys data_dict) -> dict_keys results = dict_keys data_dict).
Proof.
  intros Hne. eexists. split; [by apply adf_batch_test_result|].
  split; [|split].
  - apply (fold_set_keys_NoDup
             (fun d => VDict (item_outcome E regression max_lags lags_method d))).
    constructor.
  - intros name.
    rewrite (fold_set_keys_In
               (fun d => VDict (item_outcome E regression max_lags lags_method d))).
    simpl. tauto.
  - intros Hnd.
    rewrite (fold_set_fresh
               (fun d => VDict (item_outcome E regression max_lags lags_method d)))
      by (done || (intros k _ [])).
    simpl. unfold dict_keys. rewrite map_map. by apply map_ext.
Qed.

Lemma adf_batch_test_entries_witness :
  exists results,
    result (adf_batch_test sample_env [("a", nine_points); ("b", twelve_points)] "c" 10 "aic") =
      Ok [("status", VStr "success"); ("results", VDict results)] /\
    List.NoDup (dict_keys results) /\
    (forall name, In name (dict_keys results) <->
                  In name (dict_keys [("a", nine_points); ("b", twelve_points)])) /\
    (List.NoDup (dict_keys [("a", nine_points); ("b", twelve_points)]) ->
     dict_keys results = dict_keys [("a", nine_points); ("b", twelve_points)]).
Proof.
  apply (adf_batch_test_entries sample_env
           [("a", nine_points); ("b", twelve_points)] "c" 10 "aic").
  discriminate.
Defined.

(** *** C8 *)

(** Whether the entry of a series of 12 valid points is a success is up to
    the external routine.  With the default arguments the lag handed over is
    min(10, 12 // 2 - 1) = 5, which the lag check of statsmodels rejects for
    the regression type c; the entry of b is then a failure as well. *)
Lemma batch_second_series_fails :
  result (adf_batch_test sample_env [("a", nine_points); ("b", twelve_points)] "c" 10 "aic") =
  Ok [("status", VStr "success");
      ("results",
        VDict [("a", VDict (failed "数据长度必须至少为10个观测值"));
               ("b", VDict (failed "ADF检验执行失败: maxlag must be less than (nobs/2 - 1 - ntrend) where n trend is the number of included deterministic regressors"))])].
Proof. vm_compute. reflexivity. Qed.

(** C8, amended.  For every input mapping, every choice of the test
    arguments and every behaviour of the external routine, the entry of a
    series in the response of [adf_batch_test] is the one the call yields
    for that series alone: each series has its entry, and a failure of one
    series does not touch another.  On the input a: 9 points, b: 12 valid
    points, with valid test arguments, the results map holds a failed entry
    for a (too short) and, provided the external routine returns a result
    for the series b, a success entry for b. *)
Theorem adf_batch_test_partial_failure E regression max_lags lags_method :
  (forall data_dict name data,
     List.NoDup (dict_keys data_dict) ->
     In (name, data) data_dict ->
     batch_entry name (result (adf_batch_test E data_dict regression max_lags lags_method)) =
       Some (VDict (item_outcome E regression max_lags lags_method data)) /\
     batch_entry name (result (adf_batch_test E data_dict regression max_lags lags_method)) =
     batch_entry name
       (result (adf_batch_test E [(name, data)] regression max_lags lags_method))) /\
  (forall a b r,
     length a = 9%nat ->
     length b = 12%nat ->
     drop_nan b = b ->
     dict_mem regression regression_types = true ->
     dict_mem lags_method lags_methods = true ->
     0 <= max_lags ->
     adfuller E b regression (Z.min max_lags 5) lags_method = inr r ->
     exists res,
       result (adf_batch_test E [("a", a); ("b", b)] regression max_lags lags_method) =
       Ok [("status", VStr "success");
           ("results",
             VDict [("a", VDict (failed "数据长度必须至少为10个观测值"));
                    ("b", VDict [("status", VStr "success"); ("result", VDict res)])])]).
Proof.
  split.
  - intros data_dict name data Hnd Hin.
    assert (Hentry :
      batch_entry name (result (adf_batch_test E data_dict regression max_lags lags_method)) =
      Some (VDict (item_outcome E regression max_lags lags_method data))).
    { rewrite adf_batch_test_result by (by destruct data_dict).
      unfold batch_entry. cbn [dict_get String.eqb Ascii.eqb Bool.eqb].
      rewrite (fold_set_fresh
                 (fun d => VDict (item_outcome E regression max_lags lags_method d)))
        by (done || (intros k _ [])).
      rewrite app_nil_l.
      by rewrite (dict_get_map_NoDup
                    (fun d => VDict (item_outcome E regression max_lags lags_method d))
                    data_dict name data). }
    split; [exact Hentry|]. rewrite Hentry.
    rewrite adf_batch_test_result by done.
    unfold batch_entry. cbn [dict_get String.eqb Ascii.eqb Bool.eqb fold_left fst snd].
    by rewrite dict_get_set_eq.
  - intros a b r Ha Hb Hclean Hr Hl Hm Hadf.
    rewrite adf_batch_test_result by done. cbn [fold_left fst snd].
    assert (Hla : len a = 9) by (unfold len; by rewrite Ha).
    assert (Hlb : len b = 12) by (unfold len; by rewrite Hb).
    assert (Hia : item_outcome E regression max_lags lags_method a =
                  failed "数据长度必须至少为10个观测值").
    { unfold item_outcome. by rewrite Hla. }
    destruct (test_stationarity_valid E b regression max_lags lags_method)
      as (rd & ld & _ & _ & Hts).
    { rewrite Hr, Hl, Hclean, Hlb. cbn [negb orb].
      destruct (Z.ltb_spec max_lags 0); [lia | done]. }
    cbn zeta in Hts. rewrite Hclean, Hlb in Hts.
    change (12 / 2 - 1) with 5 in Hts. rewrite Hadf in Hts.
    assert (Hib : item_outcome E regression max_lags lags_method b =
                  [("status", VStr "success");
                   ("result", VDict (result_dict r regression rd lags_method ld 12
                                       (Z.min max_lags 5)))]).
    { unfold item_outcome. by rewrite Hlb, Hts. }
    rewrite Hia, Hib. eexists. reflexivity.
Qed.

Lemma adf_batch_test_partial_failure_witness :
  (batch_entry "b"
     (result (adf_batch_test sample_env [("a", nine_points); ("b", twelve_points)]
                "zz" 3 "aic")) =
     Some (VDict (item_outcome sample_env "zz" 3 "aic" twelve_points)) /\
   batch_entry "b"
     (result (adf_batch_test sample_env [("a", nine_points); ("b", twelve_points)]
                "zz" 3 "aic")) =
   batch_entry "b" (result (adf_batch_test sample_env [("b", twelve_points)] "zz" 3 "aic"))) /\
  (exists res,
     result (adf_batch_test sample_env [("a", nine_points); ("b", twelve_points)] "c" 3 "aic") =
     Ok [("status", VStr "success");
         ("results",
           VDict [("a", VDict (failed "数据长度必须至少为10个观测值"));
                  ("b", VDict [("status", VStr "success"); ("result", VDict res)])])]).
Proof.
  split.
  - apply (proj1 (adf_batch_test_partial_failure sample_env "zz" 3 "aic")
             [("a", nine_points); ("b", twelve_points)] "b" twelve_points).
    + repeat constructor; simpl; intuition discriminate.
    + simpl. right. left. reflexivity.
  - apply (proj2 (adf_batch_test_partial_failure sample_env "c" 3 "aic")
             nine_points twelve_points sample_tuple).
    + reflexivity.
    + reflexivity.
    + vm_compute. reflexivity.
    + reflexivity.
    + reflexivity.
    + lia.
    + vm_compute. reflexivity.
Defined.

(** ** The task registry *)

Lemma alloc_fresh d r : heap r !! fst (alloc d r) = None.
Proof.
  unfold alloc. simpl. apply not_elem_of_dom. apply is_fresh.
Qed.

Lemma alloc_TASKS d r : TASKS (snd (alloc d r)) = TASKS r.
Proof. reflexivity. Qed.

Lemma alloc_heap d r : heap (snd (alloc d r)) = <[fst (alloc d r) := d]> (heap r).
Proof. reflexivity. Qed.

Lemma alloc_lookup_new d r : heap (snd (alloc d r)) !! fst (alloc d r) = Some d.
Proof. rewrite alloc_heap. apply lookup_insert_eq. Qed.

Lemma alloc_lookup_old d r l :
  is_Some (heap r !! l) -> heap (snd (alloc d r)) !! l = heap r !! l.
Proof.
  intros Hl. rewrite alloc_heap. apply lookup_insert_ne.
  intros <-. rewrite alloc_fresh in Hl. by destruct Hl.
Qed.

Lemma alloc_allocated d r : allocated r -> allocated (snd (alloc d r)).
Proof.
  intros Ha tid l Hl. rewrite alloc_TASKS in Hl.
  rewrite alloc_lookup_old; eauto.
Qed.

Lemma alloc_foreign_new d r : allocated r -> foreign (snd (alloc d r)) (fst (alloc d r)).
Proof.
  intros Ha. split; [rewrite alloc_lookup_new; eauto|].
  intros tid l Hl ->. rewrite alloc_TASKS in Hl. apply dict_get_Some_In, Ha in Hl.
  rewrite alloc_fresh in Hl. by destruct Hl.
Qed.

Lemma alloc_foreign_old d r c : foreign r c -> foreign (snd (alloc d r)) c.
Proof.
  intros [Hc Hne]. split; [by rewrite alloc_lookup_old | done].
Qed.

Lemma create_TASKS task_id task r :
  TASKS (_create_task_locked task_id task r) =
  dict_set task_id (fst (alloc task r)) (TASKS r).
Proof. reflexivity. Qed.

Lemma create_heap task_id task r :
  heap (_create_task_locked task_id task r) = <[fst (alloc task r) := task]> (heap r).
Proof. reflexivity. Qed.

Lemma create_frame task_id task r c :
  is_Some (heap r !! c) -> heap (_create_task_locked task_id task r) !! c = heap r !! c.
Proof. intros Hc. by apply (alloc_lookup_old task r c). Qed.

Lemma create_allocated task_id task r :
  allocated r -> allocated (_create_task_locked task_id task r).
Proof.
  intros Ha tid l. rewrite create_TASKS. intros [[= -> ->]|Hl]%dict_set_In.
  - rewrite create_heap, lookup_insert_eq. eauto.
  - rewrite create_frame; eauto.
Qed.

Lemma create_foreign task_id task r c :
  foreign r c -> foreign (_create_task_locked task_id task r) c.
Proof.
  intros [Hc Hne]. split; [by rewrite create_frame|].
  intros tid l. rewrite create_TASKS, dict_get_set.
  destruct (String.eqb tid task_id); [|by apply Hne].
  intros [= <-] Heq. destruct Hc as [x Hx].
  pose proof (alloc_fresh task r) as Hfr. simpl in *. congruence.
Qed.

Lemma set_TASKS task_id updates r : TASKS (_set_task_locked task_id updates r) = TASKS r.
Proof.
  unfold _set_task_locked. destruct (dict_get task_id (TASKS r)) as [l|]; [|done].
  by destruct (heap r !! l).
Qed.

(** An update writes to the record of its task and to nothing else. *)
Lemma set_frame task_id updates r c :
  dict_get task_id (TASKS r) <> Some c ->
  heap (_set_task_locked task_id updates r) !! c = heap r !! c.
Proof.
  intros Hne. unfold _set_task_locked.
  destruct (dict_get task_id (TASKS r)) as [l|]; [|done].
  destruct (heap r !! l) eqn:Hl; [|done]. simpl.
  apply lookup_insert_ne. congruence.
Qed.

Lemma set_lookup task_id updates r l d :
  dict_get task_id (TASKS r) = Some l -> heap r !! l = Some d ->
  heap (_set_task_locked task_id updates r) !! l = Some (dict_update d updates).
Proof.
  intros Ht Hl. unfold _set_task_locked. rewrite Ht, Hl. simpl. apply lookup_insert_eq.
Qed.

Lemma set_is_Some task_id updates r c :
  is_Some (heap r !! c) -> is_Some (heap (_set_task_locked task_id updates r) !! c).
Proof.
  intros Hc. unfold _set_task_locked.
  destruct (dict_get task_id (TASKS r)) as [l|]; [|done].
  destruct (heap r !! l) eqn:Hl; [|done]. simpl.
  rewrite lookup_insert. case_decide; eauto.
Qed.

Lemma set_allocated task_id updates r :
  allocated r -> allocated (_set_task_locked task_id updates r).
Proof.
  intros Ha tid l. rewrite set_TASKS. intros Hl. apply set_is_Some. eauto.
Qed.

Lemma set_foreign task_id updates r c :
  foreign r c -> foreign (_set_task_locked task_id updates r) c.
Proof.
  intros [Hc Hne]. split; [by apply set_is_Some|].
  intros tid l. rewrite set_TASKS. apply Hne.
Qed.

Lemma copy_each_spec ls r :
  allocated r ->
  TASKS (snd (copy_each ls r)) = TASKS r /\
  allocated (snd (copy_each ls r)) /\
  (forall c, is_Some (heap r !! c) -> heap (snd (copy_each ls r)) !! c = heap r !! c) /\
  Forall (foreign (snd (copy_each ls r))) (fst (copy_each ls r)).
Proof.
  revert r. induction ls as [|l ls IH]; intros r Ha.
  - simpl. repeat split; (done || constructor).
  - cbn [copy_each].
    pose proof (alloc_allocated (default [] (heap r !! l)) r Ha) as Ha1.
    pose proof (alloc_foreign_new (default [] (heap r !! l)) r Ha) as Hf1.
    pose proof (alloc_lookup_old (default [] (heap r !! l)) r) as Ho1.
    pose proof (alloc_TASKS (default [] (heap r !! l)) r) as Ht1.
    destruct (alloc (default [] (heap r !! l)) r) as [c r1] eqn:Hal.
    cbn [fst snd] in Ha1, Hf1, Ho1, Ht1.
    destruct (IH r1 Ha1) as (Ht & Ha2 & Hfr & Hfo).
    destruct (copy_each ls r1) as [cs r2]. cbn [fst snd] in *.
    split; [congruence|]. split; [done|]. split.
    + intros c' Hc'. rewrite Hfr; rewrite Ho1; eauto.
    + constructor; [|done]. destruct Hf1 as [Hs Hne]. split.
      * rewrite Hfr; eauto.
      * intros tid l'. rewrite Ht. apply Hne.
Qed.

(** Each copy holds the bindings its record had when the list was made. *)
Lemma copy_each_copies (h0 : gmap loc dict) ls r :
  allocated r ->
  Forall (fun l => is_Some (h0 !! l)) ls ->
  (forall l, is_Some (h0 !! l) -> heap r !! l = h0 !! l) ->
  Forall2 (fun c l => heap (snd (copy_each ls r)) !! c = h0 !! l)
    (fst (copy_each ls r)) ls.
Proof.
  revert r. induction ls as [|l ls IH]; intros r Ha Hls Hh0; [constructor|].
  inversion Hls as [|? ? Hl Hls']; subst. cbn [copy_each].
  pose proof (alloc_allocated (default [] (heap r !! l)) r Ha) as Ha1.
  pose proof (alloc_lookup_new (default [] (heap r !! l)) r) as Hn1.
  pose proof (alloc_lookup_old (default [] (heap r !! l)) r) as Ho1.
  destruct (alloc (default [] (heap r !! l)) r) as [c r1] eqn:Hal.
  cbn [fst snd] in Ha1, Hn1, Ho1.
  assert (Hh1 : forall l, is_Some (h0 !! l) -> heap r1 !! l = h0 !! l).
  { intros l' Hl'. rewrite Ho1; rewrite Hh0; done. }
  specialize (IH r1 Ha1 Hls' Hh1).
  destruct (copy_each_spec ls r1 Ha1) as (_ & _ & Hfr & _).
  destruct (copy_each ls r1) as [cs r2]. cbn [fst snd] in *.
  constructor; [|done].
  rewrite Hfr by (rewrite Hn1; eauto). rewrite Hn1. pose proof (Hh0 l Hl) as Hrl.
  destruct Hl as [d Hd]. rewrite Hd in Hrl. by rewrite Hrl, Hd.
Qed.

Lemma get_foreign task_id r :
  allocated r -> foreign (snd (_get_task task_id r)) (fst (_get_task task_id r)).
Proof. intros Ha. by apply alloc_foreign_new. Qed.

Lemma list_foreign r :
  allocated r -> Forall (foreign (snd (_list_tasks r))) (fst (_list_tasks r)).
Proof. intros Ha. by apply copy_each_spec. Qed.

(** No operation of the registry touches an object that is not one of its
    records. *)
Lemma apply_op_foreign r op c :
  allocated r -> foreign r c ->
  allocated (apply_op r op) /\ foreign (apply_op r op) c /\
  heap (apply_op r op) !! c = heap r !! c.
Proof.
  intros Ha Hf. destruct op as [tid task|tid updates|tid|]; cbn [apply_op].
  - split; [by apply create_allocated|]. split; [by apply create_foreign|].
    apply create_frame, Hf.
  - split; [by apply set_allocated|]. split; [by apply set_foreign|].
    apply set_frame. intros Hc. by apply (proj2 Hf tid c).
  - split; [by apply alloc_allocated|]. split; [by apply alloc_foreign_old|].
    apply alloc_lookup_old, Hf.
  - destruct (copy_each_spec (map snd (TASKS r)) r Ha) as (Ht & Ha' & Hfr & _).
    split; [done|]. split; [|apply Hfr, Hf].
    split; [rewrite Hfr; apply Hf|]. unfold _list_tasks. rewrite Ht. apply Hf.
Qed.

Lemma apply_ops_foreign ops r c :
  allocated r -> foreign r c ->
  allocated (apply_ops ops r) /\ heap (apply_ops ops r) !! c = heap r !! c.
Proof.
  revert r. induction ops as [|op ops IH]; intros r Ha Hf; [done|].
  destruct (apply_op_foreign r op c Ha Hf) as (Ha' & Hf' & Heq).
  destruct (IH _ Ha' Hf') as [Ha'' Heq']. simpl. split; [done|]. by rewrite Heq'.
Qed.

Lemma empty_allocated : allocated empty_registry.
Proof. intros tid l []. Qed.

Lemma apply_ops_allocated ops r : allocated r -> allocated (apply_ops ops r).
Proof.
  revert r. induction ops as [|op ops IH]; intros r Ha; [done|].
  simpl. apply IH. destruct op as [tid task|tid updates|tid|]; cbn [apply_op].
  - by apply create_allocated.
  - by apply set_allocated.
  - by apply alloc_allocated.
  - by apply copy_each_spec.
Qed.

Lemma TASKS_allocated r :
  allocated r -> Forall (fun l => is_Some (heap r !! l)) (map snd (TASKS r)).
Proof.
  intros Ha. apply List.Forall_forall. intros l [[t l'] [<- Hin]]%in_map_iff. eauto.
Qed.

(** *** C5 *)

(** C5. [_get_task] and [_list_tasks] return snapshots.  In a registry built
    by any operations, the object handed out by [_get_task] is a new object
    that holds the bindings of the record (none for an unknown id), each
    object handed out by [_list_tasks] holds the bindings of its record, and
    whatever operations are performed on the registry afterwards (updates,
    creations, further reads), these objects keep every binding they had. *)
Theorem registry_reads_are_snapshots ops0 task_id ops :
  let r := apply_ops ops0 empty_registry in
  let c := fst (_get_task task_id r) in
  let r1 := snd (_get_task task_id r) in
  let cs := fst (_list_tasks r) in
  let r2 := snd (_list_tasks r) in
  heap r !! c = None /\
  heap r1 !! c = Some (default [] (record_of r task_id)) /\
  heap (apply_ops ops r1) !! c = heap r1 !! c /\
  Forall2 (fun c' tl => heap r2 !! c' = heap r !! snd tl) cs (TASKS r) /\
  Forall (fun c' => heap (apply_ops ops r2) !! c' = heap r2 !! c') cs.
Proof.
  intros r c r1 cs r2.
  assert (Ha : allocated r) by apply apply_ops_allocated, empty_allocated.
  split; [apply alloc_fresh|]. split; [|split; [|split]].
  - subst c r1. unfold _get_task, record_of. rewrite alloc_lookup_new.
    destruct (dict_get task_id (TASKS r)) as [l|]; [|done].
    by destruct (heap r !! l).
  - apply apply_ops_foreign; [by apply alloc_allocated | by apply get_foreign].
  - subst cs r2. unfold _list_tasks.
    pose proof (copy_each_copies (heap r) (map snd (TASKS r)) r Ha
                  (TASKS_allocated r Ha) (fun l _ => eq_refl)) as Hcp.
    by apply Forall2_fmap_r in Hcp.
  - destruct (copy_each_spec (map snd (TASKS r)) r Ha) as (_ & Ha2 & _ & Hfo).
    eapply Forall_impl; [exact Hfo|]. intros c' Hc'.
    by apply apply_ops_foreign.
Qed.

(** The record itself does change: after [get_task] a later update is seen
    in the registry and not in the copy. *)
Example snapshot_differs_from_record :
  let r := _create_task_locked "t" [("status", VStr "queued")] empty_registry in
  let c := fst (_get_task "t" r) in
  let r' := _set_task_locked "t" [("status", VStr "running")] (snd (_get_task "t" r)) in
  record_of r' "t" = Some [("status", VStr "running")] /\
  heap r' !! c = Some [("status", VStr "queued")].
Proof. vm_compute. split; reflexivity. Qed.

(** ** Records read through the registry *)

Lemma record_of_create task_id task r :
  record_of (_create_task_locked task_id task r) task_id = Some task.
Proof.
  unfold record_of. rewrite create_TASKS, dict_get_set_eq, create_heap.
  apply lookup_insert_eq.
Qed.

Lemma record_of_set task_id updates r d :
  record_of r task_id = Some d ->
  record_of (_set_task_locked task_id updates r) task_id = Some (dict_update d updates).
Proof.
  unfold record_of. rewrite set_TASKS.
  destruct (dict_get task_id (TASKS r)) as [l|] eqn:Hl; [|done].
  intros Hd. by apply set_lookup.
Qed.

Lemma record_of_set_absent task_id updates r :
  record_of r task_id = None -> _set_task_locked task_id updates r = r.
Proof.
  unfold record_of, _set_task_locked.
  destruct (dict_get task_id (TASKS r)) as [l|]; [|done].
  by intros ->.
Qed.

Lemma step_LRun i now s o a rest :
  threads s !! i = Some (o, a :: rest) ->
  step (LRun i now) s =
  exec_action now a
    {| reg := reg s; TASKS_SEM := TASKS_SEM s; threads := <[i := (o, rest)]> (threads s) |}.
Proof. intros H. cbn [step]. by rewrite H. Qed.

Lemma step_LCall E task_id p s :
  step (LCall E task_id p) s =
  Some {| reg := reg s; TASKS_SEM := TASKS_SEM s;
          threads := threads s ++ [(Request, trace (adf_analyze_file E task_id p))] |}.
Proof. reflexivity. Qed.

Lemma run_cons lb lbs s :
  run (lb :: lbs) s = match step lb s with Some s' => run lbs s' | None => None end.
Proof. reflexivity. Qed.

Lemma run_nil s : run [] s = Some s.
Proof. reflexivity. Qed.

(** *** C4 *)

(** C4. When both file arguments of [adf_analyze_file] are set (non-empty
    strings), or neither is, or the path does not exist, the call returns
    the failed response with the task id and an error message; the only
    actions it performs are the creation of the task record and the update
    that marks it [failed] with that message, so it starts no thread and
    does not acquire the semaphore.  Run in any server state in which the
    id is new, it leaves the record [failed] with the message, the
    semaphore as it was, and no thread besides the finished request. *)
Theorem adf_analyze_file_rejects E task_id p s now1 now2 :
  (truthy (csv p) = true /\ truthy (txt p) = true) \/
  (truthy (csv p) = false /\ truthy (txt p) = false) \/
  (exists path, (if truthy (csv p) then csv p else txt p) = Some path /\
                os_path_exists E path = false) ->
  dict_mem task_id (TASKS (reg s)) = false ->
  exists msg task,
    adf_analyze_file E task_id p =
      ([ACreate task_id task;
        ASet task_id [("status", Val (VStr "failed")); ("error", Val (VStr msg));
                      ("completed_at", Now)]],
       Ok [("status", VStr "failed"); ("task_id", VStr task_id);
           ("type", VStr "adf_analyze_file"); ("error", VStr msg)]) /\
    exists s',
      run [LCall E task_id p; LRun (length (threads s)) now1;
           LRun (length (threads s)) now2] s = Some s' /\
      status_of (reg s') task_id = Some (VStr "failed") /\
      field_of (reg s') task_id "error" = Some (VStr msg) /\
      TASKS_SEM s' = TASKS_SEM s /\
      threads s' = threads s ++ [(Request, [])].
Proof.
  intros Hrej Hnew.
  assert (Hscript : exists msg task,
    adf_analyze_file E task_id p =
      ([ACreate task_id task;
        ASet task_id [("status", Val (VStr "failed")); ("error", Val (VStr msg));
                      ("completed_at", Now)]],
       Ok [("status", VStr "failed"); ("task_id", VStr task_id);
           ("type", VStr "adf_analyze_file"); ("error", VStr msg)]) /\
    dict_get "status" task = Some (Val (VStr "queued")) /\
    dict_get "error" task = Some (Val VNone)).
  { unfold adf_analyze_file.
    destruct (truthy (csv p)) eqn:Hc, (truthy (txt p)) eqn:Ht; cbn [andb orb negb].
    - eexists _, _. split; [reflexivity | by split].
    - destruct Hrej as [[_ ?]|[[? _]|(path & -> & Hex)]]; try discriminate.
      rewrite Hex. cbn [negb]. eexists _, _. split; [reflexivity | by split].
    - destruct Hrej as [[? _]|[[_ ?]|(path & -> & Hex)]]; try discriminate.
      rewrite Hex. cbn [negb]. eexists _, _. split; [reflexivity | by split].
    - eexists _, _. split; [reflexivity | by split]. }
  destruct Hscript as (msg & task & Hscript & Hst & Herr).
  exists msg, task. split; [done|].
  set (upd := [("status", Val (VStr "failed")); ("error", Val (VStr msg));
               ("completed_at", Now)]) in *.
  set (n := length (threads s)).
  set (r1 := _create_task_locked task_id (eval_kwargs now1 task) (reg s)).
  set (r2 := _set_task_locked task_id (eval_kwargs now2 upd) r1).
  exists {| reg := r2; TASKS_SEM := TASKS_SEM s; threads := threads s ++ [(Request, [])] |}.
  split.
  - rewrite run_cons, step_LCall, Hscript. cbn [trace fst].
    rewrite run_cons.
    erewrite (step_LRun n now1 _ Request (ACreate task_id task) [ASet task_id upd])
      by (cbn [threads]; by rewrite lookup_app_r, Nat.sub_diag).
    cbn [threads reg TASKS_SEM exec_action]. rewrite Hnew.
    rewrite insert_app_r_alt, Nat.sub_diag by done. cbn [insert list_insert].
    rewrite run_cons.
    erewrite (step_LRun n now2 _ Request (ASet task_id upd) [])
      by (cbn [threads set_reg]; by rewrite lookup_app_r, Nat.sub_diag).
    cbn [threads reg TASKS_SEM exec_action set_reg].
    rewrite insert_app_r_alt, Nat.sub_diag by done. reflexivity.
  - cbn [reg TASKS_SEM threads].
    assert (Hrec : record_of r2 task_id =
                   Some (dict_update (eval_kwargs now1 task) (eval_kwargs now2 upd))).
    { apply record_of_set, record_of_create. }
    unfold status_of, field_of. rewrite Hrec.
    rewrite (dict_get_update "status" (eval_kwargs now1 task)).
    rewrite (dict_get_update "error" (eval_kwargs now1 task)).
    repeat split; reflexivity.
Qed.

Lemma adf_analyze_file_rejects_witness :
  exists msg task,
    adf_analyze_file sample_env "id-1" both_files =
      ([ACreate "id-1" task;
        ASet "id-1" [("status", Val (VStr "failed")); ("error", Val (VStr msg));
                     ("completed_at", Now)]],
       Ok [("status", VStr "failed"); ("task_id", VStr "id-1");
           ("type", VStr "adf_analyze_file"); ("error", VStr msg)]) /\
    exists s',
      run [LCall sample_env "id-1" both_files; LRun (length (threads (init 2))) "t1";
           LRun (length (threads (init 2))) "t2"] (init 2) = Some s' /\
      status_of (reg s') "id-1" = Some (VStr "failed") /\
      field_of (reg s') "id-1" "error" = Some (VStr msg) /\
      TASKS_SEM s' = TASKS_SEM (init 2) /\
      threads s' = threads (init 2) ++ [(Request, [])].
Proof.
  apply (adf_analyze_file_rejects sample_env "id-1" both_files (init 2) "t1" "t2").
  - left. split; reflexivity.
  - reflexivity.
Defined.

(** ** The background job *)

(** *** Computations without actions *)

Lemma silent_mret {A} (a : A) : silent (mret a).
Proof. reflexivity. Qed.

Lemma silent_raise {A} e : silent (@raise A e).
Proof. reflexivity. Qed.

Lemma silent_lift {A} (r : exn + A) : silent (lift r).
Proof. by destruct r. Qed.

Lemma silent_getitem {V} (d : list (string * V)) k : silent (getitem d k).
Proof. unfold getitem. by destruct (dict_get k d). Qed.

Lemma silent_subscript v k : silent (subscript v k).
Proof. destruct v; try reflexivity. apply silent_getitem. Qed.

Lemma silent_lt_005 v : silent (lt_005 v).
Proof. by destruct v. Qed.

Lemma silent_bind {A B} (m : Prog A) (f : A -> Prog B) :
  silent m -> (forall a, silent (f a)) -> silent (m ≫= f).
Proof.
  unfold silent. destruct m as [t [a|e]]; simpl; intros -> Hf; [apply Hf | done].
Qed.

Lemma silent_open_path {A} (f : string -> exn + A) file_path : silent (open_path f file_path).
Proof. destruct file_path; [apply silent_lift | reflexivity]. Qed.

Lemma silent_array_drop_nan a : silent (array_drop_nan a).
Proof. by destruct a. Qed.

Lemma silent_read_lines E delimiter lines data : silent (read_lines E delimiter lines data).
Proof.
  revert data. induction lines as [|line lines IH]; intros data; [reflexivity|].
  simpl. apply silent_bind; [apply silent_lift | intros; apply IH].
Qed.

Create HintDb silent.
#[local] Hint Resolve silent_mret silent_raise silent_lift silent_getitem
  silent_subscript silent_lt_005 silent_open_path silent_array_drop_nan
  silent_read_lines : silent.

Lemma silent_get_interpretation E d : silent (get_interpretation E d).
Proof.
  unfold get_interpretation.
  repeat (apply silent_bind; [auto with silent | intros]).
  apply silent_mret.
Qed.

Lemma silent_generate_recommendations d n : silent (_generate_recommendations d n).
Proof.
  unfold _generate_recommendations.
  apply silent_bind; [auto with silent | intros; apply silent_mret].
Qed.

(** A computation without actions only decides how the rest goes on. *)
Lemma bind_silent {A B} (m : Prog A) (f : A -> Prog B) :
  silent m ->
  m ≫= f = match result m with
           | Ok a => f a
           | Raised e => ([], Raised e)
           end.
Proof.
  unfold silent. destruct m as [t [a|e]]; simpl; intros ->; [|done].
  by destruct (f a).
Qed.

Lemma mret_bind {A B} (a : A) (f : A -> Prog B) : mret a ≫= f = f a.
Proof. unfold mret, Prog_ret, mbind, Prog_bind. by destruct (f a). Qed.

Lemma raise_bind {A B} e (f : A -> Prog B) : raise e ≫= f = raise e.
Proof. reflexivity. Qed.

Lemma set_then {A} task_id updates (b : Prog A) :
  _set_task task_id updates ≫= (fun _ => b) = (ASet task_id updates :: trace b, result b).
Proof. reflexivity. Qed.

(** *** The shapes of the statements under the semaphore *)

Section Shapes.
Variables (task_id : string) (p : params).

Lemma shape_set_quiet updates (b : Prog unit) :
  status_kw updates = None ->
  body_shape task_id p b ->
  body_shape task_id p (_set_task task_id updates ≫= (fun _ => b)).
Proof.
  intros Hq. rewrite set_then.
  assert (Hqa : quiet task_id (ASet task_id updates)) by done.
  intros [(t & u & -> & Ht & Hu)|[(t & e & -> & Ht)|(t & xs & res & -> & Ht & Hres)]].
  - left. exists (ASet task_id updates :: t), u. repeat split; [|done]. by constructor.
  - right; left. exists (ASet task_id updates :: t), e. split; [done|]. by constructor.
  - right; right. exists (ASet task_id updates :: t), xs, res.
    repeat split; [|done]. by constructor.
Qed.

Lemma shape_failed updates :
  status_kw updates = Some (Val (VStr "failed")) ->
  body_shape task_id p (_set_task task_id updates).
Proof. intros Hu. left. by exists [], updates. Qed.

Lemma shape_raise e : body_shape task_id p (raise e).
Proof. right; left. by exists [], e. Qed.

Lemma shape_bind_silent {A} (m : Prog A) (f : A -> Prog unit) :
  silent m ->
  (forall a, body_shape task_id p (f a)) ->
  body_shape task_id p (m ≫= f).
Proof.
  intros Hm Hf. rewrite bind_silent by done.
  destruct (result m) as [a|e]; [apply Hf | apply shape_raise].
Qed.

Lemma analyze_series_shape E file_path file_type time_series :
  body_shape task_id p (analyze_series E task_id p file_path file_type time_series).
Proof.
  unfold analyze_series.
  apply shape_set_quiet; [done|].
  destruct (array_len time_series <? 10); [by apply shape_failed|].
  destruct time_series as [xs|n]; [|apply shape_raise].
  cbn [array_drop_nan]. rewrite mret_bind.
  destruct (len (drop_nan xs) <? 10) eqn:Hlen; [by apply shape_failed|].
  apply shape_set_quiet; [done|].
  destruct ((len (drop_nan (drop_nan xs)) <? 10) ||
            negb (dict_mem (regression p) regression_types) ||
            negb (dict_mem (lags_method p) lags_methods) || (max_lags p <? 0)) eqn:Hc.
  { destruct (test_stationarity_silent E _ _ _ _ Hc) as [msg ->]. apply shape_raise. }
  destruct (test_stationarity_valid E _ _ _ _ Hc) as (rd & ld & _ & _ & Hts).
  cbn zeta in Hts. rewrite drop_nan_idem in Hts. rewrite Hts. clear Hts.
  destruct (adfuller E _ _ _ _) as [e|r].
  { right; left. eexists [_], _. split; [reflexivity|]. by repeat constructor. }
  set (adf_result := result_dict _ _ _ _ _ _ _).
  erewrite bind_ok by reflexivity. rewrite set_then.
  rewrite (bind_silent (get_interpretation E adf_result))
    by apply silent_get_interpretation.
  destruct (result (get_interpretation E adf_result)) as [interpretation|e].
  2:{ right; left. eexists [_; _], _. split; [reflexivity|]. by repeat constructor. }
  rewrite (bind_silent (_generate_recommendations adf_result _))
    by apply silent_generate_recommendations.
  destruct (result (_generate_recommendations adf_result _)) as [recommendations|e].
  2:{ right; left. eexists [_; _], _. split; [reflexivity|]. by repeat constructor. }
  right; right. exists [], xs. eexists. split; [reflexivity|]. split; [constructor|].
  reflexivity.
Qed.

(** The statements of [_analyze_file_worker] under the semaphore, after the
    marks [running] and 0.2. *)
Lemma worker_body_shape E :
  exists b : Prog unit,
    body_shape task_id p b /\
    _analyze_file_worker E task_id p =
    try_except
      (with_TASKS_SEM
         (_set_task task_id
            [("status", Val (VStr "running")); ("started_at", Now);
             ("progress", Val (VFloat 0.1))];;
          _set_task task_id [("progress", Val (VFloat 0.2))];;
          b))
      (fun ex =>
         _set_task task_id
           [("status", Val (VStr "failed"));
            ("completed_at", Now);
            ("error", Val (VStr (str_exn ex)));
            ("traceback", Val (VStr (format_exc E ex)))]).
Proof.
  eexists. split; [|reflexivity]. cbv zeta.
  destruct (truthy (csv p)); cbn [String.eqb Ascii.eqb Bool.eqb].
  - apply shape_bind_silent; [auto with silent|]. intros df.
    destruct (negb (str_in (timestamp_col p) (columns df))); [by apply shape_failed|].
    destruct (negb (str_in (value_col p) (columns df))); [by apply shape_failed|].
    destruct (String.eqb (analysis_type p) "log_analysis");
      (apply shape_bind_silent; [auto with silent|]; intros ts;
       apply analyze_series_shape).
  - apply shape_bind_silent; [auto with silent|]. intros lines.
    apply shape_bind_silent; [auto with silent|]. intros data.
    apply analyze_series_shape.
Qed.
End Shapes.

Lemma quiet_tame task_id a : quiet task_id a -> tame task_id a.
Proof. by destruct a. Qed.

(** The actions of a job have one of three forms. *)
Lemma worker_script E task_id p :
  let W := trace (_analyze_file_worker E task_id p) in
  script_failed task_id W \/ script_raised task_id W \/ script_succeeded task_id p W.
Proof.
  destruct (worker_body_shape task_id p E) as (b & Hb & ->).
  assert (Hq : quiet task_id (ASet task_id [("progress", Val (VFloat 0.2))])) by done.
  destruct Hb as [(t & u & -> & Ht & Hu)|[(t & e & -> & Ht)|(t & xs & res & -> & Ht & Hres)]].
  - left. exists (ASet task_id [("progress", Val (VFloat 0.2))] :: t), u.
    split; [|split; [|done]].
    + cbn. by rewrite <- app_assoc.
    + constructor; [by apply quiet_tame | done].
  - right; left. exists (ASet task_id [("progress", Val (VFloat 0.2))] :: t). eexists.
    split; [cbn; rewrite <- app_assoc; reflexivity|].
    split; [|reflexivity].
    constructor; [by apply quiet_tame | done].
  - right; right. exists (ASet task_id [("progress", Val (VFloat 0.2))] :: t), xs, res.
    split; [|split; [|done]].
    + cbn. by rewrite <- app_assoc.
    + by constructor.
Qed.

Lemma quiet_no_adfuller task_id t : Forall (quiet task_id) t -> adfuller_calls t = [].
Proof.
  induction 1 as [|a t Ha _ IH]; [done|]. simpl. destruct a; try done.
Qed.

Lemma tame_status task_id t a updates :
  Forall (tame task_id) t -> In (ASet a updates) t ->
  a = task_id /\ status_kw updates = None.
Proof.
  intros Ht Hin. eapply List.Forall_forall in Ht; [|exact Hin]. exact Ht.
Qed.

Lemma In_script {A} (a x y : A) t l :
  In a (x :: y :: t ++ l) -> a = x \/ a = y \/ In a t \/ In a l.
Proof. simpl. rewrite in_app_iff. naive_solver. Qed.

Lemma running_not_succeeded :
  status_kw running_update <> Some (Val (VStr "succeeded")).
Proof. discriminate. Qed.

(** *** C7 *)

(** C7. A job marks its task [succeeded] in one way only: whenever the
    actions of [_analyze_file_worker] contain an update that sets the status
    to [succeeded], the job has called the external routine exactly once, on
    the series [x] left after the NaN removal (with the clamped lag), and
    that update, performed on the record of the task in any registry, leaves
    the status [succeeded] and a [result] whose
    [data_summary.time_series_length] is the length of [x]. *)
Theorem succeeded_task_length E task_id p t updates :
  In (ASet t updates) (trace (_analyze_file_worker E task_id p)) ->
  status_kw updates = Some (Val (VStr "succeeded")) ->
  t = task_id /\
  exists xs,
    let x := drop_nan xs in
    adfuller_calls (trace (_analyze_file_worker E task_id p)) =
      [AAdfuller x (regression p) (Z.min (max_lags p) (len x / 2 - 1)) (lags_method p)] /\
    forall now r,
      is_Some (record_of r task_id) ->
      let r' := _set_task_locked task_id (eval_kwargs now updates) r in
      status_of r' task_id = Some (VStr "succeeded") /\
      match field_of r' task_id "result" with
      | Some v => val_path v ["data_summary"; "time_series_length"]
      | None => None
      end = Some (VInt (len x)).
Proof.
  intros Hin Hst.
  destruct (worker_script E task_id p)
    as [(w & u & HW & Hw & Hu)|[(w & u & HW & Hw & Hu)|(w & xs & res & HW & Hw & Hres)]];
    rewrite HW in *; clear HW; apply In_script in Hin;
    destruct Hin as [Hin|[Hin|[Hin|Hin]]]; try discriminate Hin.
  - injection Hin as -> ->. by destruct running_not_succeeded.
  - destruct (tame_status _ _ _ _ Hw Hin) as [_ Hn]. congruence.
  - simpl in Hin. destruct Hin as [Hin|[Hin|[]]]; [|discriminate Hin].
    injection Hin as <- <-. congruence.
  - injection Hin as -> ->. by destruct running_not_succeeded.
  - destruct (tame_status _ _ _ _ Hw Hin) as [_ Hn]. congruence.
  - simpl in Hin. destruct Hin as [Hin|[Hin|[]]]; [discriminate Hin|].
    injection Hin as <- <-. congruence.
  - injection Hin as -> ->. by destruct running_not_succeeded.
  - eapply List.Forall_forall in Hw; [|exact Hin]. destruct Hw as [_ Hn]. congruence.
  - simpl in Hin. destruct Hin as [Hin|[Hin|[Hin|[Hin|[]]]]]; try discriminate Hin.
    { injection Hin as <- <-. discriminate Hst. }
    injection Hin as <- <-. split; [done|]. exists xs. cbn zeta. split.
    + unfold adfuller_calls. cbn [List.filter is_adfuller].
      rewrite List.filter_app. fold (adfuller_calls w).
      by rewrite (quiet_no_adfuller task_id).
    + intros now r [d Hd]. cbn zeta.
      unfold status_of, field_of. rewrite (record_of_set _ _ _ d Hd).
      rewrite (dict_get_update "status" d), (dict_get_update "result" d).
      split; [reflexivity|]. exact Hres.
Qed.

Lemma succeeded_task_length_witness :
  In (ASet "id-1" sample_last_update)
    (trace (_analyze_file_worker sample_env "id-1" (txt_request "a.txt"))) /\
  status_kw sample_last_update = Some (Val (VStr "succeeded")) /\
  "id-1" = "id-1" /\
  exists xs,
    let x := drop_nan xs in
    adfuller_calls (trace (_analyze_file_worker sample_env "id-1" (txt_request "a.txt"))) =
      [AAdfuller x (regression (txt_request "a.txt"))
         (Z.min (max_lags (txt_request "a.txt")) (len x / 2 - 1))
         (lags_method (txt_request "a.txt"))] /\
    forall now r,
      is_Some (record_of r "id-1") ->
      let r' := _set_task_locked "id-1" (eval_kwargs now sample_last_update) r in
      status_of r' "id-1" = Some (VStr "succeeded") /\
      match field_of r' "id-1" "result" with
      | Some v => val_path v ["data_summary"; "time_series_length"]
      | None => None
      end = Some (VInt (len x)).
Proof.
  assert (Hin : In (ASet "id-1" sample_last_update)
                  (trace (_analyze_file_worker sample_env "id-1" (txt_request "a.txt")))).
  { vm_compute. do 7 right. left. reflexivity. }
  assert (Hst : status_kw sample_last_update = Some (Val (VStr "succeeded"))).
  { vm_compute. reflexivity. }
  split; [exact Hin|]. split; [exact Hst|].
  exact (succeeded_task_length sample_env "id-1" (txt_request "a.txt") "id-1"
           sample_last_update Hin Hst).
Defined.

(** ** The life of a task *)

(** *** Status writes of a script *)

Lemma writes_nil t o : writes t o [] = [].
Proof. reflexivity. Qed.

Lemma writes_set t o t' updates rest :
  writes t o (ASet t' updates :: rest) =
  (if String.eqb t' t then
     match status_kw updates with
     | Some k => [(o, k)]
     | None => []
     end
   else []) ++ writes t o rest.
Proof. reflexivity. Qed.

Lemma writes_create t o task_id task rest : writes t o (ACreate task_id task :: rest) = [].
Proof. reflexivity. Qed.

Lemma writes_start t o target rest :
  writes t o (AStart target :: rest) = writes t Background target ++ writes t o rest.
Proof.
  cbn [writes action_writes]. f_equal.
  induction target as [|b target IH]; [done|].
  cbn [writes]. destruct (action_writes t Background b); [|done]. by rewrite IH.
Qed.

Lemma writes_adfuller t o x r m l rest :
  writes t o (AAdfuller x r m l :: rest) = writes t o rest.
Proof. reflexivity. Qed.

Lemma writes_acquire t o rest : writes t o (AAcquire :: rest) = writes t o rest.
Proof. reflexivity. Qed.

Lemma writes_release t o rest : writes t o (ARelease :: rest) = writes t o rest.
Proof. reflexivity. Qed.

Lemma writes_tame task_id t o w l :
  Forall (tame task_id) w -> writes t o (w ++ l) = writes t o l.
Proof.
  induction 1 as [|a w Ha _ IH]; [done|].
  destruct a as [x r m l'|? ?|t' updates| | |?]; try done; rewrite <- app_comm_cons.
  destruct Ha as [-> Hu]. rewrite writes_set, Hu. by destruct (String.eqb task_id t).
Qed.

Lemma valid_tame task_id o w l :
  Forall (tame task_id) w -> valid o l -> valid o (w ++ l).
Proof.
  induction 1 as [|a w Ha _ IH]; [done|]. intros Hl.
  destruct a; try done; rewrite <- app_comm_cons; constructor; auto.
Qed.

Lemma valid_tail o a rest : valid o (a :: rest) -> valid o rest.
Proof. by inversion 1. Qed.

(** *** Chains *)

Lemma is_status_eq st s : is_status st s = true -> st = Some (VStr s).
Proof.
  destruct st as [[]|]; try discriminate. simpl. by intros ->%String.eqb_eq.
Qed.

Lemma chain_None ws : chain None ws = true -> ws = [].
Proof.
  destruct ws as [|[[] [[]|]] ws]; try done.
Qed.

Lemma chain_app_l st w1 w2 : chain st (w1 ++ w2) = true -> chain st w1 = true.
Proof.
  revert st. induction w1 as [|w w1 IH]; intros st; [done|].
  simpl. intros [Ha Hc]%andb_true_iff. rewrite Ha. simpl. by apply IH in Hc.
Qed.

(** An allowed write is one of the changes of status of the server. *)
Lemma allowed_transition st o k now :
  allowed st (o, k) = true ->
  transition o st (Some (eval_kwarg now k)) /\ eval_kwarg now k = eval_kwarg "" k.
Proof.
  destruct o, k as [[]|]; try discriminate; simpl.
  - intros [Hq Hs]%andb_true_iff. apply is_status_eq in Hq. apply String.eqb_eq in Hs.
    subst. split; [constructor | done].
  - intros [[Hq Hs]%andb_true_iff|[Hq Hs]%andb_true_iff]%orb_true_iff;
      apply is_status_eq in Hq; subst.
    + apply String.eqb_eq in Hs. subst. split; [constructor | done].
    + apply orb_true_iff in Hs. destruct Hs as [Hs|Hs]; apply String.eqb_eq in Hs; subst;
        (split; [constructor | done]).
Qed.

(** *** The scripts of the program *)

Lemma status_kw_running : status_kw running_update = Some (Val (VStr "running")).
Proof. reflexivity. Qed.

(** A job writes to its own task only: [running], then one final status. *)
Lemma worker_valid E task_id p :
  let W := trace (_analyze_file_worker E task_id p) in
  valid Background W /\
  chain (Some (VStr "queued")) (writes task_id Background W) = true /\
  forall t, t <> task_id -> writes t Background W = [].
Proof.
  cbn zeta.
  destruct (worker_script E task_id p)
    as [(w & u & -> & Hw & Hu)|[(w & u & -> & Hw & Hu)|(w & xs & res & -> & Hw & Hres)]].
  - split; [|split].
    + constructor. constructor. apply (valid_tame task_id); [done|]. repeat constructor.
    + rewrite writes_acquire, writes_set, String.eqb_refl, status_kw_running.
      rewrite (writes_tame task_id) by done.
      rewrite writes_set, String.eqb_refl, Hu. reflexivity.
    + intros t Hne. apply not_eq_sym, String.eqb_neq in Hne.
      rewrite writes_acquire, writes_set, Hne.
      rewrite (writes_tame task_id) by done.
      rewrite writes_set, Hne. reflexivity.
  - split; [|split].
    + constructor. constructor. apply (valid_tame task_id); [done|]. repeat constructor.
    + rewrite writes_acquire, writes_set, String.eqb_refl, status_kw_running.
      rewrite (writes_tame task_id) by done.
      rewrite writes_release, writes_set, String.eqb_refl, Hu. reflexivity.
    + intros t Hne. apply not_eq_sym, String.eqb_neq in Hne.
      rewrite writes_acquire, writes_set, Hne.
      rewrite (writes_tame task_id) by done.
      rewrite writes_release, writes_set, Hne. reflexivity.
  - assert (Hw' : Forall (tame task_id) w).
    { eapply Forall_impl; [exact Hw|]. apply quiet_tame. }
    split; [|split].
    + constructor. constructor. apply (valid_tame task_id); [done|]. repeat constructor.
    + rewrite writes_acquire, writes_set, String.eqb_refl, status_kw_running.
      rewrite (writes_tame task_id) by done.
      rewrite writes_adfuller, !writes_set, String.eqb_refl. reflexivity.
    + intros t Hne. apply not_eq_sym, String.eqb_neq in Hne.
      rewrite writes_acquire, writes_set, Hne.
      rewrite (writes_tame task_id) by done.
      rewrite writes_adfuller, !writes_set, Hne. reflexivity.
Qed.

(** A request creates its record and either rejects it or starts its job. *)
Lemma call_script E task_id p :
  let W := trace (adf_analyze_file E task_id p) in
  valid Request W /\ forall t, writes t Request W = [].
Proof.
  cbn zeta.
  assert (Hrej : forall task msg,
            dict_get "status" task = Some (Val (VStr "queued")) ->
            valid Request
              [ACreate task_id task;
               ASet task_id [("status", Val (VStr "failed")); ("error", Val (VStr msg));
                             ("completed_at", Now)]]).
  { intros task msg Ht. constructor; try done.
    - rewrite writes_set, String.eqb_refl. reflexivity.
    - intros t Hne. apply not_eq_sym, String.eqb_neq in Hne.
      by rewrite writes_set, Hne.
    - repeat constructor. }
  unfold adf_analyze_file.
  destruct ((truthy (csv p) && truthy (txt p)) ||
            (negb (truthy (csv p)) && negb (truthy (txt p)))).
  { split; [by apply Hrej | done]. }
  destruct (if truthy (csv p) then csv p else txt p) as [file_path|];
    [|split; [constructor | done]].
  destruct (negb (os_path_exists E file_path)).
  { split; [by apply Hrej | done]. }
  destruct (worker_valid E task_id p) as (Hv & Hc & Hne).
  unfold trace in *.
  cbn [fst snd mbind Prog_bind _create_task emit _start_background mret Prog_ret app trace].
  split; [|done].
  constructor; try done.
  - rewrite writes_start, writes_nil, app_nil_r. exact Hc.
  - intros t Ht. rewrite writes_start, writes_nil, app_nil_r. by apply Hne.
  - constructor; [done | constructor | by right].
Qed.

(** *** The status of a record under the operations of the registry *)

Lemma dict_get_eval now k (d : list (string * kwarg)) :
  dict_get k (eval_kwargs now d) = option_map (eval_kwarg now) (dict_get k d).
Proof.
  induction d as [|[k' v] d IH]; [done|]. simpl. by destruct (String.eqb k k').
Qed.

Lemma dict_set_eval now k v (d : list (string * kwarg)) :
  dict_set k (eval_kwarg now v) (eval_kwargs now d) = eval_kwargs now (dict_set k v d).
Proof.
  induction d as [|[k' v'] d IH]; [done|]. simpl.
  destruct (String.eqb k k'); [done|]. simpl. by rewrite <- IH.
Qed.

Lemma dict_update_eval now (d u : list (string * kwarg)) :
  dict_update (eval_kwargs now d) (eval_kwargs now u) = eval_kwargs now (dict_update d u).
Proof.
  unfold dict_update. revert d. induction u as [|[k v] u IH]; intros d; [done|].
  simpl. by rewrite dict_set_eval, IH.
Qed.

Lemma status_kw_eval now updates :
  dict_get "status" (dict_update [] (eval_kwargs now updates)) =
  option_map (eval_kwarg now) (status_kw updates).
Proof.
  unfold status_kw. rewrite <- dict_get_eval, <- dict_update_eval. reflexivity.
Qed.

Lemma record_of_set_other t t' updates r :
  separate r -> t' <> t ->
  record_of (_set_task_locked t updates r) t' = record_of r t'.
Proof.
  intros Hsep Hne. unfold record_of. rewrite set_TASKS.
  destruct (dict_get t' (TASKS r)) as [l'|] eqn:Hl'; [|done].
  apply set_frame. intros Hl. apply Hne. by apply (Hsep t' t l').
Qed.

Lemma status_set_other t t' updates r :
  separate r -> t' <> t ->
  status_of (_set_task_locked t updates r) t' = status_of r t'.
Proof.
  intros Hsep Hne. unfold status_of, field_of. by rewrite record_of_set_other.
Qed.

Lemma status_set_quiet t now updates r :
  status_kw updates = None ->
  status_of (_set_task_locked t (eval_kwargs now updates) r) t = status_of r t.
Proof.
  intros Hq. unfold status_of, field_of.
  destruct (record_of r t) as [d|] eqn:Hd.
  - rewrite (record_of_set _ _ _ d Hd), (dict_get_update "status" d).
    by rewrite status_kw_eval, Hq.
  - by rewrite record_of_set_absent, Hd.
Qed.

Lemma status_set_write t now updates k r :
  status_kw updates = Some k ->
  is_Some (status_of r t) ->
  status_of (_set_task_locked t (eval_kwargs now updates) r) t = Some (eval_kwarg now k).
Proof.
  intros Hk Hs. unfold status_of, field_of in *.
  destruct (record_of r t) as [d|] eqn:Hd; [|by destruct Hs].
  rewrite (record_of_set _ _ _ d Hd), (dict_get_update "status" d).
  by rewrite status_kw_eval, Hk.
Qed.

Lemma set_separate t updates r : separate r -> separate (_set_task_locked t updates r).
Proof. unfold separate. by rewrite set_TASKS. Qed.

Lemma fresh_status t r : dict_mem t (TASKS r) = false -> status_of r t = None.
Proof.
  unfold dict_mem, status_of, field_of, record_of.
  by destruct (dict_get t (TASKS r)).
Qed.

Lemma record_of_create_other t t' task r :
  allocated r -> t' <> t ->
  record_of (_create_task_locked t task r) t' = record_of r t'.
Proof.
  intros Ha Hne. unfold record_of. rewrite create_TASKS, dict_get_set_ne by done.
  destruct (dict_get t' (TASKS r)) as [l'|] eqn:Hl'; [|done].
  apply create_frame. eauto using dict_get_Some_In.
Qed.

Lemma status_create_other t t' task r :
  allocated r -> t' <> t ->
  status_of (_create_task_locked t task r) t' = status_of r t'.
Proof.
  intros Ha Hne. unfold status_of, field_of. by rewrite record_of_create_other.
Qed.

Lemma status_create t task r :
  status_of (_create_task_locked t task r) t = dict_get "status" task.
Proof. unfold status_of, field_of. by rewrite record_of_create. Qed.

Lemma create_separate t task r :
  allocated r -> separate r -> separate (_create_task_locked t task r).
Proof.
  intros Ha Hsep t1 t2 l. rewrite create_TASKS, !dict_get_set.
  destruct (String.eqb t1 t) eqn:H1, (String.eqb t2 t) eqn:H2.
  - apply String.eqb_eq in H1, H2. congruence.
  - intros [= <-] Hl. apply dict_get_Some_In, Ha in Hl. destruct Hl as [x Hx].
    pose proof (alloc_fresh task r) as Hf. simpl in *. congruence.
  - intros Hl [= <-]. apply dict_get_Some_In, Ha in Hl. destruct Hl as [x Hx].
    pose proof (alloc_fresh task r) as Hf. simpl in *. congruence.
  - apply Hsep.
Qed.

Lemma record_of_alloc d r t :
  allocated r -> record_of (snd (alloc d r)) t = record_of r t.
Proof.
  intros Ha. unfold record_of. rewrite alloc_TASKS.
  destruct (dict_get t (TASKS r)) as [l|] eqn:Hl; [|done].
  apply alloc_lookup_old. eauto using dict_get_Some_In.
Qed.

Lemma record_of_copy_each ls r t :
  allocated r -> record_of (snd (copy_each ls r)) t = record_of r t.
Proof.
  intros Ha. destruct (copy_each_spec ls r Ha) as (Ht & _ & Hfr & _).
  unfold record_of. rewrite Ht.
  destruct (dict_get t (TASKS r)) as [l|] eqn:Hl; [|done].
  apply Hfr. eauto using dict_get_Some_In.
Qed.

(** *** The invariant *)

Lemma lookup_step_threads (ts extra : list (origin * list action)) i th j th' :
  (i < length ts)%nat ->
  (length extra <= 1)%nat ->
  (<[i := th]> ts ++ extra) !! j = Some th' ->
  (j = i /\ th' = th) \/
  (j <> i /\ ts !! j = Some th') \/
  (j = length ts /\ extra = [th']).
Proof.
  intros Hi He Hj. destruct (decide (j < length ts)%nat) as [Hlt|Hge].
  - rewrite lookup_app_l in Hj by (by rewrite length_insert).
    destruct (decide (j = i)) as [->|Hne].
    + rewrite list_lookup_insert_eq in Hj by done. left. split; congruence.
    + rewrite list_lookup_insert_ne in Hj by done. right; left. done.
  - rewrite lookup_app_r in Hj by (rewrite length_insert; lia).
    right; right. rewrite length_insert in Hj.
    destruct extra as [|x [|y extra]]; simpl in He; [done| |lia].
    destruct (j - length ts)%nat eqn:Hd; simpl in Hj; [|done].
    split; [lia | congruence].
Qed.

(** What a step of thread [i] has to respect for the threads to stay in
    order: [r'] is the registry after the step, [rest] the script left to
    the thread, [extra] the thread it has started, if any. *)
Lemma threads_ok_step r r' ts i o a rest extra :
  threads_ok r ts ->
  ts !! i = Some (o, a :: rest) ->
  (length extra <= 1)%nat ->
  valid o rest ->
  (forall th, In th extra -> valid (fst th) (snd th)) ->
  (forall t, chain (status_of r' t) (writes t o rest) = true) ->
  (forall t th, In th extra -> chain (status_of r' t) (writes t (fst th) (snd th)) = true) ->
  (forall t, status_of r' t = status_of r t \/
             forall j oj sj, j <> i -> ts !! j = Some (oj, sj) -> writes t oj sj = []) ->
  (forall t j oj sj, j <> i -> ts !! j = Some (oj, sj) ->
     writes t oj sj = [] \/
     (writes t o rest = [] /\ forall th, In th extra -> writes t (fst th) (snd th) = [])) ->
  (forall t th, In th extra -> writes t o rest = [] \/ writes t (fst th) (snd th) = []) ->
  threads_ok r' (<[i := (o, rest)]> ts ++ extra).
Proof.
  intros [H1 H2] Hi He Hv Hve Hc Hce Hst Hex Hnew.
  assert (Hlt : (i < length ts)%nat) by (by eapply lookup_lt_Some).
  split.
  - intros j oj sj Hj.
    apply (lookup_step_threads ts extra i (o, rest)) in Hj; [|done..].
    destruct Hj as [[-> [= -> ->]]|[[Hne Hj]|[Hne ->]]].
    + done.
    + destruct (H1 j oj sj Hj) as [Hvj Hcj]. split; [done|]. intros t.
      destruct (Hst t) as [->|Hno]; [done|]. by rewrite (Hno j oj sj).
    + split; [apply (Hve (oj, sj)); by left|].
      intros t. apply (Hce t (oj, sj)). by left.
  - intros j1 j2 o1 s1 o2 s2 t Hne Hj1 Hj2.
    apply (lookup_step_threads ts extra i (o, rest)) in Hj1; [|done..].
    apply (lookup_step_threads ts extra i (o, rest)) in Hj2; [|done..].
    destruct Hj1 as [[-> [= -> ->]]|[[Hn1 Hj1]|[Hn1 He1]]];
      destruct Hj2 as [[-> [= -> ->]]|[[Hn2 Hj2]|[Hn2 He2]]].
    + done.
    + destruct (Hex t j2 o2 s2 Hn2 Hj2) as [?|[? _]]; [by right | by left].
    + apply (Hnew t (o2, s2)). rewrite He2. by left.
    + destruct (Hex t j1 o1 s1 Hn1 Hj1) as [?|[? _]]; [by left | by right].
    + by apply (H2 j1 j2 o1 s1 o2 s2 t).
    + destruct (Hex t j1 o1 s1 Hn1 Hj1) as [?|[_ Hx]]; [by left|].
      right. apply (Hx (o2, s2)). rewrite He2. by left.
    + destruct (Hnew t (o1, s1)) as [?|?]; [rewrite He1; by left | by right | by left].
    + destruct (Hex t j2 o2 s2 Hn2 Hj2) as [?|[_ Hx]]; [by right|].
      left. apply (Hx (o1, s1)). rewrite He1. by left.
    + congruence.
Qed.

Lemma threads_ok_status r r' ts :
  (forall t, status_of r' t = status_of r t) -> threads_ok r ts -> threads_ok r' ts.
Proof.
  intros Hst [H1 H2]. split; [|done].
  intros i o script Hi. destruct (H1 i o script Hi) as [Hv Hc].
  split; [done|]. intros t. by rewrite Hst.
Qed.

Lemma threads_ok_add r ts o W :
  threads_ok r ts -> valid o W -> (forall t, writes t o W = []) ->
  threads_ok r (ts ++ [(o, W)]).
Proof.
  intros [H1 H2] Hv Hw.
  assert (Hl : forall j oj sj, (ts ++ [(o, W)]) !! j = Some (oj, sj) ->
                 ts !! j = Some (oj, sj) \/ (oj, sj) = (o, W)).
  { intros j oj sj Hj. destruct (decide (j < length ts)%nat).
    - left. by rewrite lookup_app_l in Hj.
    - right. rewrite lookup_app_r in Hj by lia.
      destruct (j - length ts)%nat; simpl in Hj; [congruence | done]. }
  split.
  - intros j oj sj Hj. destruct (Hl j oj sj Hj) as [Hj'|[= -> ->]]; [by eapply H1|].
    split; [done|]. intros t. by rewrite Hw.
  - intros j1 j2 o1 s1 o2 s2 t Hne Hj1 Hj2.
    destruct (Hl j1 o1 s1 Hj1) as [Hj1'|[= -> ->]]; [|left; apply Hw].
    destruct (Hl j2 o2 s2 Hj2) as [Hj2'|[= -> ->]]; [|right; apply Hw].
    by apply (H2 j1 j2 o1 s1 o2 s2 t).
Qed.

Lemma init_inv capacity : inv (init capacity).
Proof.
  split; [apply empty_allocated|]. split; [intros t1 t2 l; discriminate|].
  split; intros; discriminate.
Qed.

Lemma chain_true_nil st : chain st [] = true.
Proof. reflexivity. Qed.

(** A step that writes no status and starts nothing *)
Lemma threads_ok_skip r ts i o a rest :
  threads_ok r ts ->
  ts !! i = Some (o, a :: rest) ->
  valid o rest ->
  (forall t, writes t o (a :: rest) = writes t o rest) ->
  threads_ok r (<[i := (o, rest)]> ts).
Proof.
  intros Hth Hi Hv Hw. pose proof Hth as [H1 H2].
  rewrite <- (app_nil_r (<[i:=(o, rest)]> ts)).
  apply (threads_ok_step r r ts i o a rest [] Hth Hi); simpl; try done.
  - lia.
  - intros t. rewrite <- Hw. by apply (H1 i o (a :: rest) Hi).
  - intros t. by left.
  - intros t j oj sj Hne Hj. rewrite <- Hw.
    destruct (H2 j i oj sj o _ t Hne Hj Hi) as [?|?]; [by left | by right].
Qed.

Lemma chain_cons_inv st w ws :
  chain st (w :: ws) = true ->
  allowed st w = true /\ chain (Some (eval_kwarg "" (snd w))) ws = true.
Proof. simpl. by intros [? ?]%andb_true_iff. Qed.

(** Every step keeps the invariant and changes statuses lawfully. *)
Lemma step_inv lb s s' : inv s -> step lb s = Some s' -> inv s' /\ lawful lb s s'.
Proof.
  intros (Ha & Hsep & Hth) Hstep.
  destruct lb as [E task_id p|task_id| |i now].
  - (* a call of adf_analyze_file *)
    injection Hstep as <-. split; [|by left].
    destruct (call_script E task_id p) as [Hv Hw].
    split; [done|]. split; [done|]. by apply threads_ok_add.
  - (* get_task *)
    injection Hstep as <-.
    assert (Hst : forall t, status_of (snd (get_task task_id (reg s))) t = status_of (reg s) t).
    { intros t. unfold status_of, field_of, get_task, _get_task.
      by rewrite record_of_alloc. }
    split; [|intros t; left; apply Hst].
    split; [by apply alloc_allocated|]. split; [done|].
    by apply (threads_ok_status (reg s)).
  - (* list_tasks *)
    injection Hstep as <-.
    assert (Hr : snd (list_tasks (reg s)) = snd (copy_each (map snd (TASKS (reg s))) (reg s))).
    { unfold list_tasks, _list_tasks. by destruct (copy_each _ _). }
    cbn [set_reg reg threads]. rewrite Hr.
    destruct (copy_each_spec (map snd (TASKS (reg s))) (reg s) Ha) as (Ht & Ha' & _ & _).
    assert (Hst : forall t, status_of (snd (copy_each (map snd (TASKS (reg s))) (reg s))) t =
                            status_of (reg s) t).
    { intros t. unfold status_of, field_of. by rewrite record_of_copy_each. }
    split; [|intros t; left; apply Hst].
    split; [done|]. split; [unfold separate; cbn [reg set_reg]; by rewrite Ht|].
    by apply (threads_ok_status (reg s)).
  - (* a thread moves *)
    cbn [step] in Hstep.
    destruct (threads s !! i) as [[o [|a rest]]|] eqn:Hi; try discriminate.
    pose proof Hth as [H1 H2].
    destruct (H1 i o (a :: rest) Hi) as [Hv Hc].
    assert (Hothers : forall t, writes t o (a :: rest) <> [] ->
              forall j oj sj, j <> i -> threads s !! j = Some (oj, sj) -> writes t oj sj = []).
    { intros t Hw j oj sj Hne Hj.
      destruct (H2 j i oj sj o (a :: rest) t Hne Hj Hi); [done | contradiction]. }
    destruct a as [x rg m l|t0 task|t0 updates| | |target]; cbn [exec_action] in Hstep.
    + (* adfuller *)
      injection Hstep as <-. split; [|by left].
      split; [done|]. split; [done|].
      apply (threads_ok_skip _ _ _ _ _ _ Hth Hi); [by inversion Hv | done].
    + (* the creation of a record *)
      cbn [reg] in Hstep.
      destruct (dict_mem t0 (TASKS (reg s))) eqn:Hnew; [discriminate|].
      injection Hstep as <-. unfold lawful. cbn [set_reg reg TASKS_SEM threads].
      inversion Hv as [|? ? ? ? -> Hq Hch Hno Hvr| | | | |]; subst.
      pose proof (fresh_status _ _ Hnew) as Hnone.
      assert (Hst0 : status_of (_create_task_locked t0 (eval_kwargs now task) (reg s)) t0 =
                     Some (VStr "queued")).
      { by rewrite status_create, dict_get_eval, Hq. }
      assert (Hempty : forall j oj sj, threads s !! j = Some (oj, sj) -> writes t0 oj sj = []).
      { intros j oj sj Hj. apply chain_None. rewrite <- Hnone. by apply (H1 j oj sj Hj). }
      split; [split; [by apply create_allocated|split; [by apply create_separate|]]|].
      * rewrite <- (app_nil_r (<[i:=(Request, rest)]> (threads s))).
        apply (threads_ok_step (reg s) _ _ i Request _ rest [] Hth Hi); simpl; try done.
        -- lia.
        -- intros t. destruct (decide (t = t0)) as [->|Hne].
           ++ by rewrite Hst0.
           ++ by rewrite (Hno t Hne).
        -- intros t. destruct (decide (t = t0)) as [->|Hne].
           ++ right. intros j oj sj _ Hj. by apply (Hempty j oj sj).
           ++ left. by apply status_create_other.
        -- intros t j oj sj Hne Hj. destruct (decide (t = t0)) as [->|Hne'].
           ++ left. by apply (Hempty j oj sj).
           ++ right. split; [by apply Hno | done].
      * intros t. destruct (decide (t = t0)) as [->|Hne].
        -- right. exists i, now, Request, (ACreate t0 task :: rest).
           split; [done|]. split; [done|]. rewrite Hst0, Hnone. constructor.
        -- left. by apply status_create_other.
    + (* an update *)
      injection Hstep as <-. unfold lawful. cbn [set_reg reg TASKS_SEM threads].
      assert (Hvr : valid o rest) by (by inversion Hv).
      destruct (status_kw updates) as [k|] eqn:Hk.
      * (* it writes a status *)
        assert (Hw0 : writes t0 o (ASet t0 updates :: rest) = (o, k) :: writes t0 o rest).
        { by rewrite writes_set, String.eqb_refl, Hk. }
        pose proof (Hc t0) as Hc0. rewrite Hw0 in Hc0.
        apply chain_cons_inv in Hc0. destruct Hc0 as [Hal Hch].
        destruct (allowed_transition _ _ _ now Hal) as [Htr Hev].
        assert (Hsome : is_Some (status_of (reg s) t0)).
        { destruct (status_of (reg s) t0); [eauto|].
          by destruct o, k as [[]|]. }
        assert (Hst0 : status_of (_set_task_locked t0 (eval_kwargs now updates) (reg s)) t0 =
                       Some (eval_kwarg now k)) by (by apply status_set_write).
        assert (Hwne : forall t, t <> t0 ->
                  writes t o (ASet t0 updates :: rest) = writes t o rest).
        { intros t Hne. apply not_eq_sym, String.eqb_neq in Hne.
          by rewrite writes_set, Hne. }
        split; [split; [by apply set_allocated|split; [by apply set_separate|]]|].
        -- rewrite <- (app_nil_r (<[i:=(o, rest)]> (threads s))).
           apply (threads_ok_step (reg s) _ _ i o _ rest [] Hth Hi); simpl; try done.
           ++ lia.
           ++ intros t. destruct (decide (t = t0)) as [->|Hne].
              ** rewrite Hst0, Hev. exact Hch.
              ** rewrite status_set_other by done. rewrite <- Hwne by done. apply Hc.
           ++ intros t. destruct (decide (t = t0)) as [->|Hne].
              ** right. apply Hothers. by rewrite Hw0.
              ** left. by apply status_set_other.
           ++ intros t j oj sj Hne Hj. destruct (decide (t = t0)) as [->|Hne'].
              ** left. apply (Hothers t0 ltac:(by rewrite Hw0) j oj sj Hne Hj).
              ** rewrite <- Hwne by done.
                 destruct (H2 j i oj sj o _ t Hne Hj Hi) as [?|?]; [by left | by right].
        -- intros t. destruct (decide (t = t0)) as [->|Hne].
           ++ right. exists i, now, o, (ASet t0 updates :: rest).
              split; [done|]. split; [done|]. by rewrite Hst0.
           ++ left. by apply status_set_other.
      * (* it leaves the status alone *)
        assert (Hst : forall t, status_of (_set_task_locked t0 (eval_kwargs now updates) (reg s)) t =
                                status_of (reg s) t).
        { intros t. destruct (decide (t = t0)) as [->|Hne].
          - by apply status_set_quiet.
          - by apply status_set_other. }
        split; [|intros t; left; apply Hst].
        split; [by apply set_allocated|]. split; [by apply set_separate|].
        apply (threads_ok_skip _ _ _ _ (ASet t0 updates)); try done.
        -- by apply (threads_ok_status (reg s)).
        -- intros t. rewrite writes_set, Hk. by destruct (String.eqb t0 t).
    + (* acquire *)
      cbn [TASKS_SEM] in Hstep. destruct (0 <? TASKS_SEM s); [|discriminate].
      injection Hstep as <-. split; [|by left].
      split; [done|]. split; [done|].
      apply (threads_ok_skip _ _ _ _ _ _ Hth Hi); [by inversion Hv | done].
    + (* release *)
      injection Hstep as <-. split; [|by left].
      split; [done|]. split; [done|].
      apply (threads_ok_skip _ _ _ _ _ _ Hth Hi); [by inversion Hv | done].
    + (* the start of a thread *)
      injection Hstep as <-. split; [|by left].
      split; [done|]. split; [done|]. cbn [reg threads].
      inversion Hv as [| |? ? ? Hvt Hvr Hdis| | | |]; subst.
      assert (Hw : forall t, writes t o (AStart target :: rest) =
                             writes t Background target ++ writes t o rest).
      { intros t. apply writes_start. }
      apply (threads_ok_step (reg s) _ _ i o _ rest [(Background, target)] Hth Hi);
        simpl; try done.
      * intros th [<-|[]]. done.
      * intros t. specialize (Hc t). rewrite Hw in Hc.
        destruct (Hdis t) as [Hd|Hd]; [by rewrite Hd in Hc | by rewrite Hd].
      * intros t th [<-|[]]. simpl. specialize (Hc t). rewrite Hw in Hc.
        by apply chain_app_l in Hc.
      * intros t. by left.
      * intros t j oj sj Hne Hj.
        destruct (H2 j i oj sj o _ t Hne Hj Hi) as [?|Hnil]; [by left|].
        right. rewrite Hw in Hnil. apply app_eq_nil in Hnil. destruct Hnil as [Hn1 Hn2].
        split; [done|]. by intros th [<-|[]].
      * intros t th [<-|[]]. simpl. destruct (Hdis t); [by right | by left].
Qed.

Lemma run_inv lbs s s' : inv s -> run lbs s = Some s' -> inv s'.
Proof.
  revert s. induction lbs as [|lb lbs IH]; intros s Hinv; simpl.
  - by intros [= <-].
  - destruct (step lb s) as [s1|] eqn:Hs; [|discriminate].
    apply IH. by apply (step_inv lb s s1).
Qed.

Lemma reachable_inv capacity s : reachable capacity s -> inv s.
Proof. intros [lbs Hrun]. eapply run_inv; [apply init_inv | exact Hrun]. Qed.

(** *** C2 *)

(** C2. In every state the server can reach, every step either leaves the
    status of a task as it is or is the move of a thread that makes one of
    these changes: a request creates the record with status [queued]; a
    request changes [queued] to [failed] (the validation of
    [adf_analyze_file]); a background job changes [queued] to [running],
    [running] to [succeeded] or [running] to [failed].  In particular no
    step changes a status that is [succeeded] or [failed]. *)
Theorem task_status_transitions capacity s lb s' :
  reachable capacity s ->
  step lb s = Some s' ->
  lawful lb s s' /\
  forall t,
    status_of (reg s) t = Some (VStr "succeeded") \/
    status_of (reg s) t = Some (VStr "failed") ->
    status_of (reg s') t = status_of (reg s) t.
Proof.
  intros Hr Hstep.
  destruct (step_inv lb s s' (reachable_inv _ _ Hr) Hstep) as [_ Hl].
  split; [done|]. intros t Hterm.
  destruct (Hl t) as [Heq|(i & now & o & script & _ & _ & Htr)]; [done|].
  destruct Hterm as [Ht|Ht]; rewrite Ht in Htr; inversion Htr.
Qed.

Lemma task_status_transitions_witness :
  lawful (LRun 0 "2026-01-01T08:00:01+08:00")
    (state_after 2 reject_prefix)
    (state_after 2 (reject_prefix ++ [LRun 0 "2026-01-01T08:00:01+08:00"])) /\
  forall t,
    status_of (reg (state_after 2 reject_prefix)) t = Some (VStr "succeeded") \/
    status_of (reg (state_after 2 reject_prefix)) t = Some (VStr "failed") ->
    status_of (reg (state_after 2 (reject_prefix ++ [LRun 0 "2026-01-01T08:00:01+08:00"]))) t =
    status_of (reg (state_after 2 reject_prefix)) t.
Proof.
  apply (task_status_transitions 2 (state_after 2 reject_prefix)
           (LRun 0 "2026-01-01T08:00:01+08:00")).
  - exists reject_prefix. vm_compute. reflexivity.
  - vm_compute. reflexivity.
Defined.

(** The rejected request of the sample run does change the status. *)
Example reject_changes_status :
  status_of (reg (state_after 2 reject_prefix)) "id-1" = Some (VStr "queued") /\
  status_of (reg (state_after 2 (reject_prefix ++ [LRun 0 "2026-01-01T08:00:01+08:00"])))
    "id-1" = Some (VStr "failed").
Proof. vm_compute. split; reflexivity. Qed.

(** *** C1 *)

(** C1 fails on the code.  With one slot, the schedule [race_schedule] is a
    run of the server after which two tasks have status [running]: the job
    of a has raised in [read_csv] and left the [with] block, which released
    the semaphore, but its handler has not yet marked the task failed. *)
Theorem two_running_with_one_slot :
  MAX_CONCURRENT (Some 1) = 1 /\
  option_map running_tasks (run race_schedule (init (MAX_CONCURRENT (Some 1)))) =
    Some ["a"; "b"] /\
  option_map TASKS_SEM (run race_schedule (init (MAX_CONCURRENT (Some 1)))) = Some 0.
Proof. vm_compute. repeat split; reflexivity. Qed.

(** * Further properties of the code *)

(** ** The semaphore *)

Lemma net_start target rest : net (AStart target :: rest) = net target + net rest.
Proof. reflexivity. Qed.

Lemma net_cons a rest : net (a :: rest) = action_net a + net rest.
Proof. reflexivity. Qed.

Lemma net_app s1 s2 : net (s1 ++ s2) = net s1 + net s2.
Proof. induction s1 as [|a s1 IH]; [done|]. simpl. rewrite IH. lia. Qed.

Lemma net_tame task_id w : Forall (tame task_id) w -> net w = 0.
Proof.
  induction 1 as [|a w Ha _ IH]; [done|]. cbn [net]. rewrite IH.
  by destruct a.
Qed.

Lemma slots_ok_tame task_id w l :
  Forall (tame task_id) w -> slots_ok l -> 0 <= net l -> slots_ok (w ++ l).
Proof.
  intros Hw Hl Hn. induction Hw as [|a w Ha Hw IH]; [done|].
  rewrite <- app_comm_cons. constructor; [|done|].
  - change (0 <= net ((a :: w) ++ l)). rewrite net_app.
    rewrite (net_tame task_id (a :: w)) by (by constructor). lia.
  - intros target ->. destruct Ha.
Qed.

Lemma slots_ok_simple l :
  Forall (fun a => match a with AStart _ => False | _ => True end) l ->
  (forall l1 l2, l = l1 ++ l2 -> 0 <= net l2) ->
  slots_ok l.
Proof.
  induction 1 as [|a l Ha _ IH]; intros Hs; [constructor|].
  constructor.
  - by apply (Hs []).
  - apply IH. intros l1 l2 ->. by apply (Hs (a :: l1)).
  - intros target ->. destruct Ha.
Qed.

(** The actions of a job: it takes a slot first, marks the task running,
    and gives the slot back once, however it ends. *)
Lemma worker_slots E task_id p :
  let W := trace (_analyze_file_worker E task_id p) in
  slots_ok W /\ net W = 0 /\
  exists body handler,
    W = AAcquire :: ASet task_id running_update :: body ++ ARelease :: handler /\
    net body = 0 /\ net handler = 0.
Proof.
  cbn zeta.
  assert (Hgen : forall w tail,
            Forall (tame task_id) w -> slots_ok tail -> net tail = 1 ->
            let W := AAcquire :: ASet task_id running_update :: w ++ tail in
            slots_ok W /\ net W = 0).
  { intros w tail Hw Ht Hn. cbn zeta.
    assert (Hn' : net (w ++ tail) = 1) by (rewrite net_app, (net_tame task_id w); done).
    split; [|cbn [net action_net]; lia].
    constructor; [cbn [net action_net]; lia| |done].
    constructor; [cbn [net action_net]; lia| |done].
    apply (slots_ok_tame task_id); [done | done | lia]. }
  destruct (worker_script E task_id p)
    as [(w & u & -> & Hw & Hu)|[(w & u & -> & Hw & Hu)|(w & xs & res & -> & Hw & Hres)]].
  - destruct (Hgen w [ASet task_id u; ARelease] Hw) as [Hs Hn]; [|done|].
    { repeat (constructor; [done| |done]). constructor. }
    split; [done|]. split; [done|].
    exists (w ++ [ASet task_id u]), []. rewrite <- app_assoc. split; [done|].
    by rewrite net_app, (net_tame task_id w).
  - destruct (Hgen w [ARelease; ASet task_id u] Hw) as [Hs Hn]; [|done|].
    { repeat (constructor; [done| |done]). constructor. }
    split; [done|]. split; [done|].
    exists w, [ASet task_id u]. split; [done|].
    by rewrite (net_tame task_id w).
  - assert (Hw' : Forall (tame task_id) w).
    { eapply Forall_impl; [exact Hw|]. apply quiet_tame. }
    match goal with |- slots_ok (_ :: _ :: w ++ ?tl) /\ _ /\ _ =>
      destruct (Hgen w tl Hw') as [Hs Hn]; [|done|] end.
    { repeat (constructor; [done| |done]). constructor. }
    split; [done|]. split; [done|].
    eexists (w ++ [_; _; _]), []. rewrite <- app_assoc. split; [done|].
    by rewrite net_app, (net_tame task_id w).
Qed.

Lemma call_slots E task_id p :
  let W := trace (adf_analyze_file E task_id p) in
  slots_ok W /\ net W = 0.
Proof.
  cbn zeta. unfold adf_analyze_file.
  destruct ((truthy (csv p) && truthy (txt p)) ||
            (negb (truthy (csv p)) && negb (truthy (txt p)))).
  { split; [|done]. repeat (constructor; [done| |done]). constructor. }
  destruct (if truthy (csv p) then csv p else txt p) as [file_path|];
    [|split; [constructor | done]].
  destruct (negb (os_path_exists E file_path)).
  { split; [|done]. repeat (constructor; [done| |done]). constructor. }
  destruct (worker_slots E task_id p) as (Hs & Hn & _).
  cbn [fst snd mbind Prog_bind _create_task emit _start_background mret Prog_ret app trace].
  unfold trace in *.
  assert (Hnet : net [AStart (fst (_analyze_file_worker E task_id p))] = 0).
  { rewrite net_start, Hn. reflexivity. }
  split.
  - constructor; [rewrite net_cons, Hnet; simpl; lia| |done].
    constructor; [rewrite Hnet; lia | constructor|].
    intros target [= <-]. done.
  - rewrite net_cons, Hnet. reflexivity.
Qed.

Lemma held_app ts1 ts2 : held (ts1 ++ ts2) = held ts1 + held ts2.
Proof. induction ts1 as [|th ts1 IH]; [done|]. simpl. rewrite IH. lia. Qed.

Lemma held_insert ts i (th th' : origin * list action) :
  ts !! i = Some th ->
  held (<[i := th']> ts) = held ts - net (snd th) + net (snd th').
Proof.
  revert i. induction ts as [|x ts IH]; intros [|i]; simpl; try done.
  - intros [= ->]. lia.
  - intros Hi. rewrite (IH i Hi). lia.
Qed.

Lemma inside_count ts :
  Forall (fun th => slots_ok (snd th)) ts ->
  len (List.filter inside ts) <= held ts.
Proof.
  induction 1 as [|th ts Hth _ IH]; [done|].
  assert (Hn : 0 <= net (snd th)) by (inversion Hth; [done | lia]).
  cbn [List.filter held]. unfold inside at 1.
  destruct (Z.ltb_spec 0 (net (snd th))); unfold len in *; [simpl length|]; lia.
Qed.

Lemma slots_ok_tail a rest : slots_ok (a :: rest) -> slots_ok rest.
Proof. by inversion 1. Qed.

Lemma sem_inv_init capacity : 0 <= capacity -> sem_inv capacity (init capacity).
Proof. intros Hc. split; [done|]. split; [simpl; lia | constructor]. Qed.

Lemma sem_inv_step capacity lb s s' :
  sem_inv capacity s -> step lb s = Some s' -> sem_inv capacity s'.
Proof.
  intros (Hsem & Hsum & Hok) Hstep.
  destruct lb as [E task_id p|task_id| |i now].
  - injection Hstep as <-. destruct (call_slots E task_id p) as [Hs Hn].
    split; [done|]. cbn [TASKS_SEM threads]. split.
    + rewrite held_app. cbn [held snd]. lia.
    + apply Forall_app. split; [done|]. by constructor.
  - by injection Hstep as <-.
  - by injection Hstep as <-.
  - cbn [step] in Hstep.
    destruct (threads s !! i) as [[o [|a rest]]|] eqn:Hi; try discriminate.
    assert (Hth : slots_ok (a :: rest)).
    { apply (proj1 (List.Forall_forall _ _) Hok (o, a :: rest)).
      apply list_elem_of_In. by eapply list_elem_of_lookup_2. }
    assert (Hrest : Forall (fun th => slots_ok (snd th)) (<[i:=(o, rest)]> (threads s))).
    { apply Forall_insert; [done|]. by inversion Hth. }
    pose proof (held_insert _ i _ (o, rest) Hi) as Hh. cbn [snd net] in Hh.
    destruct a as [x rg m l|t0 task|t0 updates| | |target];
      cbn [exec_action TASKS_SEM threads reg] in Hstep; unfold sem_inv.
    + injection Hstep as <-. split; [done|]. cbn [TASKS_SEM threads action_net] in *.
      split; [lia | done].
    + destruct (dict_mem t0 (TASKS (reg s))); [discriminate|].
      injection Hstep as <-. split; [done|]. cbn [TASKS_SEM threads action_net set_reg] in *.
      split; [lia | done].
    + injection Hstep as <-. split; [done|]. cbn [TASKS_SEM threads action_net set_reg] in *.
      split; [lia | done].
    + destruct (Z.ltb_spec 0 (TASKS_SEM s)); [|discriminate].
      injection Hstep as <-. cbn [TASKS_SEM threads action_net] in *.
      split; [lia|]. split; [lia | done].
    + injection Hstep as <-. cbn [TASKS_SEM threads action_net] in *.
      split; [lia|]. split; [lia | done].
    + injection Hstep as <-. cbn [TASKS_SEM threads] in *.
      inversion Hth as [|? ? _ _ Hst]; subst.
      destruct (Hst target eq_refl) as [Hok' Hn'].
      change (action_net (AStart target)) with (net target) in Hh. rewrite Hn' in Hh.
      split; [done|]. split.
      * rewrite held_app. cbn [held snd]. lia.
      * apply Forall_app. split; [done|]. by constructor.
Qed.

Lemma held_nonneg ts : Forall (fun th => slots_ok (snd th)) ts -> 0 <= held ts.
Proof.
  induction 1 as [|th ts Hth _ IH]; [done|].
  assert (Hn : 0 <= net (snd th)) by (inversion Hth; [done | lia]).
  simpl. lia.
Qed.

Lemma reachable_sem_inv capacity s :
  0 <= capacity -> reachable capacity s -> sem_inv capacity s.
Proof.
  intros Hc [lbs Hrun].
  revert Hrun. generalize (sem_inv_init capacity Hc). generalize (init capacity).
  induction lbs as [|lb lbs IH]; intros s0 H0; simpl.
  - by intros [= <-].
  - destruct (step lb s0) as [s1|] eqn:Hs; [|discriminate].
    apply IH. by apply (sem_inv_step capacity lb s0).
Qed.


(** ** The action sequences of a job *)

Section JobTail.
Variables (E : Env) (task_id : string) (p : params).

Lemma finish_set pre updates (b : Prog unit) :
  job_tail E task_id p ((pre ++ [ASet task_id updates]) ++ finish E task_id b) ->
  job_tail E task_id p
    (pre ++ finish E task_id (_set_task task_id updates ≫= (fun _ => b))).
Proof.
  rewrite set_then. unfold finish. destruct b as [t [[]|ex]]; cbn [result trace fst snd];
    by rewrite <- !app_assoc.
Qed.

Lemma finish_last pre updates :
  job_tail E task_id p (pre ++ [ASet task_id updates; ARelease]) ->
  job_tail E task_id p (pre ++ finish E task_id (_set_task task_id updates)).
Proof. done. Qed.

Lemma finish_raise pre ex :
  job_tail E task_id p (pre ++ [ARelease; ASet task_id (raised_update E ex)]) ->
  job_tail E task_id p (pre ++ finish E task_id (raise ex)).
Proof. done. Qed.

Lemma finish_bind_silent {A} pre (m : Prog A) (f : A -> Prog unit) :
  silent m ->
  (forall ex, job_tail E task_id p (pre ++ [ARelease; ASet task_id (raised_update E ex)])) ->
  (forall a, result m = Ok a -> job_tail E task_id p (pre ++ finish E task_id (f a))) ->
  job_tail E task_id p (pre ++ finish E task_id (m ≫= f)).
Proof.
  intros Hm Hex Hf. rewrite bind_silent by done.
  destruct (result m) as [a|ex]; [by apply Hf | apply Hex].
Qed.

Lemma analyze_series_tail file_path file_type time_series :
  job_tail E task_id p
    (finish E task_id (analyze_series E task_id p file_path file_type time_series)).
Proof.
  unfold analyze_series.
  apply (finish_set []). cbn [app].
  destruct (array_len time_series <? 10); [apply (finish_last [_]); constructor|].
  destruct time_series as [xs|n]; [|apply (finish_raise [_]); constructor].
  cbn [array_drop_nan]. rewrite mret_bind.
  destruct (Z.ltb_spec (len (drop_nan xs)) 10) as [Hlen|Hlen];
    [apply (finish_last [_]); constructor|].
  apply (finish_set [_]). cbn [app].
  destruct ((len (drop_nan (drop_nan xs)) <? 10) ||
            negb (dict_mem (regression p) regression_types) ||
            negb (dict_mem (lags_method p) lags_methods) || (max_lags p <? 0)) eqn:Hc.
  { destruct (test_stationarity_silent E _ _ _ _ Hc) as [msg ->].
    apply (finish_raise [_; _]). constructor. }
  destruct (test_stationarity_valid E _ _ _ _ Hc) as (rd & ld & _ & _ & Hts).
  cbn zeta in Hts. rewrite drop_nan_idem in Hts. rewrite Hts. clear Hts.
  assert (Hok : call_ok p (drop_nan xs)).
  { rewrite drop_nan_idem in Hc.
    apply orb_false_iff in Hc. destruct Hc as [Hc Hm].
    apply orb_false_iff in Hc. destruct Hc as [Hc Hl].
    apply orb_false_iff in Hc. destruct Hc as [_ Hr].
    apply negb_false_iff in Hr, Hl. apply Z.ltb_ge in Hm.
    split; [done|]. split; [apply drop_nan_idem|]. done. }
  destruct (adfuller E _ _ _ _) as [e|r] eqn:Hadf.
  { by apply (jt_adfuller_raised E task_id p (drop_nan xs) e). }
  set (adf_result := result_dict _ _ _ _ _ _ _).
  erewrite bind_ok by reflexivity. rewrite set_then.
  rewrite (bind_silent (get_interpretation E adf_result))
    by apply silent_get_interpretation.
  destruct (result (get_interpretation E adf_result)) as [interpretation|ex].
  2:{ by apply (jt_report_raised E task_id p (drop_nan xs) r ex). }
  rewrite (bind_silent (_generate_recommendations adf_result _))
    by apply silent_generate_recommendations.
  destruct (result (_generate_recommendations adf_result _)) as [recommendations|ex].
  2:{ by apply (jt_report_raised E task_id p (drop_nan xs) r ex). }
  by eapply (jt_succeeded E task_id p (drop_nan xs) r).
Qed.

(** Every job performs one of the ten sequences of [job_tail] after its
    first three actions. *)
Lemma job_script_forms :
  exists tail,
    trace (_analyze_file_worker E task_id p) =
      AAcquire :: ASet task_id running_update ::
      ASet task_id (progress_update 0.2) :: tail /\
    job_tail E task_id p tail.
Proof.
  assert (Hb : exists b : Prog unit,
    job_tail E task_id p (finish E task_id b) /\
    _analyze_file_worker E task_id p =
    try_except
      (with_TASKS_SEM
         (_set_task task_id running_update;;
          _set_task task_id (progress_update 0.2);;
          b))
      (fun ex => _set_task task_id (raised_update E ex))).
  { eexists. split; [|reflexivity]. cbv zeta.
    destruct (truthy (csv p)); cbn [String.eqb Ascii.eqb Bool.eqb].
    - apply (finish_bind_silent []); [auto with silent | constructor|]. intros df _.
      destruct (negb (str_in (timestamp_col p) (columns df)));
        [apply (finish_last []); constructor|].
      destruct (negb (str_in (value_col p) (columns df)));
        [apply (finish_last []); constructor|].
      destruct (String.eqb (analysis_type p) "log_analysis");
        (apply (finish_bind_silent []); [auto with silent | constructor|]; intros ts _;
         apply analyze_series_tail).
    - apply (finish_bind_silent []); [auto with silent | constructor|]. intros lines _.
      apply (finish_bind_silent []); [auto with silent | constructor|]. intros data _.
      apply analyze_series_tail. }
  destruct Hb as (b & Hb & ->).
  exists (finish E task_id b). split; [|done].
  unfold finish. destruct b as [t [[]|ex]]; cbn; by rewrite <- ?app_assoc.
Qed.
End JobTail.

(** X1. After taking the semaphore, marking the task running and writing
    the progress mark 0.2, a job performs one of the ten sequences of
    actions of [job_tail]: it reports a missing column, a short series or a
    series that is short once cleaned, and releases the semaphore; or it
    raises (while loading, in the NaN mask, in the checks of the test, in
    the external routine, in the report), releases the semaphore and then
    marks the task failed in its handler; or it succeeds. *)
Theorem job_action_sequences E task_id p :
  exists tail,
    trace (_analyze_file_worker E task_id p) =
      AAcquire :: ASet task_id running_update ::
      ASet task_id (progress_update 0.2) :: tail /\
    job_tail E task_id p tail.
Proof. apply job_script_forms. Qed.

(** X2. A job takes the semaphore as its first action and gives it back
    exactly once, whatever its outcome; it takes it no second time and it
    starts no thread and creates no record. *)
Theorem job_semaphore_bracket E task_id p :
  let W := trace (_analyze_file_worker E task_id p) in
  (exists rest, W = AAcquire :: rest) /\
  List.filter is_sem W = [AAcquire; ARelease] /\
  Forall (fun a => match a with
                   | AStart _ | ACreate _ _ => False
                   | _ => True
                   end) W.
Proof.
  cbn zeta. destruct (job_script_forms E task_id p) as (tail & -> & Ht).
  split; [by eexists|].
  destruct Ht; split; (reflexivity || by repeat constructor).
Qed.

(** X3. A job writes exactly two statuses, both to its own task: [running]
    first and then one of [succeeded] and [failed]. *)
Theorem job_status_marks E task_id p :
  exists st,
    status_marks (trace (_analyze_file_worker E task_id p)) =
      [(task_id, Val (VStr "running")); (task_id, Val (VStr st))] /\
    (st = "succeeded" \/ st = "failed").
Proof.
  destruct (job_script_forms E task_id p) as (tail & -> & Ht).
  destruct Ht; (exists "failed"; split; [reflexivity | by right]) ||
               (exists "succeeded"; split; [reflexivity | by left]).
Qed.

(** X4. The progress values a job writes are an initial part of
    0.1, 0.2, 0.5, 0.7, 0.9, 1.0, of at least two values; the job writes
    1.0 exactly when it marks the task succeeded. *)
Theorem job_progress_marks E task_id p :
  let W := trace (_analyze_file_worker E task_id p) in
  exists k : nat,
    progress_marks W = firstn k progress_scale /\
    (2 <= k <= 6)%nat /\
    (k = 6%nat <-> In (task_id, Val (VStr "succeeded")) (status_marks W)).
Proof.
  cbn zeta. destruct (job_script_forms E task_id p) as (tail & -> & Ht).
  destruct Ht;
    [exists 2%nat|exists 2%nat|exists 2%nat|exists 3%nat|exists 3%nat|exists 3%nat
    |exists 4%nat|exists 4%nat|exists 5%nat|exists 6%nat];
    (split; [reflexivity|]); (split; [lia|]);
    (split; [intros; try lia; simpl; tauto|]);
    simpl; intros Hin; repeat (destruct Hin as [Hin|Hin]; try discriminate Hin);
    done.
Qed.

(** X5. A job calls the external routine at most once, and only on a
    cleaned series of at least 10 values without NaN, with a known
    regression type and lag method, and with a lag between 0 and the
    requested [max_lags] that is at most len // 2 - 1. *)
Theorem job_calls_routine_safely E task_id p :
  let W := trace (_analyze_file_worker E task_id p) in
  adfuller_calls W = [] \/
  exists x,
    adfuller_calls W = [job_call p x] /\
    call_ok p x /\
    0 <= Z.min (max_lags p) (len x / 2 - 1) <= max_lags p /\
    Z.min (max_lags p) (len x / 2 - 1) <= len x / 2 - 1.
Proof.
  cbn zeta. destruct (job_script_forms E task_id p) as (tail & -> & Ht).
  destruct Ht as [| | | | | | |x e Hok|x r ex Hok|x r res Hok]; try (by left);
    right; exists x; (split; [reflexivity|]); (split; [done|]);
    destruct Hok as (Hlen & _ & _ & _ & Hm);
    assert (4 <= len x / 2 - 1) by (assert (5 <= len x / 2) by (apply Z.div_le_lower_bound; lia); lia);
    lia.
Qed.

(** X6. Every update of a job is written to its own task and is of one of
    three kinds: a final update of a failure (status [failed],
    [completed_at], an error message, no result), the final update of a
    success (status [succeeded], [completed_at], progress 1.0, a result, no
    error), or an update that is not final (no [completed_at], no error, no
    result; it sets no status, or [running] with [started_at]).  The last
    update of a job is final and no other is. *)
Theorem job_updates E task_id p :
  exists marks last,
    map fst (updates_of (trace (_analyze_file_worker E task_id p))) =
      repeat task_id (length marks + 1) /\
    map snd (updates_of (trace (_analyze_file_worker E task_id p))) = marks ++ [last] /\
    Forall not_final marks /\
    (final_failure last \/ final_success last).
Proof.
  destruct (job_script_forms E task_id p) as (tail & -> & Ht).
  assert (Hr : not_final running_update).
  { repeat split; try reflexivity. right. by split. }
  assert (Hp : forall f, not_final (progress_update f)).
  { intros f. repeat split; try reflexivity. by left. }
  assert (Hf : forall msg, final_failure (failed_update msg)).
  { intros msg. repeat split; try reflexivity. by exists msg. }
  assert (He : forall ex, final_failure (raised_update E ex)).
  { intros ex. repeat split; try reflexivity. by eexists. }
  assert (Hs : forall res, final_success (succeeded_update res)).
  { intros res. repeat split; try reflexivity. by eexists. }
  destruct Ht; simpl.
  - eexists [_; _], _. split; [reflexivity|]. split; [reflexivity|].
    split; [repeat (apply List.Forall_cons; [by auto|]); apply List.Forall_nil | left; apply Hf].
  - eexists [_; _], _. split; [reflexivity|]. split; [reflexivity|].
    split; [repeat (apply List.Forall_cons; [by auto|]); apply List.Forall_nil | left; apply Hf].
  - eexists [_; _], _. split; [reflexivity|]. split; [reflexivity|].
    split; [repeat (apply List.Forall_cons; [by auto|]); apply List.Forall_nil | left; apply He].
  - eexists [_; _; _], _. split; [reflexivity|]. split; [reflexivity|].
    split; [repeat (apply List.Forall_cons; [by auto|]); apply List.Forall_nil | left; apply Hf].
  - eexists [_; _; _], _. split; [reflexivity|]. split; [reflexivity|].
    split; [repeat (apply List.Forall_cons; [by auto|]); apply List.Forall_nil | left; apply He].
  - eexists [_; _; _], _. split; [reflexivity|]. split; [reflexivity|].
    split; [repeat (apply List.Forall_cons; [by auto|]); apply List.Forall_nil | left; apply Hf].
  - eexists [_; _; _; _], _. split; [reflexivity|]. split; [reflexivity|].
    split; [repeat (apply List.Forall_cons; [by auto|]); apply List.Forall_nil | left; apply He].
  - eexists [_; _; _; _], _. split; [reflexivity|]. split; [reflexivity|].
    split; [repeat (apply List.Forall_cons; [by auto|]); apply List.Forall_nil | left; apply He].
  - eexists [_; _; _; _; _], _. split; [reflexivity|]. split; [reflexivity|].
    split; [repeat (apply List.Forall_cons; [by auto|]); apply List.Forall_nil | left; apply He].
  - eexists [_; _; _; _; _], _. split; [reflexivity|]. split; [reflexivity|].
    split; [repeat (apply List.Forall_cons; [by auto|]); apply List.Forall_nil | right; apply Hs].
Qed.

(** ** The synchronous tools and the tester *)

Lemma str_in_regression regression :
  str_in regression ["n"; "c"; "ct"] = dict_mem regression regression_types.
Proof.
  unfold str_in, dict_mem, regression_types. cbn [existsb dict_get].
  destruct (String.eqb regression "n"); [done|].
  destruct (String.eqb regression "c"); [done|].
  by destruct (String.eqb regression "ct").
Qed.

Lemma str_in_lags_method lags_method :
  str_in lags_method ["aic"; "bic"; "t-stat"] = dict_mem lags_method lags_methods.
Proof.
  unfold str_in, dict_mem, lags_methods. cbn [existsb dict_get].
  destruct (String.eqb lags_method "aic"); [done|].
  destruct (String.eqb lags_method "bic"); [done|].
  by destruct (String.eqb lags_method "t-stat").
Qed.

(** X7. [adf_test] rejects an unknown regression type, an unknown lag
    method and a negative [max_lags] with a failed response, without
    calling the external routine. *)
Theorem adf_test_rejects_arguments E data regression max_lags lags_method :
  str_in regression ["n"; "c"; "ct"] = false \/
  str_in lags_method ["aic"; "bic"; "t-stat"] = false \/
  max_lags < 0 ->
  exists msg,
    adf_test E data regression max_lags lags_method = ([], Ok (failed msg)).
Proof.
  intros Hbad. unfold adf_test.
  destruct (is_empty data || (len data <? 10)); [by eexists|].
  destruct (str_in regression ["n"; "c"; "ct"]) eqn:Hr; cbn [negb]; [|by eexists].
  destruct (str_in lags_method ["aic"; "bic"; "t-stat"]) eqn:Hl; cbn [negb]; [|by eexists].
  destruct Hbad as [?|[?|Hm]]; try discriminate.
  destruct (test_stationarity_silent E data regression max_lags lags_method) as [msg ->].
  { apply Z.ltb_lt in Hm. rewrite Hm. by rewrite !orb_true_r. }
  by eexists.
Qed.

Lemma adf_test_rejects_arguments_witness :
  exists msg, adf_test sample_env twelve_points "ctt" 10 "aic" = ([], Ok (failed msg)).
Proof.
  apply (adf_test_rejects_arguments sample_env twelve_points "ctt" 10 "aic").
  left. reflexivity.
Defined.

(** X8. On a series of at least 10 values after cleaning, with a known
    regression type and lag method and a non-negative [max_lags], [adf_test]
    calls the external routine once with the clamped lag.  If the routine
    raises, the response is failed and its message is that of the exception
    after a fixed prefix; if it returns, the response is a success whose
    result reports the statistic and the p-value of the routine, the series
    as stationary exactly when the p-value is below 0.05, the length of the
    cleaned series and the lag that was passed. *)
Theorem adf_test_valid E data regression max_lags lags_method :
  10 <= len (drop_nan data) ->
  str_in regression ["n"; "c"; "ct"] = true ->
  str_in lags_method ["aic"; "bic"; "t-stat"] = true ->
  0 <= max_lags ->
  let x := drop_nan data in
  let lag := Z.min max_lags (len x / 2 - 1) in
  trace (adf_test E data regression max_lags lags_method) =
    [AAdfuller x regression lag lags_method] /\
  match adfuller E x regression lag lags_method with
  | inl e =>
      result (adf_test E data regression max_lags lags_method) =
      Ok (failed ("ADF检验执行失败: " +:+ str_exn e))
  | inr r =>
      exists res,
        result (adf_test E data regression max_lags lags_method) =
          Ok [("status", VStr "success"); ("result", VDict res)] /\
        dict_get "statistic" res = Some (VFloat (adfstat r)) /\
        dict_get "p_value" res = Some (VFloat (pvalue r)) /\
        dict_get "is_stationary" res = Some (VBool (pvalue r <? 0.05)%float) /\
        dict_get "lags_used" res = Some (VInt (usedlag r)) /\
        dict_get "data_length" res = Some (VInt (len x)) /\
        dict_get "max_lags" res = Some (VInt lag) /\
        dict_get "regression_type" res = Some (VStr regression) /\
        dict_get "lags_method" res = Some (VStr lags_method)
  end.
Proof.
  intros Hn Hr Hl Hm. cbn zeta.
  assert (Hraw : is_empty data || (len data <? 10) = false).
  { pose proof (drop_nan_length data). unfold len in *.
    destruct data as [|a data]; [simpl in Hn; lia|]. simpl is_empty.
    apply Z.ltb_ge. simpl length in *. lia. }
  destruct (test_stationarity_valid E data regression max_lags lags_method)
    as (rd & ld & _ & _ & Hts).
  { rewrite <- str_in_regression, <- str_in_lags_method, Hr, Hl. cbn [negb orb].
    rewrite !orb_false_r. apply orb_false_iff.
    split; [by apply Z.ltb_ge | by apply Z.ltb_ge]. }
  cbn zeta in Hts. unfold adf_test. rewrite Hraw, Hr, Hl. cbn [negb]. rewrite Hts.
  destruct (adfuller E _ _ _ _) as [e|r]; [done|].
  split; [done|]. eexists. split; [reflexivity|]. repeat split; reflexivity.
Qed.

Lemma adf_test_valid_witness :
  let x := drop_nan twelve_points in
  let lag := Z.min 3 (len x / 2 - 1) in
  trace (adf_test sample_env twelve_points "c" 3 "aic") = [AAdfuller x "c" lag "aic"] /\
  match adfuller sample_env x "c" lag "aic" with
  | inl e =>
      result (adf_test sample_env twelve_points "c" 3 "aic") =
      Ok (failed ("ADF检验执行失败: " +:+ str_exn e))
  | inr r =>
      exists res,
        result (adf_test sample_env twelve_points "c" 3 "aic") =
          Ok [("status", VStr "success"); ("result", VDict res)] /\
        dict_get "statistic" res = Some (VFloat (adfstat r)) /\
        dict_get "p_value" res = Some (VFloat (pvalue r)) /\
        dict_get "is_stationary" res = Some (VBool (pvalue r <? 0.05)%float) /\
        dict_get "lags_used" res = Some (VInt (usedlag r)) /\
        dict_get "data_length" res = Some (VInt (len x)) /\
        dict_get "max_lags" res = Some (VInt lag) /\
        dict_get "regression_type" res = Some (VStr "c") /\
        dict_get "lags_method" res = Some (VStr "aic")
  end.
Proof.
  apply (adf_test_valid sample_env twelve_points "c" 3 "aic").
  - vm_compute. discriminate.
  - reflexivity.
  - reflexivity.
  - lia.
Defined.

(** X9. [get_interpretation] reads the keys statistic, p_value,
    is_stationary and critical_values first, in this order, and raises
    KeyError for the first of them that the dictionary lacks, before it
    formats anything. *)
Theorem get_interpretation_missing_key E d :
  match dict_get "statistic" d, dict_get "p_value" d, dict_get "is_stationary" d,
        dict_get "critical_values" d with
  | None, _, _, _ =>
      get_interpretation E d = ([], Raised (KeyError "statistic"))
  | Some _, None, _, _ =>
      get_interpretation E d = ([], Raised (KeyError "p_value"))
  | Some _, Some _, None, _ =>
      get_interpretation E d = ([], Raised (KeyError "is_stationary"))
  | Some _, Some _, Some _, None =>
      get_interpretation E d = ([], Raised (KeyError "critical_values"))
  | Some _, Some _, Some _, Some _ => True
  end.
Proof.
  unfold get_interpretation, getitem.
  destruct (dict_get "statistic" d) as [v1|]; [|done].
  destruct (dict_get "p_value" d) as [v2|]; [|done].
  destruct (dict_get "is_stationary" d) as [v3|]; [|done].
  by destruct (dict_get "critical_values" d) as [v4|].
Qed.

(** The formats of six decimals are the only step of [get_interpretation]
    that can fail on a dictionary built by [test_stationarity]. *)
Lemma interpretation_of_result_dict E r regression rd lags_method ld n maxlag :
  (forall f, exists s, format_6f E (VFloat f) = inr s) ->
  exists text,
    get_interpretation E (result_dict r regression rd lags_method ld n maxlag) =
    ([], Ok text).
Proof.
  intros Hfmt.
  destruct (Hfmt (adfstat r)) as [s1 H1], (Hfmt (pvalue r)) as [s2 H2],
    (Hfmt (crit_1 r)) as [s3 H3], (Hfmt (crit_5 r)) as [s4 H4],
    (Hfmt (crit_10 r)) as [s5 H5].
  unfold get_interpretation, result_dict.
  cbn [getitem dict_get String.eqb Ascii.eqb Bool.eqb mbind Prog_bind mret Prog_ret
       subscript lift lt_005 app fst snd].
  rewrite ?H1, ?H2. cbn [lift mbind Prog_bind mret Prog_ret app fst snd subscript getitem
       dict_get String.eqb Ascii.eqb Bool.eqb].
  rewrite ?H3. cbn. rewrite ?H4. cbn. rewrite ?H5. cbn. rewrite ?H2. cbn.
  by eexists.
Qed.

(** X10. On every dictionary that [test_stationarity] builds,
    [get_interpretation] returns a text and raises nothing, as long as the
    six-decimal format of a float is defined. *)
Theorem get_interpretation_of_result E r regression rd lags_method ld n maxlag :
  (forall f, exists s, format_6f E (VFloat f) = inr s) ->
  exists text,
    get_interpretation E (result_dict r regression rd lags_method ld n maxlag) =
    ([], Ok text).
Proof. apply interpretation_of_result_dict. Qed.

Lemma get_interpretation_of_result_witness :
  exists text,
    get_interpretation sample_env (result_dict sample_tuple "c" "有常数项" "aic" "Akaike信息准则" 12 3) =
    ([], Ok text).
Proof.
  apply (get_interpretation_of_result sample_env sample_tuple "c" "有常数项" "aic"
           "Akaike信息准则" 12 3).
  intros f. eexists. reflexivity.
Defined.

(** X11. [_generate_recommendations] raises KeyError when the result has no
    key is_stationary.  Otherwise it returns two recommendations chosen by
    the truth value of that entry, followed by a third one about the amount
    of data exactly when the series has fewer than 100 values. *)
Theorem generate_recommendations_cases adf_result data_length :
  match dict_get "is_stationary" adf_result with
  | None =>
      _generate_recommendations adf_result data_length =
      ([], Raised (KeyError "is_stationary"))
  | Some v =>
      exists first second,
        (first, second) =
          (if val_truthy v
           then ("时间序列是平稳的，适合进行ARIMA建模", "可以考虑进行短期预测")
           else ("时间序列是非平稳的，建议进行差分处理", "可以考虑使用ARIMA模型进行建模")) /\
        _generate_recommendations adf_result data_length =
        ([], Ok (if data_length <? 100
                 then [first; second; "数据量较少，建议收集更多数据以提高分析可靠性"]
                 else [first; second]))
  end.
Proof.
  unfold _generate_recommendations, getitem.
  destruct (dict_get "is_stationary" adf_result) as [v|]; [|done].
  cbn [mbind Prog_bind mret Prog_ret app fst snd].
  destruct (val_truthy v); do 2 eexists; (split; [reflexivity|]);
    by destruct (data_length <? 100).
Qed.

(** X23. [adf_interpret] never returns an interpretation: the dictionary it
    hands to [get_interpretation] has no key is_stationary, so for every
    input the tool answers with the failure that carries the text of the
    KeyError, and it calls nothing. *)
Theorem adf_interpret_never_succeeds E statistic p_value critical_values regression :
  adf_interpret E statistic p_value critical_values regression =
    ([], Ok [("status", VStr "failed"); ("error", VStr "'is_stationary'")]) /\
  dict_get "interpretation"
    (match result (adf_interpret E statistic p_value critical_values regression) with
     | Ok d => d
     | Raised _ => []
     end) = None.
Proof. split; reflexivity. Qed.

(** ** The two batch functions *)

Lemma batch_test_item_spec E regression max_lags lags_method name data results :
  batch_test_item E regression max_lags lags_method name data results =
  (trace (test_stationarity E data regression max_lags lags_method),
   Ok (dict_set name
         (VDict (core_entry (result (test_stationarity E data regression max_lags lags_method))))
         results)).
Proof.
  unfold batch_test_item.
  by destruct (test_stationarity E data regression max_lags lags_method) as [t [r|e]];
    simpl; rewrite ?app_nil_r.
Qed.

Lemma batch_test_loop_spec E regression max_lags lags_method items results :
  batch_test_loop E regression max_lags lags_method items results =
  (concat (map (fun nd => trace (test_stationarity E (snd nd) regression max_lags lags_method))
             items),
   Ok (fold_left
         (fun acc nd =>
            dict_set (fst nd)
              (VDict (core_entry
                        (result (test_stationarity E (snd nd) regression max_lags lags_method))))
              acc)
         items results)).
Proof.
  revert results. induction items as [|[name data] items IH]; intros results; [done|].
  cbn [batch_test_loop]. rewrite batch_test_item_spec.
  cbn [mbind Prog_bind]. by rewrite IH.
Qed.

(** The length check of [adf_batch_test] answers what [test_stationarity]
    would have raised. *)
Lemma item_outcome_tool_entry E regression max_lags lags_method data :
  item_outcome E regression max_lags lags_method data =
  tool_entry (result (test_stationarity E data regression max_lags lags_method)).
Proof.
  unfold item_outcome.
  destruct (Z.ltb_spec (len data) 10) as [Hlt|Hge]; [|done].
  rewrite test_stationarity_short; [done|].
  pose proof (drop_nan_length data). unfold len in *. lia.
Qed.

Lemma batch_item_spec E regression max_lags lags_method name data results :
  batch_item E regression max_lags lags_method name data results =
  (trace (test_stationarity E data regression max_lags lags_method),
   Ok (dict_set name
         (VDict (tool_entry (result (test_stationarity E data regression max_lags lags_method))))
         results)).
Proof.
  unfold batch_item.
  destruct (Z.ltb_spec (len data) 10) as [Hlt|Hge].
  - rewrite test_stationarity_short; [done|].
    pose proof (drop_nan_length data). unfold len in *. lia.
  - by destruct (test_stationarity E data regression max_lags lags_method) as [t [r|e]];
      simpl; rewrite ?app_nil_r.
Qed.

Lemma batch_loop_spec E regression max_lags lags_method items results :
  batch_loop E regression max_lags lags_method items results =
  (concat (map (fun nd => trace (test_stationarity E (snd nd) regression max_lags lags_method))
             items),
   Ok (fold_left
         (fun acc nd =>
            dict_set (fst nd)
              (VDict (tool_entry
                        (result (test_stationarity E (snd nd) regression max_lags lags_method))))
              acc)
         items results)).
Proof.
  revert results. induction items as [|[name data] items IH]; intros results; [done|].
  cbn [batch_loop]. rewrite batch_item_spec.
  cbn [mbind Prog_bind]. by rewrite IH.
Qed.

(** X12. [ADFTester.batch_test] never raises, on an empty input it returns
    an empty dictionary, and in general its result has exactly the names of
    the input as keys.  The entry of a series is the result of
    [test_stationarity] on this series alone or, when that call raises, the
    dictionary with the message under error and success set to False:
    a series that fails does not affect the entries of the others. *)
Theorem batch_test_entries E data_dict regression max_lags lags_method :
  exists results,
    result (batch_test E data_dict regression max_lags lags_method) = Ok results /\
    List.NoDup (dict_keys results) /\
    (forall name, In name (dict_keys results) <-> In name (dict_keys data_dict)) /\
    (List.NoDup (dict_keys data_dict) ->
     forall name data, In (name, data) data_dict ->
       dict_get name results =
       Some (VDict (core_entry
                      (result (test_stationarity E data regression max_lags lags_method))))).
Proof.
  unfold batch_test. rewrite batch_test_loop_spec. eexists. split; [reflexivity|].
  split; [|split].
  - apply (fold_set_keys_NoDup
             (fun data =>
                VDict (core_entry
                         (result (test_stationarity E data regression max_lags lags_method))))).
    constructor.
  - intros name.
    rewrite (fold_set_keys_In
               (fun data =>
                  VDict (core_entry
                           (result (test_stationarity E data regression max_lags lags_method))))).
    simpl. tauto.
  - intros Hnd name data Hin.
    rewrite (fold_set_fresh
               (fun data =>
                  VDict (core_entry
                           (result (test_stationarity E data regression max_lags lags_method)))))
      by (done || (intros k _ [])).
    simpl.
    by apply (dict_get_map_NoDup
                (fun data =>
                   VDict (core_entry
                            (result (test_stationarity E data regression max_lags lags_method))))).
Qed.

Lemma batch_test_entries_witness :
  exists results,
    result (batch_test sample_env [("a", nine_points); ("b", twelve_points)] "c" 3 "aic") =
      Ok results /\
    List.NoDup (dict_keys results) /\
    (forall name, In name (dict_keys results) <->
                  In name (dict_keys [("a", nine_points); ("b", twelve_points)])) /\
    (List.NoDup (dict_keys [("a", nine_points); ("b", twelve_points)]) ->
     forall name data, In (name, data) [("a", nine_points); ("b", twelve_points)] ->
       dict_get name results =
       Some (VDict (core_entry (result (test_stationarity sample_env data "c" 3 "aic"))))).
Proof.
  apply (batch_test_entries sample_env [("a", nine_points); ("b", twelve_points)] "c" 3 "aic").
Defined.

(** X13. On a non-empty input without repeated names, the tool
    [adf_batch_test] and [ADFTester.batch_test] make the same calls of the
    external routine in the same order and report the same outcomes, series
    by series and in the order of the input; they differ only in the shape
    of an entry.  In particular the length check that the tool makes itself
    gives the answer that [test_stationarity] would have given. *)
Theorem batch_functions_agree E data_dict regression max_lags lags_method :
  data_dict <> [] ->
  List.NoDup (dict_keys data_dict) ->
  let outcome_of data :=
    result (test_stationarity E data regression max_lags lags_method) in
  trace (adf_batch_test E data_dict regression max_lags lags_method) =
    trace (batch_test E data_dict regression max_lags lags_method) /\
  result (adf_batch_test E data_dict regression max_lags lags_method) =
    Ok [("status", VStr "success");
        ("results",
          VDict (map (fun nd => (fst nd, VDict (tool_entry (outcome_of (snd nd)))))
                   data_dict))] /\
  result (batch_test E data_dict regression max_lags lags_method) =
    Ok (map (fun nd => (fst nd, VDict (core_entry (outcome_of (snd nd))))) data_dict).
Proof.
  intros Hne Hnd. cbn zeta. unfold adf_batch_test, batch_test.
  destruct data_dict as [|nd data_dict]; [done|]. cbn [is_empty].
  rewrite batch_loop_spec, batch_test_loop_spec.
  cbn [mbind Prog_bind try_except mret Prog_ret trace result fst snd].
  rewrite app_nil_r.
  rewrite (fold_set_fresh
             (fun data =>
                VDict (tool_entry
                         (result (test_stationarity E data regression max_lags lags_method)))))
    by (done || (intros k _ [])).
  rewrite (fold_set_fresh
             (fun data =>
                VDict (core_entry
                         (result (test_stationarity E data regression max_lags lags_method)))))
    by (done || (intros k _ [])).
  done.
Qed.

Lemma batch_functions_agree_witness :
  let data_dict := [("a", nine_points); ("b", twelve_points)] in
  let outcome_of data := result (test_stationarity sample_env data "c" 3 "aic") in
  trace (adf_batch_test sample_env data_dict "c" 3 "aic") =
    trace (batch_test sample_env data_dict "c" 3 "aic") /\
  result (adf_batch_test sample_env data_dict "c" 3 "aic") =
    Ok [("status", VStr "success");
        ("results",
          VDict (map (fun nd => (fst nd, VDict (tool_entry (outcome_of (snd nd)))))
                   data_dict))] /\
  result (batch_test sample_env data_dict "c" 3 "aic") =
    Ok (map (fun nd => (fst nd, VDict (core_entry (outcome_of (snd nd))))) data_dict).
Proof.
  apply (batch_functions_agree sample_env [("a", nine_points); ("b", twelve_points)]
           "c" 3 "aic").
  - discriminate.
  - repeat constructor; simpl; intuition discriminate.
Defined.

(** ** The registry *)

Lemma dict_update_get_other {V} k (d u : list (string * V)) :
  dict_get k u = None -> dict_get k (dict_update d u) = dict_get k d.
Proof.
  unfold dict_update. revert d.
  induction u as [|[k' v'] u IH]; intros d; simpl; [done|].
  destruct (String.eqb k k') eqn:Hk; [done|]. intros Hu.
  rewrite IH by done. apply dict_get_set_ne. by apply String.eqb_neq.
Qed.

Lemma dict_update_get_new {V} k v (d u : list (string * V)) :
  List.NoDup (dict_keys u) -> dict_get k u = Some v ->
  dict_get k (dict_update d u) = Some v.
Proof.
  revert d. induction u as [|[k' v'] u IH]; intros d Hnd; simpl; [done|].
  inversion Hnd as [|? ? Hni Hnd']; subst.
  destruct (String.eqb k k') eqn:Hk.
  - apply String.eqb_eq in Hk. subst k'. intros [= ->].
    change (dict_get k (dict_update (dict_set k v d) u) = Some v).
    rewrite dict_update_get_other; [apply dict_get_set_eq|].
    by apply dict_get_None.
  - intros Hu. by apply (IH (dict_set k' v' d)).
Qed.

Lemma dict_update_keys {V} k (d u : list (string * V)) :
  In k (dict_keys d) -> In k (dict_keys (dict_update d u)).
Proof.
  rewrite <- !dict_get_In, (dict_get_update k d u).
  by destruct (dict_get k (dict_update [] u)).
Qed.

Lemma dict_keys_set_old {V} k (v : V) d :
  In k (dict_keys d) -> dict_keys (dict_set k v d) = dict_keys d.
Proof.
  induction d as [|[k' v'] d IH]; simpl; [done|].
  destruct (String.eqb k k') eqn:Hk.
  - apply String.eqb_eq in Hk. by subst.
  - apply String.eqb_neq in Hk. intros [?|Hin]; [congruence|].
    simpl. f_equal. by apply IH.
Qed.

Lemma list_TASKS r : allocated r -> TASKS (snd (_list_tasks r)) = TASKS r.
Proof. intros Ha. by destruct (copy_each_spec (map snd (TASKS r)) r Ha) as [? _]. Qed.

Lemma apply_op_allocated r op : allocated r -> allocated (apply_op r op).
Proof. intros Ha. apply (apply_ops_allocated [op] r Ha). Qed.

Lemma apply_op_separate r op : allocated r -> separate r -> separate (apply_op r op).
Proof.
  intros Ha Hs. destruct op as [t task|t u|t|]; cbn [apply_op].
  - by apply create_separate.
  - by apply set_separate.
  - unfold separate, _get_task. by rewrite alloc_TASKS.
  - unfold separate. by rewrite list_TASKS.
Qed.

Lemma apply_op_keys r op :
  allocated r ->
  dict_keys (TASKS (apply_op r op)) =
  match op with
  | OpCreate task_id _ =>
      if dict_mem task_id (TASKS r) then dict_keys (TASKS r)
      else dict_keys (TASKS r) ++ [task_id]
  | _ => dict_keys (TASKS r)
  end.
Proof.
  intros Ha. destruct op as [t task|t u|t|]; cbn [apply_op].
  - rewrite create_TASKS. destruct (dict_mem t (TASKS r)) eqn:Hm.
    + apply dict_keys_set_old. by apply dict_mem_In.
    + rewrite dict_set_new.
      * unfold dict_keys. by rewrite map_app.
      * rewrite <- dict_mem_In. by rewrite Hm.
  - by rewrite set_TASKS.
  - unfold _get_task. by rewrite alloc_TASKS.
  - by rewrite list_TASKS.
Qed.

Lemma apply_op_NoDup r op :
  allocated r -> List.NoDup (dict_keys (TASKS r)) ->
  List.NoDup (dict_keys (TASKS (apply_op r op))).
Proof.
  intros Ha Hnd. destruct op as [t task|t u|t|]; cbn [apply_op].
  - rewrite create_TASKS. by apply dict_keys_set_NoDup.
  - by rewrite set_TASKS.
  - unfold _get_task. by rewrite alloc_TASKS.
  - by rewrite list_TASKS.
Qed.

Lemma apply_ops_wf ops r :
  allocated r -> separate r -> List.NoDup (dict_keys (TASKS r)) ->
  allocated (apply_ops ops r) /\ separate (apply_ops ops r) /\
  List.NoDup (dict_keys (TASKS (apply_ops ops r))).
Proof.
  revert r. induction ops as [|op ops IH]; intros r Ha Hs Hnd; [done|].
  cbn [apply_ops fold_left]. apply IH.
  - by apply apply_op_allocated.
  - by apply apply_op_separate.
  - by apply apply_op_NoDup.
Qed.

Lemma built_wf ops :
  allocated (apply_ops ops empty_registry) /\ separate (apply_ops ops empty_registry) /\
  List.NoDup (dict_keys (TASKS (apply_ops ops empty_registry))).
Proof.
  apply apply_ops_wf; [apply empty_allocated | by intros t1 t2 l | constructor].
Qed.

Lemma record_of_is_Some r task_id :
  allocated r -> is_Some (record_of r task_id) <-> In task_id (dict_keys (TASKS r)).
Proof.
  intros Ha. rewrite <- dict_get_In. unfold record_of.
  destruct (dict_get task_id (TASKS r)) as [l|] eqn:Hl.
  - split; [by eexists|]. intros _. apply (Ha task_id). by apply dict_get_Some_In.
  - split; by intros [? ?].
Qed.

Lemma copy_each_length ls r : length (fst (copy_each ls r)) = length ls.
Proof.
  revert r. induction ls as [|l ls IH]; intros r; [done|].
  cbn [copy_each]. destruct (alloc _ r) as [c r1]. specialize (IH r1).
  destruct (copy_each ls r1) as [cs r2]. simpl in *. by rewrite IH.
Qed.

(** X14. In a registry built by any operations, [_set_task] changes the
    record of the named task only: the other records and the keys of
    [TASKS] stay as they are, and for an unknown id nothing changes at all.
    In the record of the task, every key of the update gets its new value,
    every other key keeps its value, and no key is removed. *)
Theorem set_task_changes_one_record ops task_id updates :
  let r := apply_ops ops empty_registry in
  let r' := _set_task_locked task_id updates r in
  TASKS r' = TASKS r /\
  (record_of r task_id = None -> r' = r) /\
  (forall other, other <> task_id -> record_of r' other = record_of r other) /\
  (forall d, record_of r task_id = Some d ->
     exists d',
       record_of r' task_id = Some d' /\
       (forall key, In key (dict_keys d) -> In key (dict_keys d')) /\
       (forall key, dict_get key updates = None -> dict_get key d' = dict_get key d) /\
       (List.NoDup (dict_keys updates) ->
        forall key v, dict_get key updates = Some v -> dict_get key d' = Some v)).
Proof.
  intros r r'. destruct (built_wf ops) as (Ha & Hs & _). fold r in Ha, Hs.
  split; [apply set_TASKS|]. split; [apply record_of_set_absent|].
  split; [intros other Hne; by apply record_of_set_other|].
  intros d Hd. exists (dict_update d updates).
  split; [by apply record_of_set|]. split; [|split].
  - intros key. apply dict_update_keys.
  - intros key. apply dict_update_get_other.
  - intros Hnd key v. by apply dict_update_get_new.
Qed.

Lemma set_task_changes_one_record_witness :
  let r := apply_ops [OpCreate "t1" [("status", VStr "queued"); ("error", VNone)]]
             empty_registry in
  let updates := [("status", VStr "running")] in
  let r' := _set_task_locked "t1" updates r in
  TASKS r' = TASKS r /\
  (record_of r "t1" = None -> r' = r) /\
  (forall other, other <> "t1" -> record_of r' other = record_of r other) /\
  (forall d, record_of r "t1" = Some d ->
     exists d',
       record_of r' "t1" = Some d' /\
       (forall key, In key (dict_keys d) -> In key (dict_keys d')) /\
       (forall key, dict_get key updates = None -> dict_get key d' = dict_get key d) /\
       (List.NoDup (dict_keys updates) ->
        forall key v, dict_get key updates = Some v -> dict_get key d' = Some v)).
Proof.
  apply (set_task_changes_one_record
           [OpCreate "t1" [("status", VStr "queued"); ("error", VNone)]]
           "t1" [("status", VStr "running")]).
Defined.

(** X15. The registry only grows.  In a registry built by any operations
    the task ids are pairwise distinct and each has a record; an operation
    removes no task and keeps the order of the ids, updates and reads add
    none, and a creation under a new id puts this id last. *)
Theorem registry_only_grows ops op :
  let r := apply_ops ops empty_registry in
  let r' := apply_op r op in
  List.NoDup (dict_keys (TASKS r)) /\
  (forall task_id, In task_id (dict_keys (TASKS r)) <-> is_Some (record_of r task_id)) /\
  (forall task_id, is_Some (record_of r task_id) -> is_Some (record_of r' task_id)) /\
  dict_keys (TASKS r') =
    match op with
    | OpCreate task_id _ =>
        if dict_mem task_id (TASKS r) then dict_keys (TASKS r)
        else dict_keys (TASKS r) ++ [task_id]
    | _ => dict_keys (TASKS r)
    end.
Proof.
  intros r r'. destruct (built_wf ops) as (Ha & Hs & Hnd). fold r in Ha, Hs, Hnd.
  split; [done|]. split; [intros task_id; symmetry; by apply record_of_is_Some|].
  split; [|by apply apply_op_keys].
  intros task_id. rewrite !record_of_is_Some by (done || by apply apply_op_allocated).
  unfold r'. rewrite apply_op_keys by done.
  destruct op as [t task|t u|t|]; try done.
  destruct (dict_mem t (TASKS r)); [done|]. rewrite in_app_iff. by left.
Qed.

Lemma registry_only_grows_witness :
  let r := apply_ops [OpCreate "t1" [("status", VStr "queued")]] empty_registry in
  let r' := apply_op r (OpCreate "t2" [("status", VStr "queued")]) in
  List.NoDup (dict_keys (TASKS r)) /\
  (forall task_id, In task_id (dict_keys (TASKS r)) <-> is_Some (record_of r task_id)) /\
  (forall task_id, is_Some (record_of r task_id) -> is_Some (record_of r' task_id)) /\
  dict_keys (TASKS r') =
    (if dict_mem "t2" (TASKS r) then dict_keys (TASKS r) else dict_keys (TASKS r) ++ ["t2"]).
Proof.
  apply (registry_only_grows [OpCreate "t1" [("status", VStr "queued")]]
           (OpCreate "t2" [("status", VStr "queued")])).
Defined.

(** X16. The tools [get_task] and [list_tasks] only read: in a registry
    built by any operations they leave [TASKS] and every record as they
    are.  [list_tasks] hands out one copy per task and its count is the
    number of tasks. *)
Theorem queries_only_read ops task_id :
  let r := apply_ops ops empty_registry in
  TASKS (snd (get_task task_id r)) = TASKS r /\
  (forall t, record_of (snd (get_task task_id r)) t = record_of r t) /\
  TASKS (snd (list_tasks r)) = TASKS r /\
  (forall t, record_of (snd (list_tasks r)) t = record_of r t) /\
  fst (fst (list_tasks r)) = len (TASKS r) /\
  len (snd (fst (list_tasks r))) = len (TASKS r).
Proof.
  intros r. destruct (built_wf ops) as (Ha & _ & _). fold r in Ha.
  assert (Hl : snd (list_tasks r) = snd (_list_tasks r) /\
               snd (fst (list_tasks r)) = fst (_list_tasks r) /\
               fst (fst (list_tasks r)) = len (fst (_list_tasks r))).
  { unfold list_tasks. by destruct (_list_tasks r). }
  destruct Hl as (-> & -> & ->).
  assert (Hlen : len (fst (_list_tasks r)) = len (TASKS r)).
  { unfold len, _list_tasks. by rewrite copy_each_length, length_map. }
  unfold get_task, _get_task. rewrite alloc_TASKS.
  split; [done|]. split; [intros t; by apply record_of_alloc|].
  split; [by apply list_TASKS|].
  split; [intros t; by apply record_of_copy_each|]. done.
Qed.

(** ** The server *)

(** X17. When exactly one of the two file arguments of [adf_analyze_file]
    is set and the file exists, the call answers [queued] with the task id;
    its only actions are the creation of the task record and the start of
    one thread that runs the job for this task.  Run in any server state in
    which the id is new, it leaves the record [queued] with progress 0.0,
    the parameters of the call and no result or error, the semaphore as it
    was, and the job as a new thread that has not started to run: the
    request itself never waits for a slot. *)
Theorem adf_analyze_file_accepts E task_id p s now1 now2 :
  truthy (csv p) = negb (truthy (txt p)) ->
  (forall path, (if truthy (csv p) then csv p else txt p) = Some path ->
                os_path_exists E path = true) ->
  dict_mem task_id (TASKS (reg s)) = false ->
  exists task,
    adf_analyze_file E task_id p =
      ([ACreate task_id task; AStart (trace (_analyze_file_worker E task_id p))],
       Ok [("status", VStr "queued"); ("task_id", VStr task_id);
           ("type", VStr "adf_analyze_file")]) /\
    exists s',
      run [LCall E task_id p; LRun (length (threads s)) now1;
           LRun (length (threads s)) now2] s = Some s' /\
      status_of (reg s') task_id = Some (VStr "queued") /\
      field_of (reg s') task_id "progress" = Some (VFloat 0.0) /\
      field_of (reg s') task_id "params" = Some (VDict (params_dict p)) /\
      field_of (reg s') task_id "created_at" = Some (VStr now1) /\
      field_of (reg s') task_id "result" = Some VNone /\
      field_of (reg s') task_id "error" = Some VNone /\
      TASKS_SEM s' = TASKS_SEM s /\
      threads s' =
        threads s ++ [(Request, []); (Background, trace (_analyze_file_worker E task_id p))].
Proof.
  intros Hone Hex Hnew.
  assert (Hscript : exists task,
    adf_analyze_file E task_id p =
      ([ACreate task_id task; AStart (trace (_analyze_file_worker E task_id p))],
       Ok [("status", VStr "queued"); ("task_id", VStr task_id);
           ("type", VStr "adf_analyze_file")]) /\
    forall now, eval_kwargs now task =
      [("id", VStr task_id); ("type", VStr "adf_analyze_file");
       ("params", VDict (params_dict p)); ("status", VStr "queued");
       ("progress", VFloat 0.0); ("created_at", VStr now); ("started_at", VNone);
       ("completed_at", VNone); ("result", VNone); ("error", VNone);
       ("traceback", VNone)]).
  { unfold adf_analyze_file. rewrite Hone.
    destruct (truthy (txt p)) eqn:Ht; cbn [andb orb negb].
    - rewrite Hone in Hex. cbn [negb] in Hex.
      destruct (txt p) as [path|] eqn:Htxt; [|discriminate].
      rewrite (Hex path eq_refl). cbn [negb].
      eexists. split; [reflexivity | done].
    - rewrite Hone in Hex. cbn [negb] in Hex.
      destruct (csv p) as [path|] eqn:Hcsv; [|discriminate].
      rewrite (Hex path eq_refl). cbn [negb].
      eexists. split; [reflexivity | done]. }
  destruct Hscript as (task & Hscript & Htask).
  exists task. split; [done|].
  set (W := trace (_analyze_file_worker E task_id p)) in *.
  set (n := length (threads s)).
  set (r1 := _create_task_locked task_id (eval_kwargs now1 task) (reg s)).
  exists {| reg := r1; TASKS_SEM := TASKS_SEM s;
            threads := threads s ++ [(Request, []); (Background, W)] |}.
  split.
  - rewrite run_cons, step_LCall, Hscript. cbn [trace fst].
    rewrite run_cons.
    erewrite (step_LRun n now1 _ Request (ACreate task_id task) [AStart W])
      by (cbn [threads]; by rewrite lookup_app_r, Nat.sub_diag).
    cbn [threads reg TASKS_SEM exec_action]. rewrite Hnew.
    rewrite insert_app_r_alt, Nat.sub_diag by done. cbn [insert list_insert].
    rewrite run_cons.
    erewrite (step_LRun n now2 _ Request (AStart W) [])
      by (cbn [threads set_reg]; by rewrite lookup_app_r, Nat.sub_diag).
    cbn [threads reg TASKS_SEM exec_action set_reg].
    rewrite insert_app_r_alt, Nat.sub_diag by done. cbn [insert list_insert].
    by rewrite <- app_assoc.
  - cbn [reg TASKS_SEM threads].
    assert (Hrec : record_of r1 task_id = Some (eval_kwargs now1 task))
      by apply record_of_create.
    unfold status_of, field_of. rewrite Hrec, Htask.
    repeat split; reflexivity.
Qed.

Lemma adf_analyze_file_accepts_witness :
  exists task,
    adf_analyze_file sample_env "a" (csv_request "a.csv") =
      ([ACreate "a" task;
        AStart (trace (_analyze_file_worker sample_env "a" (csv_request "a.csv")))],
       Ok [("status", VStr "queued"); ("task_id", VStr "a");
           ("type", VStr "adf_analyze_file")]) /\
    exists s',
      run [LCall sample_env "a" (csv_request "a.csv"); LRun (length (threads (init 2))) "t1";
           LRun (length (threads (init 2))) "t2"] (init 2) = Some s' /\
      status_of (reg s') "a" = Some (VStr "queued") /\
      field_of (reg s') "a" "progress" = Some (VFloat 0.0) /\
      field_of (reg s') "a" "params" = Some (VDict (params_dict (csv_request "a.csv"))) /\
      field_of (reg s') "a" "created_at" = Some (VStr "t1") /\
      field_of (reg s') "a" "result" = Some VNone /\
      field_of (reg s') "a" "error" = Some VNone /\
      TASKS_SEM s' = TASKS_SEM (init 2) /\
      threads s' =
        threads (init 2) ++
        [(Request, []);
         (Background, trace (_analyze_file_worker sample_env "a" (csv_request "a.csv")))].
Proof.
  apply (adf_analyze_file_accepts sample_env "a" (csv_request "a.csv") (init 2) "t1" "t2").
  - reflexivity.
  - intros path [= <-]. reflexivity.
  - reflexivity.
Defined.

(** X18. In every state the server reaches from its start with [capacity]
    slots, under any interleaving of requests and threads, the counter of
    [TASKS_SEM] lies between 0 and [capacity], the slots that are missing
    from it are exactly those the threads still have to give back, and at
    most [capacity] jobs are between their acquire and their release. *)
Theorem semaphore_bounds_jobs capacity s :
  0 <= capacity ->
  reachable capacity s ->
  0 <= TASKS_SEM s <= capacity /\
  TASKS_SEM s + held (threads s) = capacity /\
  len (jobs_inside s) <= capacity.
Proof.
  intros Hc Hr. destruct (reachable_sem_inv capacity s Hc Hr) as (H0 & Hsum & Hok).
  pose proof (held_nonneg _ Hok). pose proof (inside_count _ Hok).
  unfold jobs_inside. repeat split; lia.
Qed.

Lemma semaphore_bounds_jobs_witness :
  0 <= TASKS_SEM (state_after 1 race_schedule) <= 1 /\
  TASKS_SEM (state_after 1 race_schedule) + held (threads (state_after 1 race_schedule)) = 1 /\
  len (jobs_inside (state_after 1 race_schedule)) <= 1.
Proof.
  apply (semaphore_bounds_jobs 1 (state_after 1 race_schedule)).
  - lia.
  - exists race_schedule. vm_compute. reflexivity.
Defined.

(** ** A job from its first action to its last *)

(** A thread whose script only updates records, calls the external routine
    and releases the semaphore runs to its end without waiting. *)
Lemma run_free_script script : forall s i o now,
  threads s !! i = Some (o, script) ->
  Forall (fun a => match a with
                   | ASet _ _ | AAdfuller _ _ _ _ | ARelease => True
                   | _ => False
                   end) script ->
  run (replicate (length script) (LRun i now)) s =
  Some {| reg := fold_left
                   (fun r tu => _set_task_locked (fst tu) (eval_kwargs now (snd tu)) r)
                   (updates_of script) (reg s);
          TASKS_SEM := TASKS_SEM s + net script;
          threads := <[i := (o, [])]> (threads s) |}.
Proof.
  induction script as [|a script IH]; intros s i o now Hi Hfree.
  - destruct s as [r c ts]. cbn in *. f_equal. f_equal; [lia|].
    symmetry. by apply list_insert_id.
  - assert (Hlt : (i < length (threads s))%nat) by (by eapply lookup_lt_Some).
    inversion Hfree as [|? ? Ha Hrest]; subst.
    cbn [length replicate]. rewrite run_cons.
    rewrite (step_LRun i now s o a script Hi).
    destruct a as [x rg ml al|t task|t u| | |tg]; try done; cbn [exec_action set_reg reg TASKS_SEM threads].
    + rewrite (IH _ i o now); [|by cbn [threads]; apply list_lookup_insert_eq|done].
      cbn [reg TASKS_SEM threads updates_of]. rewrite net_cons. cbn [action_net].
      f_equal. f_equal; try lia; by rewrite list_insert_insert_eq.
    + rewrite (IH _ i o now); [|by cbn [threads]; apply list_lookup_insert_eq|done].
      cbn [reg TASKS_SEM threads updates_of fold_left fst snd]. rewrite net_cons.
      cbn [action_net]. f_equal. f_equal; try lia.
      cbn [set_reg threads]. by rewrite list_insert_insert_eq.
    + rewrite (IH _ i o now); [|by cbn [threads]; apply list_lookup_insert_eq|done].
      cbn [reg TASKS_SEM threads updates_of]. rewrite net_cons. cbn [action_net].
      f_equal. f_equal; try lia; by rewrite list_insert_insert_eq.
Qed.

Lemma keys_NoDup_4 (a b c d : string) :
  a <> b -> a <> c -> a <> d -> b <> c -> b <> d -> c <> d -> List.NoDup [a; b; c; d].
Proof. intros. repeat constructor; simpl; naive_solver. Qed.

Lemma keys_NoDup_3 (a b c : string) :
  a <> b -> a <> c -> b <> c -> List.NoDup [a; b; c].
Proof. intros. repeat constructor; simpl; naive_solver. Qed.

(** The value a chain of updates leaves under a key *)
Ltac read_field Hne :=
  repeat (rewrite dict_update_get_other by reflexivity);
  apply dict_update_get_new;
  [first [apply keys_NoDup_3 | apply keys_NoDup_4]; by apply Hne | reflexivity].

(** X19. A job whose task has a record and that finds a free slot runs to
    its end without waiting again: it gives the slot back, leaves the keys
    of [TASKS] as they are, and the record of its task ends with the times
    of start and completion and either with status succeeded, progress 1.0
    and a result, or with status failed and an error message. *)
Theorem job_runs_to_completion E task_id p s i now d :
  threads s !! i = Some (Background, trace (_analyze_file_worker E task_id p)) ->
  0 < TASKS_SEM s ->
  record_of (reg s) task_id = Some d ->
  exists s',
    run (replicate (length (trace (_analyze_file_worker E task_id p))) (LRun i now)) s =
      Some s' /\
    threads s' = <[i := (Background, [])]> (threads s) /\
    TASKS_SEM s' = TASKS_SEM s /\
    TASKS (reg s') = TASKS (reg s) /\
    field_of (reg s') task_id "started_at" = Some (VStr now) /\
    field_of (reg s') task_id "completed_at" = Some (VStr now) /\
    ((status_of (reg s') task_id = Some (VStr "succeeded") /\
      field_of (reg s') task_id "progress" = Some (VFloat 1.0) /\
      exists res, field_of (reg s') task_id "result" = Some (VDict res)) \/
     (status_of (reg s') task_id = Some (VStr "failed") /\
      exists msg, field_of (reg s') task_id "error" = Some (VStr msg))).
Proof.
  intros Hi Hsem Hd.
  destruct (job_script_forms E task_id p) as (tail & HW & Htail).
  rewrite HW in *. clear HW.
  assert (Hlt : (i < length (threads s))%nat) by (by eapply lookup_lt_Some).
  set (rest := ASet task_id running_update :: ASet task_id (progress_update 0.2) :: tail) in *.
  assert (Hfree : Forall (fun a => match a with
                                   | ASet _ _ | AAdfuller _ _ _ _ | ARelease => True
                                   | _ => False
                                   end) rest).
  { subst rest. destruct Htail; unfold job_call; repeat constructor. }
  assert (Hnet : net rest = 1).
  { subst rest. destruct Htail; reflexivity. }
  eexists. split.
  { cbn [length replicate]. rewrite run_cons.
    rewrite (step_LRun i now s Background AAcquire rest Hi).
    cbn [exec_action TASKS_SEM reg threads].
    destruct (Z.ltb_spec 0 (TASKS_SEM s)); [|lia].
    rewrite (run_free_script rest _ i Background now);
      [reflexivity | by cbn [threads]; apply list_lookup_insert_eq | done]. }
  cbn [reg TASKS_SEM threads]. rewrite Hnet.
  split; [by rewrite list_insert_insert_eq|]. split; [lia|].
  assert (Hrec : forall us r d0,
    record_of r task_id = Some d0 ->
    Forall (fun tu => fst tu = task_id) us ->
    TASKS (fold_left (fun r tu => _set_task_locked (fst tu) (eval_kwargs now (snd tu)) r)
             us r) = TASKS r /\
    record_of (fold_left (fun r tu => _set_task_locked (fst tu) (eval_kwargs now (snd tu)) r)
                 us r) task_id =
    Some (fold_left (fun d1 tu => dict_update d1 (eval_kwargs now (snd tu))) us d0)).
  { induction us as [|[t u] us IH]; intros r d0 Hr Hus; [done|].
    apply List.Forall_cons_iff in Hus as [Ht Hus']. simpl in Ht. subst t.
    cbn [fold_left fst snd].
    destruct (IH (_set_task_locked task_id (eval_kwargs now u) r)
                 (dict_update d0 (eval_kwargs now u))) as [HT HR];
      [by apply record_of_set | done |].
    split; [by rewrite HT, set_TASKS | done]. }
  destruct (Hrec (updates_of rest) (reg s) d Hd) as [HT HR].
  { subst rest. destruct Htail; unfold job_call; cbn [updates_of];
      repeat (apply List.Forall_cons; [reflexivity|]); apply List.Forall_nil. }
  split; [done|].
  unfold status_of, field_of. rewrite HR. clear HR HT Hrec Hfree Hnet.
  subst rest.
  assert (Hne : forall a b : string, String.eqb a b = false -> a <> b)
    by (intros a b; apply String.eqb_neq).
  destruct Htail; unfold job_call; cbn [updates_of fold_left snd];
    unfold running_update, progress_update, failed_update, raised_update, succeeded_update;
    (split; [read_field Hne|]); (split; [read_field Hne|]);
    first [ right; split; [|eexists]; read_field Hne
          | left; split; [|split; [|eexists]]; read_field Hne ].
Qed.

Lemma job_runs_to_completion_witness :
  exists s',
    run (replicate
           (length (trace (_analyze_file_worker sample_env "a" (csv_request "a.csv"))))
           (LRun 1 "2026-01-01T08:00:05+08:00")) job_started = Some s' /\
    threads s' = <[1%nat := (Background, [])]> (threads job_started) /\
    TASKS_SEM s' = TASKS_SEM job_started /\
    TASKS (reg s') = TASKS (reg job_started) /\
    field_of (reg s') "a" "started_at" = Some (VStr "2026-01-01T08:00:05+08:00") /\
    field_of (reg s') "a" "completed_at" = Some (VStr "2026-01-01T08:00:05+08:00") /\
    ((status_of (reg s') "a" = Some (VStr "succeeded") /\
      field_of (reg s') "a" "progress" = Some (VFloat 1.0) /\
      exists res, field_of (reg s') "a" "result" = Some (VDict res)) \/
     (status_of (reg s') "a" = Some (VStr "failed") /\
      exists msg, field_of (reg s') "a" "error" = Some (VStr msg))).
Proof.
  apply (job_runs_to_completion sample_env "a" (csv_request "a.csv") job_started 1
           "2026-01-01T08:00:05+08:00"
           (default [] (record_of (reg job_started) "a"))).
  - vm_compute. reflexivity.
  - vm_compute. reflexivity.
  - vm_compute. reflexivity.
Defined.

(** ** The job on its input files *)

Lemma read_values_spec E values data :
  read_values E values data = data ++ omap (py_float E) values.
Proof.
  unfold read_values. revert data.
  induction values as [|v values IH]; intros data; simpl; [by rewrite app_nil_r|].
  rewrite IH. destruct (py_float E v); [by rewrite <- app_assoc | done].
Qed.

Lemma read_lines_spec E delimiter lines : forall tokens data,
  Forall2 (fun line values => strip_split E line delimiter = inr values) lines tokens ->
  read_lines E delimiter lines data = ([], Ok (data ++ omap (py_float E) (concat tokens))).
Proof.
  induction lines as [|line lines IH]; intros tokens data Hs.
  - apply Forall2_nil_inv_l in Hs as ->. simpl. by rewrite app_nil_r.
  - apply Forall2_cons_inv_l in Hs as (values & tokens' & Hline & Hs & ->).
    cbn [read_lines]. rewrite Hline. cbn [lift]. rewrite mret_bind.
    rewrite (IH tokens') by done. rewrite read_values_spec.
    cbn [concat]. by rewrite omap_app, <- app_assoc.
Qed.

(** X20. The loop of the job over the lines of a TXT file performs no
    action.  When every line can be split it raises nothing: it appends to
    the data the values of the tokens that [float] accepts, in the order of
    the file, and skips every other token.  The first line that cannot be
    split ends the loop with the exception of the split. *)
Theorem read_lines_keeps_parsed_values E delimiter lines tokens data :
  Forall2 (fun line values => strip_split E line delimiter = inr values) lines tokens ->
  read_lines E delimiter lines data =
    ([], Ok (data ++ omap (py_float E) (concat tokens))) /\
  forall line e rest,
    strip_split E line delimiter = inl e ->
    read_lines E delimiter (lines ++ line :: rest) data = ([], Raised e).
Proof.
  intros Hs. split; [by apply read_lines_spec|].
  intros line e rest He. revert data.
  induction Hs as [|line0 values lines tokens Hline Hs IH]; intros data.
  - cbn [app read_lines]. by rewrite He.
  - cbn [app read_lines]. rewrite Hline. cbn [lift]. rewrite mret_bind. apply IH.
Qed.

Lemma read_lines_keeps_parsed_values_witness :
  read_lines sample_env " " ["3"; "x"; "4"] [1%float] =
    ([], Ok ([1%float] ++ omap (py_float sample_env) (concat [["3"]; ["x"]; ["4"]]))) /\
  forall line e rest,
    strip_split sample_env line " " = inl e ->
    read_lines sample_env " " (["3"; "x"; "4"] ++ line :: rest) [1%float] = ([], Raised e).
Proof.
  apply (read_lines_keeps_parsed_values sample_env " " ["3"; "x"; "4"]
           [["3"]; ["x"]; ["4"]] [1%float]).
  repeat constructor.
Defined.

(** X21. On a CSV file that [read_csv] parses, a job checks the timestamp
    column first and the value column second, whatever the analysis type:
    when one of them is not a column of the file, the job marks the task
    failed with a message that names the first missing one, releases the
    semaphore, and neither reads the data nor calls the external routine. *)
Theorem job_csv_missing_column E task_id p path df :
  truthy (csv p) = true ->
  csv p = Some path ->
  read_csv E path = inr df ->
  str_in (timestamp_col p) (columns df) = false \/
  str_in (value_col p) (columns df) = false ->
  let msg :=
    if str_in (timestamp_col p) (columns df)
    then "数值列 '" +:+ value_col p +:+ "' 不存在"
    else "时间戳列 '" +:+ timestamp_col p +:+ "' 不存在" in
  _analyze_file_worker E task_id p =
  ([AAcquire; ASet task_id running_update; ASet task_id (progress_update 0.2);
    ASet task_id (failed_update msg); ARelease], Ok tt).
Proof.
  intros Ht Hcsv Hread Hmiss. cbn zeta. unfold _analyze_file_worker.
  rewrite Ht. cbn [String.eqb Ascii.eqb Bool.eqb]. rewrite Hcsv.
  cbn [open_path]. rewrite Hread. cbn [lift]. rewrite mret_bind.
  destruct (str_in (timestamp_col p) (columns df)); cbn [negb]; [|reflexivity].
  destruct Hmiss as [?|Hv]; [done|]. rewrite Hv. reflexivity.
Qed.

Lemma job_csv_missing_column_witness :
  let p := csv_request "a.csv" in
  let msg :=
    if str_in (timestamp_col p) (columns sample_frame)
    then "数值列 '" +:+ value_col p +:+ "' 不存在"
    else "时间戳列 '" +:+ timestamp_col p +:+ "' 不存在" in
  _analyze_file_worker frame_env "a" p =
  ([AAcquire; ASet "a" running_update; ASet "a" (progress_update 0.2);
    ASet "a" (failed_update msg); ARelease], Ok tt).
Proof.
  apply (job_csv_missing_column frame_env "a" (csv_request "a.csv") "a.csv" sample_frame).
  - reflexivity.
  - reflexivity.
  - reflexivity.
  - right. reflexivity.
Defined.

(** X22. A job on a TXT file succeeds whenever the file can be read and
    split, at least 10 of its values remain after cleaning, the regression
    type and the lag method are known, [max_lags] is not negative, the
    external routine returns and floats can be formatted.  It then performs
    the nine actions below, with one call of the routine on the cleaned
    values, and stores a result that names the file, reports the length of
    the cleaned series and the verdict of the test, and carries two or
    three recommendations. *)
Theorem job_succeeds_on_txt E task_id p path lines tokens r :
  truthy (csv p) = false ->
  txt p = Some path ->
  open_readlines E path = inr lines ->
  Forall2 (fun line values => strip_split E line (delimiter p) = inr values)
    (if has_header p then tl lines else lines) tokens ->
  let x := drop_nan (omap (py_float E) (concat tokens)) in
  10 <= len x ->
  dict_mem (regression p) regression_types = true ->
  dict_mem (lags_method p) lags_methods = true ->
  0 <= max_lags p ->
  adfuller E x (regression p) (Z.min (max_lags p) (len x / 2 - 1)) (lags_method p) = inr r ->
  (forall f, exists s, format_6f E (VFloat f) = inr s) ->
  exists res recommendations,
    _analyze_file_worker E task_id p =
    ([AAcquire; ASet task_id running_update; ASet task_id (progress_update 0.2);
      ASet task_id (progress_update 0.5); ASet task_id (progress_update 0.7);
      job_call p x; ASet task_id (progress_update 0.9);
      ASet task_id (succeeded_update res); ARelease], Ok tt) /\
    dict_get "status" res = Some (VStr "success") /\
    dict_get "file_type" res = Some (VStr "txt") /\
    dict_get "file_path" res = Some (VStr path) /\
    val_path (VDict res) ["data_summary"; "time_series_length"] = Some (VInt (len x)) /\
    val_path (VDict res) ["adf_result"; "statistic"] = Some (VFloat (adfstat r)) /\
    val_path (VDict res) ["adf_result"; "is_stationary"] =
      Some (VBool (pvalue r <? 0.05)%float) /\
    dict_get "recommendations" res = Some (VList (map VStr recommendations)) /\
    length recommendations = (if len x <? 100 then 3%nat else 2%nat).
Proof.
  intros Hc Htxt Hopen Hsplit x Hlen Hreg Hlm Hml Hadf Hfmt.
  set (data := omap (py_float E) (concat tokens)) in *.
  assert (Hraw : (len data <? 10) = false).
  { apply Z.ltb_ge. pose proof (drop_nan_length data). unfold x, len in *. lia. }
  assert (Hx : drop_nan x = x) by apply drop_nan_idem.
  destruct (test_stationarity_valid E x (regression p) (max_lags p) (lags_method p))
    as (rd & ld & _ & _ & Hts).
  { rewrite Hx, Hreg, Hlm. cbn [negb orb]. rewrite !orb_false_r.
    apply orb_false_iff. split; by apply Z.ltb_ge. }
  cbn zeta in Hts. rewrite Hx, Hadf in Hts.
  set (maxlag := Z.min (max_lags p) (len x / 2 - 1)) in *.
  set (adf_result := result_dict r (regression p) rd (lags_method p) ld (len x) maxlag) in *.
  destruct (interpretation_of_result_dict E r (regression p) rd (lags_method p) ld
              (len x) maxlag Hfmt) as [text Htext].
  fold adf_result in Htext.
  assert (Hrec : exists recommendations,
    _generate_recommendations adf_result (len x) = ([], Ok recommendations) /\
    length recommendations = (if len x <? 100 then 3%nat else 2%nat)).
  { unfold _generate_recommendations, adf_result, result_dict.
    cbn [getitem dict_get String.eqb Ascii.eqb Bool.eqb]. rewrite mret_bind.
    destruct (val_truthy _); destruct (len x <? 100); by eexists. }
  destruct Hrec as (recs & Hrecs & Hnrecs).
  assert (Hseries :
    analyze_series E task_id p (Some path) "txt" (NumArray data) =
    ([ASet task_id (progress_update 0.5); ASet task_id (progress_update 0.7);
      job_call p x; ASet task_id (progress_update 0.9);
      ASet task_id
        (succeeded_update
           [("status", VStr "success");
            ("analysis_type", VStr (analysis_type p));
            ("file_path", VStr path);
            ("file_type", VStr "txt");
            ("data_summary",
              VDict [("time_series_length", VInt (len x));
                     ("value_range",
                       VDict [("min", VFloat (np_min E x)); ("max", VFloat (np_max E x));
                              ("mean", VFloat (np_mean E x));
                              ("std", VFloat (np_std E x))])]);
            ("adf_result", VDict adf_result);
            ("interpretation", VStr text);
            ("recommendations", VList (map VStr recs))])], Ok tt)).
  { unfold analyze_series. cbn [array_len array_drop_nan]. rewrite Hraw.
    rewrite set_then. rewrite mret_bind. fold x.
    destruct (Z.ltb_spec (len x) 10) as [?|_]; [lia|].
    rewrite set_then, Hts. cbn [mbind Prog_bind app fst snd].
    rewrite set_then, Htext. cbn [mbind Prog_bind app fst snd].
    rewrite Hrecs. reflexivity. }
  eexists _, recs. split.
  - unfold _analyze_file_worker. rewrite Hc. cbn [String.eqb Ascii.eqb Bool.eqb].
    rewrite Htxt. cbn [open_path]. rewrite Hopen. cbn [lift].
    cbn [mbind Prog_bind _set_task emit mret Prog_ret app fst snd].
    rewrite (read_lines_spec E (delimiter p) _ tokens []) by done.
    rewrite app_nil_l. fold data.
    cbn [mbind Prog_bind _set_task emit mret Prog_ret app fst snd].
    rewrite Hseries. reflexivity.
  - repeat split; try reflexivity. exact Hnrecs.
Qed.

Lemma job_succeeds_on_txt_witness :
  let p := txt_request "a.txt" in
  let tokens := [["3"]; ["1"]; ["4"]; ["1"]; ["5"]; ["9"]; ["2"]; ["6"]; ["5"]; ["3"];
                 ["5"]; ["8"]] in
  let x := drop_nan (omap (py_float sample_env) (concat tokens)) in
  exists res recommendations,
    _analyze_file_worker sample_env "a" p =
    ([AAcquire; ASet "a" running_update; ASet "a" (progress_update 0.2);
      ASet "a" (progress_update 0.5); ASet "a" (progress_update 0.7);
      job_call p x; ASet "a" (progress_update 0.9);
      ASet "a" (succeeded_update res); ARelease], Ok tt) /\
    dict_get "status" res = Some (VStr "success") /\
    dict_get "file_type" res = Some (VStr "txt") /\
    dict_get "file_path" res = Some (VStr "a.txt") /\
    val_path (VDict res) ["data_summary"; "time_series_length"] = Some (VInt (len x)) /\
    val_path (VDict res) ["adf_result"; "statistic"] = Some (VFloat (adfstat sample_tuple)) /\
    val_path (VDict res) ["adf_result"; "is_stationary"] =
      Some (VBool (pvalue sample_tuple <? 0.05)%float) /\
    dict_get "recommendations" res = Some (VList (map VStr recommendations)) /\
    length recommendations = (if len x <? 100 then 3%nat else 2%nat).
Proof.
  apply (job_succeeds_on_txt sample_env "a" (txt_request "a.txt") "a.txt"
           ["value"; "3"; "1"; "4"; "1"; "5"; "9"; "2"; "6"; "5"; "3"; "5"; "8"]
           [["3"]; ["1"]; ["4"]; ["1"]; ["5"]; ["9"]; ["2"]; ["6"]; ["5"]; ["3"];
            ["5"]; ["8"]]
           sample_tuple).
  - reflexivity.
  - reflexivity.
  - reflexivity.
  - repeat constructor.
  - vm_compute. discriminate.
  - reflexivity.
  - reflexivity.
  - vm_compute. discriminate.
  - vm_compute. reflexivity.
  - intros f. eexists. reflexivity.
Defined.
